(** * LyaCosmoParams: the P1D emulators

    A shallow embedding of [p1d_emulator/py/gp_emulator.py] (class
    [GPEmulator]) and [p1d_emulator/py/linear_emulator.py] (class
    [LinearEmulator]), with the properties of the emulator subsystem
    stated and proved over it.

    Numbers.  The emulators compute with numpy [float64] values.  They are
    modelled by the type [f64]: a finite value is an exact real number
    (rounding, overflow and the sign of zero are not modelled), and the
    three non-finite values [inf], [-inf] and [nan] that numpy produces
    (for instance on a division by zero, which numpy does not raise on) are
    kept as constructors of their own.

    Effects.  Python exceptions are the [Raise] results of the [result]
    monad.  Methods that print, call the Gaussian-process library or touch
    the file system run in the monad [Py], which threads the file system
    and collects a trace of events. *)

From Stdlib Require Import Reals Lra Lia List String.
From stdpp Require Import gmap strings list fin_maps pretty sorting.

(* ===================================================================== *)
(** ** numpy float64 values *)
(* ===================================================================== *)

Inductive f64 : Type :=
| Fin (x : R)
| PInf
| NInf
| NaN.

#[global] Instance Rlt_decision : RelDecision Rlt := Rlt_dec.
#[global] Instance Rle_decision : RelDecision Rle := Rle_dec.
#[global] Instance R_eq_decision : EqDecision R := Req_dec_T.

Module F64.
Local Open Scope R_scope.

Definition is_finite (a : f64) : bool :=
  match a with Fin _ => true | _ => false end.

Definition opp (a : f64) : f64 :=
  match a with
  | Fin x => Fin (- x)
  | PInf => NInf
  | NInf => PInf
  | NaN => NaN
  end.

Definition add (a b : f64) : f64 :=
  match a, b with
  | NaN, _ | _, NaN => NaN
  | Fin x, Fin y => Fin (x + y)
  | PInf, NInf | NInf, PInf => NaN
  | PInf, _ | _, PInf => PInf
  | NInf, _ | _, NInf => NInf
  end.

Definition sub (a b : f64) : f64 := add a (opp b).

(** [signed_inf x a]: the product of the infinity [a] with the non-zero
    sign of [x]; [nan] when [x] is zero. *)
Definition signed_inf (x : R) (a : f64) : f64 :=
  if decide (x = 0) then NaN
  else if decide (0 < x) then a else opp a.

Definition mul (a b : f64) : f64 :=
  match a, b with
  | NaN, _ | _, NaN => NaN
  | Fin x, Fin y => Fin (x * y)
  | Fin x, c => signed_inf x c
  | c, Fin y => signed_inf y c
  | PInf, PInf | NInf, NInf => PInf
  | PInf, NInf | NInf, PInf => NInf
  end.

(** numpy division: a finite value divided by zero is [inf], [-inf] or
    (for [0/0]) [nan], with a RuntimeWarning and no exception. *)
Definition div (a b : f64) : f64 :=
  match a, b with
  | NaN, _ | _, NaN => NaN
  | Fin x, Fin y =>
      if decide (y = 0) then signed_inf x PInf else Fin (x / y)
  | Fin _, _ => Fin 0
  | c, Fin y => if decide (y < 0) then opp c else c
  | _, _ => NaN
  end.

Definition sqrt (a : f64) : f64 :=
  match a with
  | Fin x => if decide (x < 0) then NaN else Fin (R_sqrt.sqrt x)
  | PInf => PInf
  | NInf | NaN => NaN
  end.

(** Comparisons: every comparison with [nan] is false. *)
Definition ltb (a b : f64) : bool :=
  match a, b with
  | NaN, _ | _, NaN => false
  | Fin x, Fin y => bool_decide (x < y)
  | NInf, NInf | PInf, _ | _, NInf => false
  | NInf, _ | _, PInf => true
  end.

Definition gtb (a b : f64) : bool := ltb b a.

Definition eqb (a b : f64) : bool :=
  match a, b with
  | Fin x, Fin y => bool_decide (x = y)
  | PInf, PInf | NInf, NInf => true
  | _, _ => false
  end.

End F64.

Declare Scope f64_scope.
Delimit Scope f64_scope with f64.
Bind Scope f64_scope with f64.
Infix "+" := F64.add : f64_scope.
Infix "-" := F64.sub : f64_scope.
Infix "*" := F64.mul : f64_scope.
Infix "/" := F64.div : f64_scope.

(* ===================================================================== *)
(** ** Python exceptions *)
(* ===================================================================== *)

Inductive exn : Type :=
| KeyError (key : string)
| IndexError
| ValueError
| TypeError
| SystemExit
| JSONDecodeError
| UnicodeDecodeError
| FileNotFoundError (path : string).

Inductive result (A : Type) : Type :=
| Ok (a : A)
| Raise (e : exn).
Arguments Ok {A} a.
Arguments Raise {A} e.

#[global] Instance result_ret : MRet result := @Ok.
#[global] Instance result_bind : MBind result := λ A B f m,
  match m with Ok a => f a | Raise e => Raise e end.
#[global] Instance result_fmap : FMap result := λ A B f m,
  match m with Ok a => Ok (f a) | Raise e => Raise e end.

(** The [x ← m; k] notation, elaborating [m] before the continuation so
    that the type of [x] is known in [k]. *)
Definition bind_first {M : Type → Type} `{MBind M} {A B : Type}
  (m : M A) (f : A → M B) : M B := mbind f m.

Declare Scope py_scope.
Notation "x ← y ; z" := (bind_first y (λ x, z))
  (at level 20, y at level 100, z at level 200, only parsing) : py_scope.
Notation "' x ← y ; z" := (bind_first y (λ x, z))
  (at level 20, x pattern, y at level 100, z at level 200, only parsing)
  : py_scope.
Notation "x ;; z" := (bind_first x (λ _, z))
  (at level 100, z at level 200, only parsing, right associativity)
  : py_scope.
#[global] Open Scope py_scope.

(** [or_raise o e]: the value of a lookup, or the exception a missing
    entry raises. *)
Definition or_raise {A} (o : option A) (e : exn) : result A :=
  match o with Some a => Ok a | None => Raise e end.

(** A [for] loop over a list, with the loop state [s] and the body [f]. *)
Fixpoint for_each {A S} (f : A → S → result S) (l : list A) (s : S)
  : result S :=
  match l with
  | [] => Ok s
  | x :: l' => s' ← f x s; for_each f l' s'
  end.

(** [range n] is Python's [range(n)]. *)
Definition range (n : nat) : list nat := seq 0 n.

(** [enumerate l] is Python's [enumerate(l)]. *)
Definition enumerate {A} (l : list A) : list (nat * A) :=
  zip (range (length l)) l.

(* ===================================================================== *)
(** ** numpy arrays *)
(* ===================================================================== *)

(** A one-dimensional array is a list; a two-dimensional array is the list
    of its rows together with its number of columns ([np.shape(a)[1]]),
    which an array has even when it has no rows. *)
Record ndarray2 : Type := Ndarray2 {
  nd_cols : nat;
  nd_rows : list (list f64)
}.

(** The array has the shape it claims. *)
Definition well_shaped (a : ndarray2) : Prop :=
  Forall (λ row, length row = nd_cols a) (nd_rows a).

(** [a[:,j]] *)
Definition column (j : nat) (a : ndarray2) : result (list f64) :=
  mapM (λ row : list f64, or_raise (row !! j) IndexError) (nd_rows a).

(** Python's builtin [min] and [max] over an iterable: the first item,
    replaced by each later item that compares strictly smaller (greater);
    [ValueError] on an empty iterable. *)
Definition py_min (l : list f64) : result f64 :=
  match l with
  | [] => Raise ValueError
  | x :: l' => Ok (fold_left (λ m y, if F64.ltb y m then y else m) l' x)
  end.

Definition py_max (l : list f64) : result f64 :=
  match l with
  | [] => Raise ValueError
  | x :: l' => Ok (fold_left (λ m y, if F64.gtb y m then y else m) l' x)
  end.

(** numpy broadcasting of two one-dimensional operands: equal lengths
    combine elementwise, a length-one operand is repeated, anything else
    is a [ValueError]. *)
Definition broadcast (op : f64 → f64 → f64) (a b : list f64)
  : result (list f64) :=
  if decide (length a = length b) then Ok (zip_with op a b)
  else match a, b with
       | [x], _ => Ok (map (op x) b)
       | _, [y] => Ok (map (λ x, op x y) a)
       | _, _ => Raise ValueError
       end.

(** [row[:] = src] for a row of [width] entries. *)
Definition assign_row (width : nat) (src : list f64) : result (list f64) :=
  if decide (length src = width) then Ok src
  else match src with
       | [x] => Ok (replicate width x)
       | _ => Raise ValueError
       end.

(** [np.sum] of a one-dimensional array. *)
Definition np_sum (a : list f64) : f64 := fold_left F64.add a (Fin 0).

(* ===================================================================== *)
(** ** The archive, the libraries and the emulator object *)
(* ===================================================================== *)

(** One entry of [arxiv.data]: a dictionary with the scalar parameters
    under their names, the wavenumbers, the measured power and, once
    [_fit_p1d_in_arxiv] has run, the fitted coefficients. *)
Record entry : Type := Entry {
  e_scalars : gmap string f64;
  e_k_Mpc : list f64;
  e_p1d_Mpc : list f64;
  e_fit_p1d : option (list f64)
}.

Definition set_fit_p1d (c : list f64) (en : entry) : entry :=
  {| e_scalars := e_scalars en; e_k_Mpc := e_k_Mpc en;
     e_p1d_Mpc := e_p1d_Mpc en; e_fit_p1d := Some c |}.

(** A query model: a dictionary from parameter names to values. *)
Abbreviation model := (gmap string f64).

(** The kernels of GPy that the emulator builds. *)
Inductive kern : Type :=
| Linear (input_dim : nat) (ARD : bool)
| RBF (input_dim : nat) (ARD : bool)
| KAdd (k1 k2 : kern).

(** A [GPy.models.GPRegression] object, as far as the emulator sees it. *)
Record GPRegression : Type := MkGP {
  gp_X : ndarray2;
  gp_Y : list (list f64);
  gp_kernel : kern;
  gp_noise_var : f64;
  gp_initialized : bool;
  gp_updating : bool;
  gp_param_array : list f64
}.

Definition set_gp_initialized (v : bool) (g : GPRegression) :=
  MkGP (gp_X g) (gp_Y g) (gp_kernel g) (gp_noise_var g) v (gp_updating g)
       (gp_param_array g).
Definition set_gp_updating (v : bool) (g : GPRegression) :=
  MkGP (gp_X g) (gp_Y g) (gp_kernel g) (gp_noise_var g) (gp_initialized g) v
       (gp_param_array g).
Definition set_gp_param_array (v : list f64) (g : GPRegression) :=
  MkGP (gp_X g) (gp_Y g) (gp_kernel g) (gp_noise_var g) (gp_initialized g)
       (gp_updating g) v.

(** What the emulators call and the two modelled files do not define:
    GPy's regression, scipy's Delaunay triangulation and the module
    [poly_p1d].  These functions are parameters of the development. *)
Class Libraries : Type := {
  (** [gp.predict(x)]: posterior mean and variance, as two 2-D arrays *)
  GPy_predict : GPRegression → list (list f64) →
                list (list f64) * list (list f64);
  (** the hyperparameter vector a fresh model starts from *)
  GPy_default_params : kern → f64 → list f64;
  (** [gp.optimize()]: the optimised hyperparameter vector *)
  GPy_optimize : GPRegression → list f64;
  (** [Delaunay(points).find_simplex(x)] for a single point [x]: the index
      of the simplex that holds it, or [-1] *)
  find_simplex : ndarray2 → list f64 → Z;
  (** [PolyP1D(k,p1d,kmin_Mpc,kmax_Mpc,deg).lnP_fit] *)
  PolyP1D_fit : list f64 → list f64 → R → R → nat → result (list f64);
  (** [PolyP1D(lnP_fit=coeffs,kmin_Mpc=kmin).P_Mpc(k)] *)
  PolyP1D_P_Mpc : list f64 → R → list f64 → list f64
}.

(** The attributes [__init__] copies from its arguments or derives from
    the archive once, and which no method assigns again. *)
Record Config : Type := MkConfig {
  kmax_Mpc : R;
  basedir : string;
  emu_type : string;
  emu_noise : R;
  max_arxiv_size : option nat;
  drop_tau_rescalings : bool;
  drop_temp_rescalings : bool;
  keep_every_other_rescaling : bool;
  undersample_z : Z;
  verbose : bool;
  asymmetric_kernel : bool;
  z_max : R;
  custom_arxiv : bool;
  k_bin : nat;
  training_k_bins : list f64;
  paramList : list string;
  checkHulls : bool
}.

(** The [GPEmulator] object. *)
Record GPEmulator : Type := MkGPEmulator {
  config :> Config;
  paramLimits : option (list (f64 * f64));
  crossval : bool;
  arxiv : list entry;
  X_param_grid : ndarray2;
  scalefactors : list f64;
  gp : GPRegression;
  trained : bool;
  hull : ndarray2  (** the points [Delaunay] was built from *)
}.

Definition set_paramLimits (v : option (list (f64 * f64))) (e : GPEmulator) :=
  MkGPEmulator (config e) v (crossval e) (arxiv e) (X_param_grid e)
               (scalefactors e) (gp e) (trained e) (hull e).
Definition set_arxiv (v : list entry) (e : GPEmulator) :=
  MkGPEmulator (config e) (paramLimits e) (crossval e) v (X_param_grid e)
               (scalefactors e) (gp e) (trained e) (hull e).
Definition set_X_param_grid (v : ndarray2) (e : GPEmulator) :=
  MkGPEmulator (config e) (paramLimits e) (crossval e) (arxiv e) v
               (scalefactors e) (gp e) (trained e) (hull e).
Definition set_scalefactors (v : list f64) (e : GPEmulator) :=
  MkGPEmulator (config e) (paramLimits e) (crossval e) (arxiv e)
               (X_param_grid e) v (gp e) (trained e) (hull e).
Definition set_gp (v : GPRegression) (e : GPEmulator) :=
  MkGPEmulator (config e) (paramLimits e) (crossval e) (arxiv e)
               (X_param_grid e) (scalefactors e) v (trained e) (hull e).
Definition set_hull (v : ndarray2) (e : GPEmulator) :=
  MkGPEmulator (config e) (paramLimits e) (crossval e) (arxiv e)
               (X_param_grid e) (scalefactors e) (gp e) (trained e) v.
Definition set_trained (v : bool) (e : GPEmulator) :=
  MkGPEmulator (config e) (paramLimits e) (crossval e) (arxiv e)
               (X_param_grid e) (scalefactors e) (gp e) v (hull e).

(* ===================================================================== *)
(** ** Saved emulators on disk *)
(* ===================================================================== *)

(** The dictionary [initParams] that identifies a configuration.  Numbers
    are kept by value, which is how Python's [==] compares them. *)
Record InitParams : Type := MkInitParams {
  ip_k_bin : nat;
  ip_emu_type : string;
  ip_emu_noise : R;
  ip_drop_tau_rescalings : bool;
  ip_drop_temp_rescalings : bool;
  ip_keep_every_other_rescaling : bool;
  ip_undersample_z : Z;
  ip_paramList : list string;
  ip_asymmetric_kernel : bool;
  ip_z_max : R
}.

#[global] Instance InitParams_eq_dec : EqDecision InitParams.
Proof. solve_decision. Defined.

(** What [json.load] returns: a dictionary with the shape of
    [initParams], or any other JSON value.  A dictionary written by
    [json.dump] is read back equal: its values are booleans, integers,
    finite floats, strings and a list of strings. *)
Inductive json : Type :=
| JInitParams (d : InitParams)
| JOther.

(** [fileInitDict == initParams] *)
Definition json_eq (j : json) (d : InitParams) : bool :=
  match j with
  | JInitParams d' => bool_decide (d' = d)
  | JOther => false
  end.

(** The files of the directory: a text file that holds a JSON value, a
    binary file written by [np.save], or a text file that is not JSON. *)
Inductive file : Type :=
| JsonFile (j : json)
| NpyFile (a : list f64)
| OtherFile.

Abbreviation filesystem := (gmap string file).

(* ===================================================================== *)
(** ** The monad of the methods *)
(* ===================================================================== *)

(** What a method does that is seen from outside.  A call of [print] is
    recorded by the fixed text it starts with: the values formatted into
    the text or printed after it (a number of points, a file name, the
    model of a query) are not part of the event. *)
Inductive event : Type :=
| Print (msg : string)
| GPyPredictCall (x : list (list f64))
| GPyOptimizeCall
| FileWrite (path : string).

Record world : Type := World {
  self : GPEmulator;
  fs : filesystem
}.

Definition Py (A : Type) : Type := world → list event * world * result A.

#[global] Instance Py_ret : MRet Py := λ A a w, ([], w, Ok a).
#[global] Instance Py_bind : MBind Py := λ A B f m w,
  match m w with
  | (t, w', Ok a) => let '(t', w'', r) := f a w' in (t ++ t', w'', r)
  | (t, w', Raise e) => (t, w', Raise e)
  end.

Definition lift {A} (r : result A) : Py A := λ w, ([], w, r).
Definition emit (ev : event) : Py unit := λ w, ([ev], w, Ok tt).
Definition print (msg : string) : Py unit := emit (Print msg).
Definition get_self : Py GPEmulator := λ w, ([], w, Ok (self w)).
Definition update_self (f : GPEmulator → GPEmulator) : Py unit :=
  λ w, ([], World (f (self w)) (fs w), Ok tt).
Definition get_fs : Py filesystem := λ w, ([], w, Ok (fs w)).
Definition write_file (path : string) (c : file) : Py unit :=
  λ w, ([FileWrite path], World (self w) (<[path := c]> (fs w)), Ok tt).
Definition when (b : bool) (m : Py unit) : Py unit :=
  if b then m else mret tt.

(* ===================================================================== *)
(** ** The median *)
(* ===================================================================== *)

Definition is_nan (a : f64) : bool :=
  match a with NaN => true | _ => false end.

(** The order numpy sorts by, on values that are not [nan]. *)
Definition f64_le (a b : f64) : Prop := F64.ltb b a = false.
#[global] Instance f64_le_dec : RelDecision f64_le.
Proof. intros a b. unfold f64_le. apply _. Defined.

(** [np.median] of a one-dimensional array: [nan] if the array is empty
    or holds a [nan]; otherwise the middle element of the sorted array,
    or the mean of the two middle elements. *)
Definition np_median (l : list f64) : f64 :=
  if existsb is_nan l then NaN
  else
    let s := merge_sort f64_le l in
    let n := length s in
    if decide (n = 0) then NaN
    else if Nat.odd n then default NaN (s !! (n / 2)%nat)
    else F64.div (F64.add (default NaN (s !! (n / 2 - 1)%nat))
                          (default NaN (s !! (n / 2)%nat)))
                 (Fin 2).

(** [np.median(a, axis=0)] *)
Definition np_median_axis0 (a : ndarray2) : result (list f64) :=
  mapM (λ j, np_median <$> column j a) (range (nd_cols a)).

(* ===================================================================== *)
(** ** GPEmulator *)
(* ===================================================================== *)

Section GPEmulatorMethods.
Context `{Libraries}.

(** Python's truth value of [max_arxiv_size]: [None] and [0] are false. *)
Definition truthy (o : option nat) : bool :=
  match o with Some (S _) => true | _ => false end.

(** The rescaling of one value, as every method writes it. *)
Definition rescale1 (x : f64) (lim : f64 * f64) : f64 :=
  ((x - lim.1) / (lim.2 - lim.1))%f64.

Definition _training_points_k_bin : Py ndarray2 :=
  e ← get_self;
  rows ← lift (mapM (λ en, assign_row (k_bin e) (take (k_bin e) (e_p1d_Mpc en)))
                    (arxiv e));
  mret (Ndarray2 (k_bin e) rows).

Definition _fit_p1d_in_arxiv (deg : nat) (kmax : R) : Py unit :=
  e ← get_self;
  data ← lift (mapM (λ en,
                 c ← PolyP1D_fit (e_k_Mpc en) (e_p1d_Mpc en) (1 / 1000) kmax deg;
                 mret (set_fit_p1d c en))
               (arxiv e));
  update_self (set_arxiv data).

Definition _training_points_polyfit : Py ndarray2 :=
  e ← get_self;
  _fit_p1d_in_arxiv 4 (kmax_Mpc e);;
  e ← get_self;
  rows ← lift (mapM (λ en,
                 c ← or_raise (e_fit_p1d en) (KeyError "fit_p1d");
                 assign_row 5 c)
               (arxiv e));
  mret (Ndarray2 5 rows).

Definition _rescale_params (params : list f64) (limits : list (f64 * f64))
  : result (list f64) :=
  for_each (λ aa params,
      x ← or_raise (params !! aa) IndexError;
      lim ← or_raise (limits !! aa) IndexError;
      mret (<[aa := rescale1 x lim]> params))
    (range (length params)) params.

Definition _buildTrainingSets : Py (ndarray2 * ndarray2) :=
  e ← get_self;
  trainingPoints ←
    (if decide (emu_type e = "k_bin") then _training_points_k_bin
     else if decide (emu_type e = "polyfit") then _training_points_polyfit
     else print "Unknown emulator type, terminating";; lift (Raise SystemExit));
  e ← get_self;
  params ← lift (mapM (λ en,
                   mapM (λ par, or_raise (e_scalars en !! par) (KeyError par))
                        (paramList e))
                 (arxiv e));
  mret (Ndarray2 (length (paramList e)) params, trainingPoints).

Definition _get_param_limits (paramGrid : ndarray2)
  : result (list (f64 * f64)) :=
  mapM (λ aa,
      col ← column aa paramGrid;
      lo ← py_min col;
      hi ← py_max col;
      mret (lo, hi))
    (range (nd_cols paramGrid)).

(** The loop of [_build_interp] that rescales the grid row by row.  (An
    exception in it ends the construction, so the rows it has rescaled by
    then are not kept apart.) *)
Definition rescale_grid (n : nat) (limits : list (f64 * f64))
    (rows : list (list f64)) : result (list (list f64)) :=
  for_each (λ cc rows,
      row ← or_raise (rows !! cc) IndexError;
      row' ← _rescale_params row limits;
      mret (<[cc := row']> rows))
    (range n) rows.

Definition _build_interp : Py unit :=
  '(X, Ypoints) ← _buildTrainingSets;
  update_self (set_X_param_grid X);;
  e ← get_self;
  limits ← match paramLimits e with
           | None =>
               l ← lift (_get_param_limits X);
               update_self (set_paramLimits (Some l));;
               mret l
           | Some l => mret l
           end;
  rows ← lift (rescale_grid (length (arxiv e)) limits (nd_rows X));
  let X := Ndarray2 (nd_cols X) rows in
  update_self (set_X_param_grid X);;
  when (verbose e) (print "Rescaled params to unity volume");;
  sf ← lift (np_median_axis0 Ypoints);
  update_self (set_scalefactors sf);;
  normspectra ← lift (mapM (λ row,
                        q ← broadcast F64.div row sf;
                        mret (map (λ y, y - Fin 1)%f64 q))
                      (nd_rows Ypoints));
  let d := length (paramList e) in
  let kernel := KAdd (Linear d (asymmetric_kernel e))
                     (RBF d (asymmetric_kernel e)) in
  update_self (set_gp (MkGP X normspectra kernel (Fin (emu_noise e)) false
                            true (GPy_default_params kernel (Fin (emu_noise e))))).

Definition train : Py unit :=
  update_self (λ e, set_gp (set_gp_initialized true (gp e)) e);;
  print "Training GP on %d points";;
  emit GPyOptimizeCall;;
  update_self (λ e, set_gp (set_gp_param_array (GPy_optimize (gp e)) (gp e)) e);;
  print "Optimised";;
  update_self (set_trained true).

(** The loop that [return_unit_call], [check_in_hull], [predict] and
    [get_nearest_distance] each write out: the values of the model under
    the names of [paramList], in that order, each rescaled on the spot. *)
Definition return_unit_call (e : GPEmulator) (m : model)
  : result (list f64) :=
  limits ← or_raise (paramLimits e) TypeError;
  for_each (λ '(aa, par) param,
      v ← or_raise (m !! par) (KeyError par);
      let param := param ++ [v] in
      x ← or_raise (param !! aa) IndexError;
      lim ← or_raise (limits !! aa) IndexError;
      mret (<[aa := rescale1 x lim]> param))
    (enumerate (paramList e)) [].

Definition check_in_hull (e : GPEmulator) (m : model) : result bool :=
  param ← return_unit_call e m;
  mret (bool_decide (find_simplex (hull e) param < 0)%Z).

(** [np.sum(np.isin(param, grid)) == len(param)] *)
Definition all_in_grid (param : list f64) (grid : ndarray2) : bool :=
  forallb (λ p, existsb (F64.eqb p) (concat (nd_rows grid))) param.

Definition predict (m : model) : Py (option (list f64 * list f64)) :=
  e ← get_self;
  if negb (trained e) then
    print "Emulator not trained, cannot make a prediction";;
    mret None
  else
    param ← lift (return_unit_call e m);
    when (checkHulls e)
      (when (bool_decide (find_simplex (hull e) param < 0)%Z)
         (print "Model is outside convex hull:"));;
    when (crossval e)
      (when (all_in_grid param (X_param_grid e))
         (print "Emulator call is inside training set!!!"));;
    emit (GPyPredictCall [param]);;
    let '(pred, err) := GPy_predict (gp e) [param] in
    values ← lift (mapM (λ row,
                     broadcast F64.mul (map (λ p, p + Fin 1)%f64 row)
                               (scalefactors e))
                   pred);
    errs ← lift (mapM (λ row,
                   broadcast F64.mul (map F64.sqrt row) (scalefactors e))
                 err);
    mret (Some (concat values, concat errs)).

(** The Euclidean distance [np.sqrt(np.sum((training_point-param)**2))] *)
Definition distance (training_point param : list f64) : result f64 :=
  d ← broadcast F64.sub training_point param;
  mret (F64.sqrt (np_sum (map (λ x, x * x)%f64 d))).

Definition get_nearest_distance (e : GPEmulator) (m : model) : result f64 :=
  param ← return_unit_call e m;
  for_each (λ training_point shortest_distance,
      new_distance ← distance training_point param;
      mret (if F64.ltb new_distance shortest_distance
            then new_distance else shortest_distance))
    (nd_rows (X_param_grid e)) (Fin (9999 / 100)).

End GPEmulatorMethods.

(* ===================================================================== *)
(** ** Saving and loading *)
(* ===================================================================== *)

(** The dictionary [initParams] of an emulator. *)
Definition init_params (e : GPEmulator) : InitParams := {|
  ip_k_bin := k_bin e;
  ip_emu_type := emu_type e;
  ip_emu_noise := emu_noise e;
  ip_drop_tau_rescalings := drop_tau_rescalings e;
  ip_drop_temp_rescalings := drop_temp_rescalings e;
  ip_keep_every_other_rescaling := keep_every_other_rescaling e;
  ip_undersample_z := undersample_z e;
  ip_paramList := paramList e;
  ip_asymmetric_kernel := asymmetric_kernel e;
  ip_z_max := z_max e
|}.

(** [basedir+"/saved_emulator_"] *)
Definition save_string (e : GPEmulator) : string :=
  basedir e +:+ "/saved_emulator_".

(** [saveString+str(aa)+".json"] and [saveString+str(aa)+".npy"] *)
Definition json_path (saveString : string) (aa : nat) : string :=
  (saveString +:+ pretty aa) +:+ ".json".
Definition npy_path (saveString : string) (aa : nat) : string :=
  (saveString +:+ pretty aa) +:+ ".npy".

(** [json.load] of a file opened as text: the bytes of a file of
    [np.save] are not text (reading them raises [UnicodeDecodeError]), and
    text that is not JSON does not parse. *)
Definition json_load (f : file) : result json :=
  match f with
  | JsonFile j => Ok j
  | NpyFile _ => Raise UnicodeDecodeError
  | OtherFile => Raise JSONDecodeError
  end.

(** [np.load(path)] *)
Definition np_load (files : gmap string file) (path : string)
  : result (list f64) :=
  match files !! path with
  | Some (NpyFile a) => Ok a
  | Some _ => Raise ValueError
  | None => Raise (FileNotFoundError path)
  end.

(** How the loop over the saved emulators ends: at a file whose
    dictionary equals [initParams], at the first suffix that is not a
    file, or with an exception. *)
Inductive scan_end : Type :=
| Matched (aa : nat)
| Unused (aa : nat).

(** The loop [while os.path.isfile(saveString+str(aa)+".json")] of
    [saveEmulator] and [loadEmulator], from the suffix [aa].  The loop has
    no bound in the source; [fuel] bounds the iterations here, and [None]
    is the loop that did not end within [fuel] iterations. *)
Fixpoint scan_saved (fuel : nat) (files : gmap string file)
    (saveString : string) (initParams : InitParams) (aa : nat)
  : option (result scan_end) :=
  match fuel with
  | O => None
  | S fuel' =>
      match files !! json_path saveString aa with
      | None => Some (Ok (Unused aa))
      | Some f =>
          match json_load f with
          | Raise ex => Some (Raise ex)
          | Ok fileInitDict =>
              if json_eq fileInitDict initParams then Some (Ok (Matched aa))
              else scan_saved fuel' files saveString initParams (S aa)
          end
      end
  end.

(** [saveEmulator], with the bound [fuel] on its loop. *)
Definition saveEmulator (fuel : nat) (w : world)
  : option (list event * world * result unit) :=
  let e := self w in
  if custom_arxiv e || truthy (max_arxiv_size e) then
    Some (print "Cannot save emulators trained on custom arxivs" w)
  else if negb (trained e) then
    Some (print "Cannot save an emulator that is not trained" w)
  else
    let initParams := init_params e in
    let saveString := save_string e in
    scan ← scan_saved fuel (fs w) saveString initParams 1;
    Some (match scan with
          | Raise ex => lift (Raise ex) w
          | Ok (Matched _) =>
              when (verbose e) (print "This emulator is already saved.") w
          | Ok (Unused aa) =>
              (write_file (json_path saveString aa)
                          (JsonFile (JInitParams initParams));;
               write_file (npy_path saveString aa)
                          (NpyFile (gp_param_array (gp e)));;
               when (verbose e) (print "Model saved as %s.npy")) w
          end).

(** [loadEmulator], with the bound [fuel] on its loop.  The assignment
    [self.gp[:] = a] is modelled for a vector [a] that has as many values
    as the model has parameters, which is what [saveEmulator] writes; the
    exception of GPy on a vector of another length is not modelled. *)
Definition loadEmulator (fuel : nat) (w : world)
  : option (list event * world * result unit) :=
  let e := self w in
  if custom_arxiv e || truthy (max_arxiv_size e) then
    Some (print "Cannot load emulators with non-standard training data" w)
  else if trained e then
    Some (print "Cannot load an emulator after training" w)
  else
    let initParams := init_params e in
    let saveString := save_string e in
    scan ← scan_saved fuel (fs w) saveString initParams 1;
    Some (match scan with
          | Raise ex => lift (Raise ex) w
          | Ok (Matched aa) =>
              (update_self (λ e, set_gp (set_gp_updating false (gp e)) e);;
               update_self (λ e, set_gp (set_gp_initialized true (gp e)) e);;
               a ← lift (np_load (fs w) (npy_path saveString aa));
               update_self (λ e, set_gp (set_gp_param_array a (gp e)) e);;
               update_self (λ e, set_gp (set_gp_updating true (gp e)) e);;
               update_self (set_trained true);;
               when (verbose e) (print "Loading emulator from %s.npy")) w
          | Ok (Unused _) =>
              when (verbose e)
                   (print "Could not find a matching emulator to load") w
          end).

(** [load_hyperparams], for a vector of hyperparameters that has as many
    values as the model has parameters (as in [loadEmulator]). *)
Definition load_hyperparams (hyperparams : list f64) : Py unit :=
  update_self (λ e, set_gp (set_gp_updating false (gp e)) e);;
  update_self (λ e, set_gp (set_gp_initialized true (gp e)) e);;
  update_self (λ e, set_gp (set_gp_param_array hyperparams (gp e)) e);;
  update_self (λ e, set_gp (set_gp_updating true (gp e)) e);;
  update_self (set_trained true);;
  e ← get_self;
  when (verbose e) (print "Emulator hyperparameters loaded").

(* ===================================================================== *)
(** ** LinearEmulator *)
(* ===================================================================== *)

(** A [poly_p1d.PolyP1D] object, as far as [LinearEmulator] reads it. *)
Record PolyP1D : Type := MkPolyP1D {
  lnP_fit : list f64;
  kmin_Mpc : R
}.

(** An entry of the archive of a [LinearEmulator]: [__init__] stores the
    fitted [PolyP1D] object under the key ['fit_p1d']. *)
Record linear_entry : Type := LinearEntry {
  le_fit_p1d : option PolyP1D
}.

(** The [LinearEmulator] object.  A [LinearNDInterpolator] is called on a
    point and returns a value ([nan] outside the hull of its points). *)
Record LinearEmulator : Type := MkLinearEmulator {
  lin_verbose : bool;
  lin_arxiv : list linear_entry;
  linterps : list (list f64 → f64)
}.

(** Methods that print and may raise, and have no other effect. *)
Definition Out (A : Type) : Type := list event * result A.

#[global] Instance Out_ret : MRet Out := λ A a, ([], Ok a).
#[global] Instance Out_bind : MBind Out := λ A B f m,
  match m with
  | (t, Ok a) => let '(t', r) := f a in (t ++ t', r)
  | (t, Raise e) => (t, Raise e)
  end.

Definition say (msg : string) : Out unit := ([Print msg], Ok tt).
Definition out {A} (r : result A) : Out A := ([], r).
Definition say_when (b : bool) (msg : string) : Out unit :=
  if b then say msg else mret tt.

(** [np.empty(n)]: an array of [n] entries with whatever the memory
    holds, here the values [junk 0], [junk 1], ... *)
Definition np_empty (junk : nat → f64) (n : nat) : list f64 :=
  map junk (seq 0 n).

Section LinearEmulator.
Context `{Libraries}.

Definition _point_from_model (m : gmap string f64) : result (list f64) :=
  mapM (λ par, or_raise (m !! par) (KeyError par))
       ["Delta2_p"; "n_p"; "alpha_p"; "f_p"; "mF"; "sigT_Mpc"; "gamma"].

(** The loop [for i in range(Npar): coeffs[Npar-i-1] = self.linterps[i](point)] *)
Definition emulate_coeffs (e : LinearEmulator) (point : list f64)
    (coeffs : list f64) : result (list f64) :=
  let Npar := length (linterps e) in
  for_each (λ i coeffs,
      linterp ← or_raise (linterps e !! i) IndexError;
      if decide (Npar - i - 1 < length coeffs)%nat
      then mret (<[(Npar - i - 1)%nat := linterp point]> coeffs)
      else Raise IndexError)
    (range Npar) coeffs.

Definition emulate_p1d_Mpc (junk : nat → f64) (e : LinearEmulator)
    (m : gmap string f64) (k_Mpc : list f64) : Out (list f64) :=
  say_when (lin_verbose e) "asked to emulate model";;
  point ← out (_point_from_model m);
  say_when (lin_verbose e) "evaluate point";;
  let Npar := length (linterps e) in
  coeffs ← out (emulate_coeffs e point (np_empty junk Npar));
  say_when (lin_verbose e) "got coefficients";;
  entry0 ← out (or_raise (lin_arxiv e !! 0%nat) IndexError);
  fit ← out (or_raise (le_fit_p1d entry0) (KeyError "fit_p1d"));
  let smooth_p1d := MkPolyP1D coeffs (kmin_Mpc fit) in
  say_when (lin_verbose e) "got poly_p1d";;
  mret (PolyP1D_P_Mpc (lnP_fit smooth_p1d) (kmin_Mpc smooth_p1d) k_Mpc).

End LinearEmulator.

(* ===================================================================== *)
(** ** Grids of finite values *)
(* ===================================================================== *)

(** The properties of the rescaling are stated for grids whose entries are
    finite: such a grid is the image of a grid of real numbers. *)
Definition fin_rows (G : list (list R)) : list (list f64) := map (map Fin) G.

(** Column [j] of a grid of reals whose rows all have an entry [j]. *)
Definition Rcolumn (j : nat) (G : list (list R)) : list R :=
  map (λ row, nth j row 0%R) G.

(** The smallest and the largest of a non-empty list of reals, found the
    way Python's [min] and [max] find them. *)
Definition Rfold_min (x : R) (l : list R) : R :=
  fold_left (λ m y, if decide (y < m)%R then y else m) l x.
Definition Rfold_max (x : R) (l : list R) : R :=
  fold_left (λ m y, if decide (m < y)%R then y else m) l x.

Definition Rlimits (c : list R) : R * R :=
  match c with
  | [] => (0%R, 0%R)
  | x :: l => (Rfold_min x l, Rfold_max x l)
  end.

Definition fin_pair (p : R * R) : f64 * f64 := (Fin p.1, Fin p.2).

(** The limits of every column of a grid with [d] columns. *)
Definition Rgrid_limits (d : nat) (G : list (list R)) : list (R * R) :=
  map (λ j, Rlimits (Rcolumn j G)) (seq 0 d).

(** The image of a real under the rescaling with limits [lo] and [hi]. *)
Definition Rrescale (x : R) (lim : R * R) : R :=
  ((x - lim.1) / (lim.2 - lim.1))%R.

(** Every selected parameter takes at least two distinct values. *)
Definition two_distinct_values (d : nat) (G : list (list R)) : Prop :=
  ∀ j, (j < d)%nat →
    ∃ r1 r2 x1 x2, r1 ∈ G ∧ r2 ∈ G ∧
      r1 !! j = Some x1 ∧ r2 !! j = Some x2 ∧ x1 ≠ x2.

(** The model holds a value under every name of [pars]. *)
Definition has_keys (m : gmap string f64) (pars : list string) : Prop :=
  Forall (λ par, is_Some (m !! par)) pars.

(** The values of the model under the names of [pars], in that order. *)
Definition values (m : gmap string f64) (pars : list string) : list f64 :=
  map (λ par, default NaN (m !! par)) pars.

(** The query point in the unit cube: the values of the model, rescaled. *)
Definition unit_point (m : gmap string f64) (pars : list string)
    (limits : list (f64 * f64)) : list f64 :=
  zip_with rescale1 (values m pars) limits.

(** What a prediction of a trained emulator prints and calls. *)
Definition predict_trace `{Libraries} (e : GPEmulator) (param : list f64)
  : list event :=
  (if checkHulls e && bool_decide (find_simplex (hull e) param < 0)%Z
   then [Print "Model is outside convex hull:"] else [])
  ++ (if crossval e && all_in_grid param (X_param_grid e)
      then [Print "Emulator call is inside training set!!!"] else [])
  ++ [GPyPredictCall [param]].

(** The de-normalised prediction. *)
Definition denormalised_values (mean sf : list f64) : list f64 :=
  zip_with (λ p s, (p + Fin 1) * s)%f64 mean sf.
Definition denormalised_errors (var : f64) (sf : list f64) : list f64 :=
  map (λ s, F64.sqrt var * s)%f64 sf.

(** The Euclidean distance between two points of reals, and the distance
    to the nearest row of a grid, capped by the value [s] that the scan
    starts from. *)
Definition Rsum (l : list R) : R := fold_left Rplus l 0%R.

Definition Rdistance (a b : list R) : R :=
  sqrt (Rsum (zip_with (λ x y, (x - y) * (x - y))%R a b)).

Definition Rnearest (s : R) (p : list R) (G : list (list R)) : R :=
  fold_left (λ shortest row, Rmin shortest (Rdistance row p)) G s.

(** The files after a save at the suffix [k]. *)
Definition saved_at (e : GPEmulator) (k : nat) (files : gmap string file)
  : gmap string file :=
  <[npy_path (save_string e) k := NpyFile (gp_param_array (gp e))]>
    (<[json_path (save_string e) k := JsonFile (JInitParams (init_params e))]>
       files).

(** No file of the saved emulators holds the dictionary [ip], and each of
    them is a JSON file: the configuration is not saved yet. *)
Definition not_saved (files : gmap string file) (s : string)
    (ip : InitParams) : Prop :=
  ∀ i f, files !! json_path s i = Some f →
    ∃ j, f = JsonFile j ∧ json_eq j ip = false.

(** The object after [loadEmulator] has loaded the hyperparameters [a]. *)
Definition loaded (a : list f64) (e : GPEmulator) : GPEmulator :=
  set_trained true
    (set_gp (set_gp_updating true
               (set_gp_param_array a
                  (set_gp_initialized true
                     (set_gp_updating false (gp e))))) e).

(** The object when [np.load] raised after the model was put on hold. *)
Definition load_interrupted (e : GPEmulator) : GPEmulator :=
  set_gp (set_gp_initialized true (set_gp_updating false (gp e))) e.

(** The middle of a sorted list of reals: its middle element, or the mean
    of its two middle elements. *)
Definition Rmiddle (s : list R) : R :=
  let n := length s in
  if Nat.odd n then nth (n / 2) s 0%R
  else ((nth (n / 2 - 1) s 0 + nth (n / 2) s 0) / 2)%R.

(** What [_build_interp] leaves in the object. *)
Definition built `{Libraries} (e : GPEmulator) (X Y : ndarray2)
    (limits : list (f64 * f64)) (sf : list f64) : GPEmulator :=
  let X' := Ndarray2 (nd_cols X)
              (map (λ row, zip_with rescale1 row limits) (nd_rows X)) in
  let d := length (paramList e) in
  let kernel := KAdd (Linear d (asymmetric_kernel e))
                     (RBF d (asymmetric_kernel e)) in
  MkGPEmulator (config e) (Some limits) (crossval e) (arxiv e) X' sf
    (MkGP X' (map (λ row, zip_with (λ y s, y / s - Fin 1)%f64 row sf)
                  (nd_rows Y))
          kernel (Fin (emu_noise e)) false true
          (GPy_default_params kernel (Fin (emu_noise e))))
    (trained e) (hull e).

(* ===================================================================== *)
(** ** A small archive and fixed library functions *)
(* ===================================================================== *)

(** Fixed library functions, to run the methods on concrete inputs: a
    predictor with mean [0.5] and variance [4] in two target columns, and
    a triangulation that holds the unit cube. *)
Definition inside_unit (x : f64) : bool :=
  match x with
  | Fin r => bool_decide (0 <= r)%R && bool_decide (r <= 1)%R
  | _ => false
  end.

#[global] Instance example_libraries : Libraries := {|
  GPy_predict _ _ := ([[Fin (1 / 2); Fin (1 / 2)]], [[Fin 4]]);
  GPy_default_params _ _ := [Fin 1; Fin 1; Fin 1];
  GPy_optimize _ := [Fin 2; Fin 3; Fin 5];
  find_simplex _ x := if forallb inside_unit x then 0%Z else (-1)%Z;
  PolyP1D_fit _ _ _ _ _ := Ok [Fin 0; Fin 0; Fin 0; Fin 0; Fin 0];
  PolyP1D_P_Mpc coeffs _ k := map (λ _, default NaN (head coeffs)) k
|}.

Definition example_config : Config := {|
  kmax_Mpc := 10; basedir := "sims"; emu_type := "k_bin";
  emu_noise := 1 / 1000; max_arxiv_size := None;
  drop_tau_rescalings := true; drop_temp_rescalings := false;
  keep_every_other_rescaling := false; undersample_z := 1;
  verbose := false; asymmetric_kernel := false; z_max := 5;
  custom_arxiv := false; k_bin := 2;
  training_k_bins := [Fin 1; Fin 2];
  paramList := ["mF"; "Delta2_p"]; checkHulls := true
|}.

Definition example_entry (mF Delta2_p p1 p2 : R) : entry := {|
  e_scalars := <["mF" := Fin mF]> (<["Delta2_p" := Fin Delta2_p]> ∅);
  e_k_Mpc := [Fin 1; Fin 2; Fin 20];
  e_p1d_Mpc := [Fin p1; Fin p2; Fin 1];
  e_fit_p1d := None
|}.

(** Three snapshots: mF takes the values 1, 3, 2 and Delta2_p the values
    4, 2, 2. *)
Definition example_arxiv : list entry :=
  [example_entry 1 4 10 20; example_entry 3 2 30 60; example_entry 2 2 20 80].

Definition empty_gp : GPRegression :=
  MkGP (Ndarray2 0 []) [] (Linear 0 false) (Fin 0) false true [].

(** The object as [__init__] has it before [_build_interp] runs. *)
Definition example_new : GPEmulator := {|
  config := example_config; paramLimits := None; crossval := false;
  arxiv := example_arxiv; X_param_grid := Ndarray2 0 [];
  scalefactors := []; gp := empty_gp; trained := false;
  hull := Ndarray2 0 []
|}.

Definition example_grid : list (list R) := [[1; 4]; [3; 2]; [2; 2]]%R.
Definition example_targets : ndarray2 :=
  Ndarray2 2 [[Fin 10; Fin 20]; [Fin 30; Fin 60]; [Fin 20; Fin 80]].

(** An archive in which Delta2_p is the same in every snapshot. *)
Definition degenerate_new : GPEmulator := {|
  config := example_config; paramLimits := None; crossval := false;
  arxiv := [example_entry 1 2 10 20; example_entry 3 2 30 60];
  X_param_grid := Ndarray2 0 [];
  scalefactors := []; gp := empty_gp; trained := false;
  hull := Ndarray2 0 []
|}.

Definition example_model (mF Delta2_p : R) : gmap string f64 :=
  <["mF" := Fin mF]> (<["Delta2_p" := Fin Delta2_p]> ∅).

(** The object once it is built from [example_arxiv] and trained. *)
Definition example_unit_grid : ndarray2 :=
  Ndarray2 2 [[Fin 0; Fin 1]; [Fin 1; Fin 0]; [Fin (1 / 2); Fin 0]].

Definition example_trained : GPEmulator := {|
  config := example_config;
  paramLimits := Some [(Fin 1, Fin 3); (Fin 2, Fin 4)];
  crossval := false;
  arxiv := example_arxiv;
  X_param_grid := example_unit_grid;
  scalefactors := [Fin 20; Fin 60];
  gp := MkGP example_unit_grid
             [[Fin (- (1 / 2)); Fin (- (2 / 3))]; [Fin (1 / 2); Fin 0];
              [Fin 0; Fin (1 / 3)]]
             (KAdd (Linear 2 false) (RBF 2 false)) (Fin (1 / 1000))
             true true [Fin 2; Fin 3; Fin 5];
  trained := true;
  hull := example_unit_grid
|}.

(** The same configuration with [drop_tau_rescalings=False], on an object
    that is built and not trained. *)
Definition loader_config : Config := {|
  kmax_Mpc := 10; basedir := "sims"; emu_type := "k_bin";
  emu_noise := 1 / 1000; max_arxiv_size := None;
  drop_tau_rescalings := false; drop_temp_rescalings := false;
  keep_every_other_rescaling := false; undersample_z := 1;
  verbose := false; asymmetric_kernel := false; z_max := 5;
  custom_arxiv := false; k_bin := 2;
  training_k_bins := [Fin 1; Fin 2];
  paramList := ["mF"; "Delta2_p"]; checkHulls := true
|}.

Definition example_loader : GPEmulator := {|
  config := loader_config;
  paramLimits := Some [(Fin 1, Fin 3); (Fin 2, Fin 4)];
  crossval := false;
  arxiv := example_arxiv;
  X_param_grid := example_unit_grid;
  scalefactors := [Fin 20; Fin 60];
  gp := MkGP example_unit_grid [] (KAdd (Linear 2 false) (RBF 2 false))
             (Fin (1 / 1000)) false true [Fin 1; Fin 1; Fin 1];
  trained := false;
  hull := example_unit_grid
|}.

(** The files after [example_trained] was saved into an empty directory. *)
Definition example_saved : gmap string file :=
  <["sims/saved_emulator_1.npy" := NpyFile [Fin 2; Fin 3; Fin 5]]>
    (<["sims/saved_emulator_1.json"
       := JsonFile (JInitParams (init_params example_trained))]> ∅).

(** A linear emulator with three interpolators, on models that hold the
    seven parameters. *)
Definition example_linear : LinearEmulator := {|
  lin_verbose := true;
  lin_arxiv := [LinearEntry (Some (MkPolyP1D [Fin 1; Fin 2; Fin 3] (1 / 1000)))];
  linterps := [(λ _, Fin 10); (λ _, Fin 20); (λ x, default (Fin 30) (head x))]
|}.

Definition example_linear_model : gmap string f64 :=
  list_to_map [("Delta2_p", Fin 7); ("n_p", Fin 1); ("alpha_p", Fin 1);
               ("f_p", Fin 1); ("mF", Fin 1); ("sigT_Mpc", Fin 1);
               ("gamma", Fin 1)].

(* ===================================================================== *)
(** ** More of GPEmulator: training points by number, construction *)
(* ===================================================================== *)

(** The position that a Python index [i] has in a sequence of [len]
    items: a negative index counts from the end, and an index outside
    [-len, len) has none. *)
Definition py_position (len : nat) (i : Z) : option nat :=
  if decide (0 ≤ i < Z.of_nat len)%Z then Some (Z.to_nat i)
  else if decide (- Z.of_nat len ≤ i < 0)%Z
       then Some (Z.to_nat (Z.of_nat len + i))
       else None.

(** [l[i]]: [IndexError] outside the range. *)
Definition py_getitem {A} (l : list A) (i : Z) : result A :=
  j ← or_raise (py_position (length l) i) IndexError;
  or_raise (l !! j) IndexError.

Definition get_param_dict (e : GPEmulator) (point_number : Z)
  : result (gmap string f64) :=
  for_each (λ param model_dict,
      en ← py_getitem (arxiv e) point_number;
      v ← or_raise (e_scalars en !! param) (KeyError param);
      mret (<[param := v]> model_dict))
    (paramList e) ∅.

(** [np.argwhere(mask)] for a one-dimensional mask: the indices of its
    true entries, in increasing order. *)
Fixpoint argwhere_from (i : nat) (mask : list bool) : list nat :=
  match mask with
  | [] => []
  | b :: mask' => (if b then [i] else []) ++ argwhere_from (S i) mask'
  end.
Definition argwhere (mask : list bool) : list nat := argwhere_from 0 mask.

(** [int(np.max(a))] of an array of indices: [ValueError] when it is
    empty. *)
Definition np_max_index (a : list nat) : result nat :=
  match a with
  | [] => Raise ValueError
  | i :: a' => Ok (fold_left Nat.max a' i)
  end.

(** The arguments of [GPEmulator.__init__]. *)
Record InitArgs : Type := MkInitArgs {
  a_basedir : string;
  a_p1d_label : option string;
  a_skewers_label : option string;
  a_max_arxiv_size : option nat;
  a_verbose : bool;
  a_kmax_Mpc : R;
  a_paramList : option (list string);
  a_train : bool;
  a_drop_tau_rescalings : bool;
  a_drop_temp_rescalings : bool;
  a_keep_every_other_rescaling : bool;
  a_undersample_z : Z;
  a_emu_type : string;
  a_z_max : R;
  a_z_list : option (list R);
  a_passArxiv : option (list entry);
  a_set_noise_var : R;
  a_asymmetric_kernel : bool;
  a_checkHulls : bool;
  a_set_hyperparams : option (list f64);
  a_paramLimits : option (list (f64 * f64))
}.

(** What the constructor calls besides [Libraries]: the reader of the
    archive of module [p1d_arxiv], and the constructor of scipy's
    [Delaunay], of which only the exception it may raise matters here. *)
Class Construction : Type := {
  ArxivP1D : InitArgs → result (list entry);
  Delaunay_raises : ndarray2 → option exn
}.

(** The parameters an emulator takes when [paramList] is [None]. *)
Definition default_paramList : list string :=
  ["mF"; "Delta2_p"; "alpha_p"; "sigT_Mpc"; "f_p"; "n_p"; "gamma"; "kF_Mpc"].

(** The value of the attributes that [__init__] has not assigned yet. *)
Definition unset_grid : ndarray2 := Ndarray2 0 [].
Definition unset_gp : GPRegression :=
  MkGP unset_grid [] (Linear 0 false) (Fin 0) false true [].

(** The attributes that [__init__] has assigned by the time it calls
    [_build_interp]; [trained], [checkHulls] and [hull], which it assigns
    later, are read by no method it calls before. *)
Definition fresh_config (a : InitArgs) (custom : bool) (entry0 : entry)
    (k_bin : nat) : Config := {|
  kmax_Mpc := a_kmax_Mpc a; basedir := a_basedir a;
  emu_type := a_emu_type a; emu_noise := a_set_noise_var a;
  max_arxiv_size := a_max_arxiv_size a;
  drop_tau_rescalings := a_drop_tau_rescalings a;
  drop_temp_rescalings := a_drop_temp_rescalings a;
  keep_every_other_rescaling := a_keep_every_other_rescaling a;
  undersample_z := a_undersample_z a; verbose := a_verbose a;
  asymmetric_kernel := a_asymmetric_kernel a; z_max := a_z_max a;
  custom_arxiv := custom; k_bin := k_bin;
  training_k_bins := take k_bin (e_k_Mpc entry0);
  paramList := default default_paramList (a_paramList a);
  checkHulls := a_checkHulls a
|}.

Definition fresh_self (a : InitArgs) (custom : bool) (data : list entry)
    (entry0 : entry) (k_bin : nat) : GPEmulator :=
  MkGPEmulator (fresh_config a custom entry0 k_bin) (a_paramLimits a) false
               data unset_grid [] unset_gp false unset_grid.

Section Construction.
Context `{Libraries} `{Construction}.

(** [__init__]: the object it returns, what it prints and calls on the
    way, or the exception that ends it. *)
Definition __init__ (a : InitArgs) : Out GPEmulator :=
  '(custom, data) ←
    match a_passArxiv a with
    | None => data ← out (ArxivP1D a); mret (false, data)
    | Some data =>
        say_when (a_verbose a)
          "Loading emulator using a specific arxiv, not the one set in basedir";;
        mret (true, data)
    end;
  entry0 ← out (or_raise (data !! 0%nat) IndexError);
  k_bin ← out (np_max_index
                 (argwhere (map (λ k, F64.ltb k (Fin (a_kmax_Mpc a)))
                                (e_k_Mpc entry0))));
  let '(t, w, r) :=
    (_build_interp;;
     update_self (set_trained false);;
     (if a_train a then train else mret tt);;
     e ← get_self;
     lift (match Delaunay_raises (X_param_grid e) with
           | Some ex => Raise ex
           | None => Ok tt
           end);;
     update_self (set_hull (X_param_grid e)))
      (World (fresh_self a custom data entry0 k_bin) ∅) in
  (t, (λ _, self w) <$> r).

End Construction.

(** The archive the constructor takes, and whether it was passed. *)
Definition archive_of `{Construction} (a : InitArgs) (custom : bool)
    (data : list entry) : Prop :=
  match a_passArxiv a with
  | Some d => d = data ∧ custom = true
  | None => ArxivP1D a = Ok data ∧ custom = false
  end.

(** The mask [k_Mpc < kmax_Mpc] over the wavenumbers of an entry. *)
Definition below_kmax (a : InitArgs) (en : entry) : list bool :=
  map (λ k, F64.ltb k (Fin (a_kmax_Mpc a))) (e_k_Mpc en).

(** The object that [train] leaves. *)
Definition optimised `{Libraries} (e : GPEmulator) : GPEmulator :=
  let g := set_gp_initialized true (gp e) in
  set_trained true (set_gp (set_gp_param_array (GPy_optimize g) g) e).

(** What the constructor makes of the object that [_build_interp] has
    built: not trained, then trained when asked to, then with the hull of
    the stored grid. *)
Definition finished `{Libraries} (a : InitArgs) (e : GPEmulator)
  : GPEmulator :=
  let e := set_trained false e in
  let e := if a_train a then optimised e else e in
  set_hull (X_param_grid e) e.

(** The attributes of an emulator fit together: there is a pair of limits
    per parameter, the grid has a column per parameter and a row per entry
    of the archive, the Gaussian process holds this grid and a row of
    targets per entry, with a target per scale factor. *)
Record consistent (e : GPEmulator) : Prop := {
  cons_limits : ∃ limits, paramLimits e = Some limits ∧
                          length limits = length (paramList e);
  cons_grid_shape : well_shaped (X_param_grid e);
  cons_grid_cols : nd_cols (X_param_grid e) = length (paramList e);
  cons_grid_rows : length (nd_rows (X_param_grid e)) = length (arxiv e);
  cons_gp_X : gp_X (gp e) = X_param_grid e;
  cons_gp_Y_rows : length (gp_Y (gp e)) = length (arxiv e);
  cons_gp_Y_cols :
    Forall (λ row, length row = length (scalefactors e)) (gp_Y (gp e))
}.

(** The attributes that training, saving and loading have no business
    with. *)
Definition same_training_data (e e' : GPEmulator) : Prop :=
  config e' = config e ∧ paramLimits e' = paramLimits e ∧
  crossval e' = crossval e ∧ arxiv e' = arxiv e ∧
  X_param_grid e' = X_param_grid e ∧ scalefactors e' = scalefactors e ∧
  hull e' = hull e ∧
  gp_X (gp e') = gp_X (gp e) ∧ gp_Y (gp e') = gp_Y (gp e) ∧
  gp_kernel (gp e') = gp_kernel (gp e) ∧
  gp_noise_var (gp e') = gp_noise_var (gp e).

(* ===================================================================== *)
(** ** A reader of archives and arguments of the constructor *)
(* ===================================================================== *)

(** A reader that finds the example archive under ["sims"] and an empty
    archive elsewhere, and a triangulation that takes any grid. *)
#[global] Instance example_construction : Construction := {|
  ArxivP1D a := Ok (if decide (a_basedir a = "sims") then example_arxiv
                    else []);
  Delaunay_raises _ := None
|}.

(** [GPEmulator(basedir="sims", paramList=["mF","Delta2_p"], train=True)]
    and what the other arguments default to. *)
Definition example_args : InitArgs := {|
  a_basedir := "sims"; a_p1d_label := None; a_skewers_label := None;
  a_max_arxiv_size := None; a_verbose := false; a_kmax_Mpc := 10;
  a_paramList := Some ["mF"; "Delta2_p"]; a_train := true;
  a_drop_tau_rescalings := false; a_drop_temp_rescalings := false;
  a_keep_every_other_rescaling := false; a_undersample_z := 1;
  a_emu_type := "k_bin"; a_z_max := 5; a_z_list := None;
  a_passArxiv := None; a_set_noise_var := 1 / 1000;
  a_asymmetric_kernel := false; a_checkHulls := false;
  a_set_hyperparams := None; a_paramLimits := None
|}.

(** The same call with [passArxiv] set to the example archive, to an empty
    archive, and with [kmax_Mpc=0.5], below every wavenumber. *)
Definition with_passArxiv (data : list entry) (a : InitArgs) : InitArgs :=
  MkInitArgs (a_basedir a) (a_p1d_label a) (a_skewers_label a)
    (a_max_arxiv_size a) (a_verbose a) (a_kmax_Mpc a) (a_paramList a)
    (a_train a) (a_drop_tau_rescalings a) (a_drop_temp_rescalings a)
    (a_keep_every_other_rescaling a) (a_undersample_z a) (a_emu_type a)
    (a_z_max a) (a_z_list a) (Some data) (a_set_noise_var a)
    (a_asymmetric_kernel a) (a_checkHulls a) (a_set_hyperparams a)
    (a_paramLimits a).

Definition with_kmax_Mpc (kmax : R) (a : InitArgs) : InitArgs :=
  MkInitArgs (a_basedir a) (a_p1d_label a) (a_skewers_label a)
    (a_max_arxiv_size a) (a_verbose a) kmax (a_paramList a)
    (a_train a) (a_drop_tau_rescalings a) (a_drop_temp_rescalings a)
    (a_keep_every_other_rescaling a) (a_undersample_z a) (a_emu_type a)
    (a_z_max a) (a_z_list a) (a_passArxiv a) (a_set_noise_var a)
    (a_asymmetric_kernel a) (a_checkHulls a) (a_set_hyperparams a)
    (a_paramLimits a).

(** An emulator with the configuration of [example_trained] that is built
    and not trained, and files in which a file that is not JSON comes
    before the saved emulator. *)
Definition example_trained_loader : GPEmulator :=
  MkGPEmulator example_config (paramLimits example_loader)
    (crossval example_loader) (arxiv example_loader)
    (X_param_grid example_loader) (scalefactors example_loader)
    (gp example_loader) false (hull example_loader).

Definition example_unreadable : gmap string file :=
  <["sims/saved_emulator_1.json" := OtherFile]>
    (<["sims/saved_emulator_2.json"
       := JsonFile (JInitParams (init_params example_trained))]> ∅).

(** Files in which a file of [np.save] has the name of the first
    dictionary. *)
Definition example_binary : gmap string file :=
  <["sims/saved_emulator_1.json" := NpyFile [Fin 1]]>
    (<["sims/saved_emulator_2.json"
       := JsonFile (JInitParams (init_params example_trained))]> ∅).

(** The emulator [example_loader], which has [drop_tau_rescalings=False],
    once it is trained. *)
Definition example_loader_trained : GPEmulator := optimised example_loader.

(** The files of [example_saved] and hyperparameters left under the
    suffix 2 without their dictionary. *)
Definition example_orphan : gmap string file :=
  <["sims/saved_emulator_2.npy" := NpyFile [Fin 9]]> example_saved.


Definition with_emu_type (emu_type : string) (a : InitArgs) : InitArgs :=
  MkInitArgs (a_basedir a) (a_p1d_label a) (a_skewers_label a)
    (a_max_arxiv_size a) (a_verbose a) (a_kmax_Mpc a) (a_paramList a)
    (a_train a) (a_drop_tau_rescalings a) (a_drop_temp_rescalings a)
    (a_keep_every_other_rescaling a) (a_undersample_z a) emu_type
    (a_z_max a) (a_z_list a) (a_passArxiv a) (a_set_noise_var a)
    (a_asymmetric_kernel a) (a_checkHulls a) (a_set_hyperparams a)
    (a_paramLimits a).

(** The object before [_build_interp] with limits given by the caller:
    the pair for mF is wider than the archive, and in [short_limits_new]
    the pair for Delta2_p is missing. *)
Definition given_limits_new : GPEmulator :=
  set_paramLimits (Some [(Fin 0, Fin 4); (Fin 2, Fin 4)]) example_new.

Definition short_limits_new : GPEmulator :=
  set_paramLimits (Some [(Fin 0, Fin 4)]) example_new.

(** The row of targets that [_training_points_k_bin] makes of the measured
    power of an entry: its first [k_bin] values, or its only value
    repeated. *)
Definition k_bin_row (k_bin : nat) (en : entry) : list f64 :=
  if decide (k_bin ≤ length (e_p1d_Mpc en))%nat
  then take k_bin (e_p1d_Mpc en)
  else replicate k_bin (default NaN (head (e_p1d_Mpc en))).

(** An archive in which the second snapshot has two values of the power,
    for three wavenumbers asked for. *)
Definition short_spectrum_new : GPEmulator :=
  MkGPEmulator
    (MkConfig 25 "sims" "k_bin" (1 / 1000) None true false false 1 false
              false 5 false 3 [Fin 1; Fin 2; Fin 20] ["mF"; "Delta2_p"] true)
    None false
    [example_entry 1 4 10 20;
     Entry (<["mF" := Fin 3]> (<["Delta2_p" := Fin 2]> ∅))
           [Fin 1; Fin 2; Fin 20] [Fin 30; Fin 60] None]
    (Ndarray2 0 []) [] empty_gp false (Ndarray2 0 []).

(* ===================================================================== *)
(** ** GPEmulator.emulate_p1d_Mpc *)
(* ===================================================================== *)

Module GP.

(** The wavenumbers asked for, and what is computed from them: a number
    or a one-dimensional array. *)
Inductive scalar_or_array : Type :=
| Scalar (x : f64)
| Array1 (xs : list f64).

(** What [emulate_p1d_Mpc] may raise: an exception of the other methods,
    or the [UnboundLocalError] of a local variable read before it is
    assigned. *)
Inductive raised : Type :=
| Builtin (e : exn)
| UnboundLocalError (name : string).

Inductive outcome (A : Type) : Type :=
| Returns (a : A)
| Raises (r : raised).
Arguments Returns {A} a.
Arguments Raises {A} r.

(** What the method returns: the power, or the power and its
    covariance. *)
Inductive emulated : Type :=
| Spectrum (P : scalar_or_array)
| SpectrumCovar (P : scalar_or_array) (covar : list (list f64)).

Definition Run (A : Type) : Type := world → list event * world * outcome A.

#[global] Instance Run_ret : MRet Run := λ A a w, ([], w, Returns a).
#[global] Instance Run_bind : MBind Run := λ A B f m w,
  match m w with
  | (t, w', Returns a) => let '(t', w'', r) := f a w' in (t ++ t', w'', r)
  | (t, w', Raises e) => (t, w', Raises e)
  end.

(** A method of the object, called from this one. *)
Definition run {A} (m : Py A) : Run A := λ w,
  let '(t, w', r) := m w in
  (t, w', match r with Ok a => Returns a | Raise e => Raises (Builtin e) end).

Definition raise {A} (r : raised) : Run A := λ w, ([], w, Raises r).

(** [try: m except: h], with the bare [except] of the source, which
    catches every exception. *)
Definition try_except (m h : Run unit) : Run unit := λ w,
  match m w with
  | (t, w', Raises _) => let '(t', w'', r) := h w' in (t ++ t', w'', r)
  | returned => returned
  end.

(** What the method calls and the modelled files do not define:
    [str] of a float as [print] shows it, the truth value of an empty
    array of booleans (which depends on the version of numpy),
    scipy's [interp1d(x, y, "cubic")], whose constructor and whose call
    may raise, and numpy's [poly1d(c)(x)], [exp] and [log] on a number. *)
Class Interpolation : Type := {
  str_float : f64 → string;
  truth_of_empty_array : result bool;
  interp1d_cubic : list f64 → list f64 →
                   result (scalar_or_array → result scalar_or_array);
  np_polyval : list f64 → f64 → f64;
  np_exp : f64 → f64;
  np_log : f64 → f64
}.

(** Python's [max] of the argument: a number is not iterable. *)
Definition py_max_of (k : scalar_or_array) : result f64 :=
  match k with
  | Scalar _ => Raise TypeError
  | Array1 xs => py_max xs
  end.

(** A function of numpy applied to a number or to every entry. *)
Definition elementwise (f : f64 → f64) (x : scalar_or_array)
  : scalar_or_array :=
  match x with
  | Scalar v => Scalar (f v)
  | Array1 vs => Array1 (map f vs)
  end.

Definition flat (x : scalar_or_array) : list f64 :=
  match x with
  | Scalar v => [v]
  | Array1 vs => vs
  end.

(** [np.outer(a, b)] *)
Definition np_outer (a b : scalar_or_array) : list (list f64) :=
  map (λ x, map (F64.mul x) (flat b)) (flat a).

(** [np.abs] of a number *)
Definition np_abs (a : f64) : f64 :=
  match a with
  | Fin x => Fin (Rabs x)
  | PInf | NInf => PInf
  | NaN => NaN
  end.

(** [x**n] for a small integer [n], by repeated multiplication. *)
Fixpoint power (x : f64) (n : nat) : f64 :=
  match n with
  | O => Fin 1
  | 1%nat => x
  | S n' => (x * power x n')%f64
  end.

Section Emulate.
Context `{Libraries} `{Interpolation}.

(** The truth value of an array of booleans. *)
Definition truth (b : list bool) : result bool :=
  match b with
  | [] => truth_of_empty_array
  | [x] => Ok x
  | _ => Raise ValueError
  end.

(** [k_Mpc > b], as the condition of an [if]. *)
Definition above (k_Mpc : scalar_or_array) (b : f64) : result bool :=
  match k_Mpc with
  | Scalar k => Ok (F64.gtb k b)
  | Array1 ks => truth (map (λ k, F64.gtb k b) ks)
  end.

(** The three [print]s of the warning; the first two call [max] again. *)
Definition print_warning (k_Mpc : scalar_or_array) : Run unit :=
  e ← run get_self;
  a ← run (lift (py_max_of k_Mpc));
  run (print (str_float a));;
  b ← run (lift (py_max (training_k_bins e)));
  run (print (str_float b));;
  run (print
    "Warning! Your requested k bins are higher than the training values.").

(** The [try] and [except] blocks at the start of the method. *)
Definition check_k_bins (k_Mpc : scalar_or_array) : Run unit :=
  e ← run get_self;
  try_except
    (a ← run (lift (py_max_of k_Mpc));
     b ← run (lift (py_max (training_k_bins e)));
     if F64.gtb a b then print_warning k_Mpc else mret tt)
    (b ← run (lift (py_max (training_k_bins e)));
     c ← run (lift (above k_Mpc b));
     if c then print_warning k_Mpc else mret tt).

Definition emulate_p1d_Mpc (m : model) (k_Mpc : scalar_or_array)
    (return_covar : bool) : Run emulated :=
  check_k_bins k_Mpc;;
  prediction ← run (predict m);
  '(pred, err) ← match prediction with
                 | Some p => mret p
                 | None => raise (Builtin TypeError)
                 end;
  e ← run get_self;
  if decide (emu_type e = "k_bin") then
    interpolator ← run (lift (interp1d_cubic (training_k_bins e) pred));
    interpolated_P ← run (lift (interpolator k_Mpc));
    if return_covar then
      error_interp ← run (lift (interp1d_cubic (training_k_bins e) err));
      error ← run (lift (error_interp k_Mpc));
      mret (SpectrumCovar interpolated_P (np_outer error error))
    else mret (Spectrum interpolated_P)
  else if decide (emu_type e = "polyfit") then
    let err := map np_abs err in
    let interpolated_P :=
      elementwise (λ k, np_exp (np_polyval pred (np_log k))) k_Mpc in
    e0 ← run (lift (or_raise (err !! 0%nat) IndexError));
    e1 ← run (lift (or_raise (err !! 1%nat) IndexError));
    e2 ← run (lift (or_raise (err !! 2%nat) IndexError));
    e3 ← run (lift (or_raise (err !! 3%nat) IndexError));
    let err :=
      elementwise (λ p, e0 * power p 4 + e1 * power p 3 + e2 * power p 2
                        + e3 * p)%f64 interpolated_P in
    let covar := np_outer err err in
    if return_covar then mret (SpectrumCovar interpolated_P covar)
    else mret (Spectrum interpolated_P)
  else raise (UnboundLocalError "interpolated_P").

End Emulate.

(** Library functions to run the method on concrete inputs: an
    interpolator that returns the wavenumbers it is asked for. *)
#[global] Instance example_interpolation : Interpolation := {|
  str_float _ := "%f";
  truth_of_empty_array := Ok false;
  interp1d_cubic _ _ := Ok (λ k, Ok k);
  np_polyval _ x := x;
  np_exp x := x;
  np_log x := x
|}.

(** A trained emulator whose archive has only its first wavenumber below
    [kmax_Mpc]: [k_bin] is 0 and there is no training wavenumber. *)
Definition example_no_bins : GPEmulator :=
  MkGPEmulator
    (MkConfig (3 / 2) "sims" "k_bin" (1 / 1000) None true false false 1
              false false 5 false 0 [] ["mF"; "Delta2_p"] true)
    (paramLimits example_trained) false example_arxiv example_unit_grid []
    (MkGP example_unit_grid [[]; []; []]
          (KAdd (Linear 2 false) (RBF 2 false)) (Fin (1 / 1000)) true true
          [Fin 2; Fin 3; Fin 5])
    true example_unit_grid.

End GP.

(* ===================================================================== *)
(** ** Facts about the monads and the loops *)
(* ===================================================================== *)

Lemma bind_Ok {A B} (m : result A) (f : A → result B) (b : B) :
  bind_first m f = Ok b ↔ ∃ a, m = Ok a ∧ f a = Ok b.
Proof.
  destruct m as [a|e]; cbn; split.
  - eauto.
  - by intros (a' & [= ->] & ?).
  - done.
  - by intros (? & ? & ?).
Qed.

Lemma mapM_Ok_Forall2 {A B} (f : A → result B) (l : list A) (k : list B) :
  mapM f l = Ok k ↔ Forall2 (λ x y, f x = Ok y) l k.
Proof.
  revert k. induction l as [|x l IH]; intros k; cbn.
  - split; [intros [= <-]; constructor | by inversion 1].
  - split.
    + destruct (f x) as [y|] eqn:Hx; cbn; [|done].
      destruct (mapM f l) as [k'|] eqn:Hl; cbn; [|done].
      intros [= <-]. constructor; [done|]. by apply IH.
    + inversion 1 as [|? y ? k' Hx Hl]; subst. rewrite Hx. cbn.
      apply IH in Hl. rewrite Hl. done.
Qed.

Lemma mapM_Ok_map {A B} (f : A → result B) (g : A → B) (l : list A) :
  (∀ x, x ∈ l → f x = Ok (g x)) → mapM f l = Ok (map g l).
Proof.
  intros Hf. apply mapM_Ok_Forall2.
  induction l as [|x l IH]; cbn; constructor.
  - apply Hf. left.
  - apply IH. intros y Hy. apply Hf. by right.
Qed.

Lemma mapM_Ok_length {A B} (f : A → result B) (l : list A) (k : list B) :
  mapM f l = Ok k → length k = length l.
Proof. intros Hm%mapM_Ok_Forall2. symmetry. by eapply Forall2_length. Qed.

Lemma mapM_Ok_lookup {A B} (f : A → result B) l k i x :
  mapM f l = Ok k → l !! i = Some x → ∃ y, k !! i = Some y ∧ f x = Ok y.
Proof.
  intros Hm%mapM_Ok_Forall2 Hi.
  destruct (Forall2_lookup_l _ _ _ _ _ Hm Hi) as (y & ? & ?). eauto.
Qed.

(** A loop that replaces, for each index in turn, the entry at that index
    by a function of it computes the indexed map of the list. *)
Lemma for_each_update_from {A} (e : exn) (f : nat → A → result A)
    (body : nat → list A → result (list A)) (done todo : list A) :
  (∀ i s, body i s =
     (x ← or_raise (s !! i) e; y ← f i x; mret (<[i := y]> s))) →
  for_each body (seq (length done) (length todo)) (done ++ todo)
  = (app done) <$> mapM (λ '(i, x), f i x)
                        (zip (seq (length done) (length todo)) todo).
Proof.
  intros Hbody. revert done.
  induction todo as [|x todo IH]; intros done; cbn.
  - by rewrite app_nil_r.
  - rewrite Hbody. rewrite list_lookup_middle by done. cbn.
    destruct (f (length done) x) as [y|err]; cbn; [|done].
    replace (<[length done := y]> (done ++ x :: todo))
      with ((done ++ [y]) ++ todo).
    2:{ rewrite <- app_assoc. cbn. symmetry.
        rewrite insert_app_r_alt by lia.
        by rewrite Nat.sub_diag. }
    specialize (IH (done ++ [y])).
    rewrite length_app in IH. cbn in IH.
    replace (length done + 1)%nat with (S (length done)) in IH by lia.
    rewrite IH.
    destruct (mapM _ _) as [k|]; cbn; [|done].
    by rewrite <- app_assoc.
Qed.

Lemma for_each_update {A} (e : exn) (f : nat → A → result A)
    (body : nat → list A → result (list A)) (l : list A) :
  (∀ i s, body i s =
     (x ← or_raise (s !! i) e; y ← f i x; mret (<[i := y]> s))) →
  for_each body (range (length l)) l
  = mapM (λ '(i, x), f i x) (enumerate l).
Proof.
  intros Hbody.
  pose proof (for_each_update_from e f body [] l Hbody) as Hl.
  cbn in Hl. unfold range, enumerate, range. rewrite Hl.
  by destruct (mapM _ _).
Qed.

Lemma Py_bind_run {A B} (m : Py A) (f : A → Py B) w t1 w1 a t2 w2 r :
  m w = (t1, w1, Ok a) → f a w1 = (t2, w2, r) →
  bind_first m f w = (t1 ++ t2, w2, r).
Proof.
  intros Hm Hf. unfold bind_first, mbind, Py_bind. by rewrite Hm, Hf.
Qed.

Lemma Py_bind_raise {A B} (m : Py A) (f : A → Py B) w t1 w1 e :
  m w = (t1, w1, Raise e) → bind_first m f w = (t1, w1, Raise e).
Proof. intros Hm. unfold bind_first, mbind, Py_bind. by rewrite Hm. Qed.

Lemma Py_bind_Ok_inv {A B} (m : Py A) (f : A → Py B) w t w' b :
  bind_first m f w = (t, w', Ok b) →
  ∃ t1 w1 a t2,
    m w = (t1, w1, Ok a) ∧ f a w1 = (t2, w', Ok b) ∧ t = t1 ++ t2.
Proof.
  unfold bind_first, mbind, Py_bind.
  destruct (m w) as [[t1 w1] [a|e]]; [|done].
  destruct (f a w1) as [[t2 w2] r] eqn:Hf.
  intros [= <- <- ->]. by exists t1, w1, a, t2.
Qed.

Lemma lift_Ok_inv {A} (r : result A) w t w' a :
  lift r w = (t, w', Ok a) → r = Ok a ∧ t = [] ∧ w' = w.
Proof. unfold lift. by intros [= <- <- ->]. Qed.

(** Inversion of a run that returned: one step of [py_inv] splits the
    first bind, or resolves a primitive. *)
Ltac py_inv_step :=
  match goal with
  | Hrun : bind_first _ _ _ = (_, _, Ok _) |- _ =>
      let t1 := fresh "t" in let w1 := fresh "w" in
      let a := fresh "a" in let t2 := fresh "t" in
      let H1 := fresh "Hrun" in let H2 := fresh "Hrun" in
      apply Py_bind_Ok_inv in Hrun as (t1 & w1 & a & t2 & H1 & H2 & ->)
  | Hrun : get_self _ = (_, _, Ok _) |- _ =>
      unfold get_self in Hrun; injection Hrun as <- <- <-
  | Hrun : get_fs _ = (_, _, Ok _) |- _ =>
      unfold get_fs in Hrun; injection Hrun as <- <- <-
  | Hrun : lift _ _ = (_, _, Ok _) |- _ =>
      apply lift_Ok_inv in Hrun as (Hrun & -> & ->)
  | Hrun : update_self _ _ = (_, _, Ok _) |- _ =>
      unfold update_self in Hrun; injection Hrun as <- <-
  | Hrun : mret _ _ = (_, _, Ok _) |- _ =>
      unfold mret, Py_ret in Hrun; injection Hrun as <- <- <-
  | Hrun : print _ _ = (_, _, Ok _) |- _ =>
      unfold print, emit in Hrun; injection Hrun as <- <-
  | Hrun : emit _ _ = (_, _, Ok _) |- _ =>
      unfold emit in Hrun; injection Hrun as <- <-
  end.
Ltac py_inv := repeat py_inv_step.

(** Evaluation on concrete numbers: the comparisons of reals are decided
    by [lra]. *)
Ltac R_decide_step :=
  match goal with
  | |- context [bool_decide ?P] =>
      first [ rewrite (bool_decide_eq_true_2 P) by lra
            | rewrite (bool_decide_eq_false_2 P) by lra ]
  | |- context [decide ?P] => destruct (decide P); [try lra|try lra]
  | |- context [Req_dec_T ?a ?b] => destruct (Req_dec_T a b); [try lra|try lra]
  | |- context [Rlt_dec ?a ?b] => destruct (Rlt_dec a b); [try lra|try lra]
  | |- context [Rle_dec ?a ?b] => destruct (Rle_dec a b); [try lra|try lra]
  end.
Ltac R_decide := repeat (R_decide_step; cbn).

(** Equations between concrete reals. *)
Ltac R_close := first [ lra | field; lra | nra ].

(* ===================================================================== *)
(** ** Limits and rescaling *)
(* ===================================================================== *)

Section Rescaling.
Context `{Libraries}.
Local Open Scope R_scope.

Lemma Rfold_min_spec (l : list R) (x : R) :
  (Rfold_min x l = x ∨ Rfold_min x l ∈ l) ∧
  Rfold_min x l <= x ∧ ∀ y, y ∈ l → Rfold_min x l <= y.
Proof.
  unfold Rfold_min. revert x.
  induction l as [|y l IH]; intros x; cbn.
  - split; [by left|]. split; [lra|]. by inversion 1.
  - case_decide as Hlt.
    + destruct (IH y) as ([Hm|Hm] & Hle & Hall).
      * split; [right; rewrite Hm; left|]. split; [lra|].
        intros z [->|Hz]%elem_of_cons; [lra|by apply Hall].
      * split; [by right; right|]. split; [lra|].
        intros z [->|Hz]%elem_of_cons; [lra|by apply Hall].
    + destruct (IH x) as ([Hm|Hm] & Hle & Hall).
      * split; [by left|]. split; [lra|].
        intros z [->|Hz]%elem_of_cons; [lra|by apply Hall].
      * split; [by right; right|]. split; [lra|].
        intros z [->|Hz]%elem_of_cons; [lra|by apply Hall].
Qed.

Lemma Rfold_max_spec (l : list R) (x : R) :
  (Rfold_max x l = x ∨ Rfold_max x l ∈ l) ∧
  x <= Rfold_max x l ∧ ∀ y, y ∈ l → y <= Rfold_max x l.
Proof.
  unfold Rfold_max. revert x.
  induction l as [|y l IH]; intros x; cbn.
  - split; [by left|]. split; [lra|]. by inversion 1.
  - case_decide as Hlt.
    + destruct (IH y) as ([Hm|Hm] & Hle & Hall).
      * split; [right; rewrite Hm; left|]. split; [lra|].
        intros z [->|Hz]%elem_of_cons; [lra|by apply Hall].
      * split; [by right; right|]. split; [lra|].
        intros z [->|Hz]%elem_of_cons; [lra|by apply Hall].
    + destruct (IH x) as ([Hm|Hm] & Hle & Hall).
      * split; [by left|]. split; [lra|].
        intros z [->|Hz]%elem_of_cons; [lra|by apply Hall].
      * split; [by right; right|]. split; [lra|].
        intros z [->|Hz]%elem_of_cons; [lra|by apply Hall].
Qed.

Lemma py_min_fin (x : R) (l : list R) :
  py_min (map Fin (x :: l)) = Ok (Fin (Rfold_min x l)).
Proof.
  cbn. f_equal. unfold Rfold_min. revert x.
  induction l as [|y l IH]; intros x; cbn; [done|].
  rewrite <- IH. f_equal. unfold bool_decide. by destruct (decide_rel _ _ _).
Qed.

Lemma py_max_fin (x : R) (l : list R) :
  py_max (map Fin (x :: l)) = Ok (Fin (Rfold_max x l)).
Proof.
  cbn. f_equal. unfold Rfold_max. revert x.
  induction l as [|y l IH]; intros x; cbn; [done|].
  rewrite <- IH. f_equal. unfold bool_decide. by destruct (decide_rel _ _ _).
Qed.

(** The limits of a non-empty column bound it and belong to it. *)
Lemma Rlimits_spec (c : list R) :
  c ≠ [] →
  (Rlimits c).1 ∈ c ∧ (Rlimits c).2 ∈ c ∧
  ∀ y, y ∈ c → (Rlimits c).1 <= y <= (Rlimits c).2.
Proof.
  destruct c as [|x l]; [done|]. intros _. cbn.
  destruct (Rfold_min_spec l x) as (Hin & Hx & Hall).
  destruct (Rfold_max_spec l x) as (Hin' & Hx' & Hall').
  split; [destruct Hin as [->|]; [left|by right]|].
  split; [destruct Hin' as [->|]; [left|by right]|].
  intros y [->|Hy]%elem_of_cons; [lra|].
  split; [by apply Hall|by apply Hall'].
Qed.

Lemma column_fin (d j : nat) (G : list (list R)) :
  Forall (λ row, length row = d) G → (j < d)%nat →
  column j (Ndarray2 d (fin_rows G)) = Ok (map Fin (Rcolumn j G)).
Proof.
  intros Hshape Hj. unfold column, fin_rows, Rcolumn. cbn.
  rewrite !map_map. apply mapM_Ok_Forall2.
  induction Hshape as [|row G Hrow _ IH]; cbn; constructor; [|done].
  rewrite list_lookup_fmap.
  destruct (nth_lookup_or_length row j 0) as [->|]; [done|lia].
Qed.

Lemma _get_param_limits_fin (d : nat) (G : list (list R)) :
  Forall (λ row, length row = d) G → d = 0%nat ∨ G ≠ [] →
  _get_param_limits (Ndarray2 d (fin_rows G))
  = Ok (map fin_pair (Rgrid_limits d G)).
Proof.
  intros Hshape Hne. unfold _get_param_limits, Rgrid_limits, range.
  cbn [nd_cols]. rewrite map_map. apply mapM_Ok_map.
  intros j Hj%elem_of_seq.
  rewrite column_fin by (done || lia). cbn.
  destruct Hne as [->|Hne]; [lia|].
  destruct G as [|row G]; [done|].
  change (map Fin (Rcolumn j (row :: G)))
    with (map Fin (nth j row 0 :: Rcolumn j G)).
  rewrite py_min_fin, py_max_fin. done.
Qed.

Lemma _rescale_params_zip (params : list f64) (limits : list (f64 * f64)) :
  (length params ≤ length limits)%nat →
  _rescale_params params limits = Ok (zip_with rescale1 params limits).
Proof.
  intros Hlen. unfold _rescale_params.
  rewrite (for_each_update IndexError
             (λ aa x, lim ← or_raise (limits !! aa) IndexError;
                      mret (rescale1 x lim))).
  2:{ intros i s. cbn. destruct (s !! i); cbn; [|done].
      by destruct (limits !! i). }
  apply mapM_Ok_Forall2. unfold enumerate, range.
  apply Forall2_same_length_lookup_2.
  { rewrite !length_zip_with, length_seq. lia. }
  intros i [j x] y Hjx Hy.
  apply lookup_zip_with_Some in Hjx as (j' & x' & [= <- <-] & Hj & Hx).
  apply lookup_seq in Hj as [-> _]. cbn in Hy |- *.
  apply lookup_zip_with_Some in Hy as (x' & lim & -> & Hx' & Hlim).
  rewrite Hlim. rewrite Hx in Hx'. by injection Hx' as <-.
Qed.

Lemma rescale1_fin (x lo hi : R) :
  lo ≠ hi →
  rescale1 (Fin x) (Fin lo, Fin hi) = Fin (Rrescale x (lo, hi)).
Proof.
  intros Hne. unfold rescale1, Rrescale, F64.div, F64.sub. cbn.
  case_decide; [lra|]. f_equal.
Qed.

(** Zero range: whatever the value, its image is not a finite number. *)
Lemma rescale1_degenerate (x a : f64) :
  F64.is_finite (rescale1 x (a, a)) = false.
Proof.
  unfold rescale1, F64.div, F64.sub, F64.signed_inf.
  destruct x as [x| | |], a as [a| | |]; cbn; try done;
    repeat (case_decide; try done; try lra).
Qed.

Lemma rescale_grid_map (limits : list (f64 * f64)) (rows : list (list f64)) :
  Forall (λ row, length row ≤ length limits)%nat rows →
  rescale_grid (length rows) limits rows
  = Ok (map (λ row, zip_with rescale1 row limits) rows).
Proof.
  intros Hlen. unfold rescale_grid.
  rewrite (for_each_update IndexError
             (λ _ row, _rescale_params row limits)).
  2:{ intros i s. cbn. by destruct (s !! i). }
  apply mapM_Ok_Forall2. unfold enumerate, range.
  apply Forall2_same_length_lookup_2.
  { rewrite !length_zip_with, length_seq, length_map. lia. }
  intros i [j row] row' Hj Hrow'.
  apply lookup_zip_with_Some in Hj as (j' & x' & [= <- <-] & Hj & Hx).
  rewrite list_lookup_fmap, Hx in Hrow'. injection Hrow' as <-.
  apply _rescale_params_zip.
  rewrite Forall_forall in Hlen. apply Hlen.
  by eapply list_elem_of_lookup_2.
Qed.


Lemma assign_row_length (w : nat) (src row : list f64) :
  assign_row w src = Ok row → length row = w.
Proof.
  unfold assign_row. case_decide; [by intros [= <-]|].
  destruct src as [|x [|]]; try done. intros [= <-]. apply length_replicate.
Qed.

Lemma mapM_assign_row_shape {A} (w : nat) (g : A → result (list f64))
    (l : list A) (rows : list (list f64)) :
  mapM (λ x, c ← g x; assign_row w c) l = Ok rows →
  length rows = length l ∧ well_shaped (Ndarray2 w rows).
Proof.
  intros Hm. split; [by eapply mapM_Ok_length|].
  apply mapM_Ok_Forall2 in Hm. unfold well_shaped. cbn.
  induction Hm as [|x row l rows Hx _ IH]; constructor; [|done].
  apply bind_Ok in Hx as (c & _ & Hc). by eapply assign_row_length.
Qed.

Lemma _training_points_inv (w w1 : world) t Y :
  (if decide (emu_type (self w) = "k_bin") then _training_points_k_bin
   else if decide (emu_type (self w) = "polyfit")
        then _training_points_polyfit
        else print "Unknown emulator type, terminating";;
             lift (Raise SystemExit)) w = (t, w1, Ok Y) →
  fs w1 = fs w ∧ config (self w1) = config (self w) ∧
  paramLimits (self w1) = paramLimits (self w) ∧
  length (nd_rows Y) = length (arxiv (self w1)) ∧ well_shaped Y.
Proof.
  intros Hrun. repeat case_decide.
  - unfold _training_points_k_bin in Hrun. py_inv.
    match goal with Hm : mapM _ _ = Ok _ |- _ =>
      apply (mapM_assign_row_shape _ (λ en, Ok (take _ (e_p1d_Mpc en))))
        in Hm as [? ?]
    end.
    done.
  - unfold _training_points_polyfit, _fit_p1d_in_arxiv in Hrun. py_inv.
    cbn in *.
    match goal with Hm : mapM _ (arxiv _) = Ok (nd_rows _) |- _ => idtac
    | Hm : mapM (λ en, bind_first (or_raise _ _) _) _ = Ok _ |- _ =>
      apply (mapM_assign_row_shape _
               (λ en, or_raise (e_fit_p1d en) (KeyError "fit_p1d")))
        in Hm as [? ?]
    end.
    done.
  - py_inv. done.
Qed.

Lemma mapM_mapM_shape {A B C} (g : A → B → result C) (ks : list B)
    (l : list A) (rows : list (list C)) :
  mapM (λ x, mapM (g x) ks) l = Ok rows →
  Forall (λ row, length row = length ks) rows.
Proof.
  intros Hm%mapM_Ok_Forall2.
  induction Hm as [|x row l rows Hrow _ IH]; constructor; [|done].
  by eapply mapM_Ok_length.
Qed.

Lemma _buildTrainingSets_inv (w w1 : world) t X Y :
  _buildTrainingSets w = (t, w1, Ok (X, Y)) →
  fs w1 = fs w ∧ config (self w1) = config (self w) ∧
  paramLimits (self w1) = paramLimits (self w) ∧
  nd_cols X = length (paramList (self w)) ∧
  length (nd_rows X) = length (arxiv (self w1)) ∧
  length (nd_rows Y) = length (arxiv (self w1)) ∧
  well_shaped X ∧ well_shaped Y.
Proof.
  unfold _buildTrainingSets. intros Hrun. py_inv.
  match goal with Hm : mapM _ _ = Ok _ |- _ => rename Hm into Hrows end.
  match goal with Hm : _ w = (_, _, Ok _) |- _ =>
    apply _training_points_inv in Hm as (? & Hcfg & ? & ? & ?)
  end.
  rewrite Hcfg in *. subst. cbn.
  repeat split; try done.
  - by eapply mapM_Ok_length.
  - unfold well_shaped. cbn.
    apply (mapM_mapM_shape
             (λ en par, or_raise (e_scalars en !! par) (KeyError par))
             _ _ _ Hrows).
Qed.

Lemma mapM_returns {A B} (f : A → result B) (l : list A) :
  (∀ x, x ∈ l → ∃ y, f x = Ok y) → ∃ k, mapM f l = Ok k.
Proof.
  induction l as [|x l IH]; intros Hf; cbn; [by eexists|].
  destruct (Hf x) as [y ->]; [left|].
  destruct IH as [k ->]; [intros; apply Hf; by right|].
  by eexists.
Qed.

Lemma column_returns (a : ndarray2) (j : nat) :
  well_shaped a → (j < nd_cols a)%nat → ∃ c, column j a = Ok c.
Proof.
  intros Hshape Hj. apply mapM_returns. intros row Hrow.
  unfold well_shaped in Hshape. rewrite Forall_forall in Hshape.
  destruct (lookup_lt_is_Some_2 row j) as [x ->]; [|by eexists].
  rewrite (Hshape row Hrow). done.
Qed.

(** The medians of a well-shaped array: one per column. *)
Lemma np_median_axis0_returns (a : ndarray2) :
  well_shaped a →
  ∃ sf, np_median_axis0 a = Ok sf ∧ length sf = nd_cols a ∧
    ∀ j, (j < nd_cols a)%nat →
      ∃ c, column j a = Ok c ∧ sf !! j = Some (np_median c).
Proof.
  intros Hshape. unfold np_median_axis0.
  destruct (mapM_returns (λ j, np_median <$> column j a) (range (nd_cols a)))
    as [sf Hsf].
  { intros j Hj%elem_of_seq.
    destruct (column_returns a j) as [c ->]; [done|lia|]. by eexists. }
  exists sf. split; [done|].
  pose proof (mapM_Ok_length _ _ _ Hsf) as Hlen.
  unfold range in Hlen. rewrite length_seq in Hlen. split; [done|].
  intros j Hj.
  destruct (mapM_Ok_lookup _ _ _ j j Hsf) as (m & Hm & Hcol).
  { unfold range. by apply lookup_seq. }
  destruct (column j a) as [c|]; [|done]. cbn in Hcol.
  exists c. split; [done|]. congruence.
Qed.

Lemma broadcast_same_length (op : f64 → f64 → f64) (a b : list f64) :
  length a = length b → broadcast op a b = Ok (zip_with op a b).
Proof. intros Hlen. unfold broadcast. by case_decide. Qed.

(** The normalised spectra [Ypoints/scalefactors - 1]. *)
Lemma normspectra_run (Y : ndarray2) (sf : list f64) :
  well_shaped Y → length sf = nd_cols Y →
  mapM (λ row, q ← broadcast F64.div row sf;
               mret (map (λ y, y - Fin 1)%f64 q)) (nd_rows Y)
  = Ok (map (λ row, zip_with (λ y s, y / s - Fin 1)%f64 row sf) (nd_rows Y)).
Proof.
  intros Hshape Hsf. apply mapM_Ok_map. intros row Hrow.
  unfold well_shaped in Hshape. rewrite Forall_forall in Hshape.
  rewrite broadcast_same_length by (rewrite Hsf; by apply Hshape).
  cbn. f_equal. clear. revert sf.
  induction row as [|y row IH]; intros [|s sf]; cbn; [done..|].
  by rewrite IH.
Qed.

Lemma _build_interp_run (w w1 : world) t1 X Y limits :
  _buildTrainingSets w = (t1, w1, Ok (X, Y)) →
  match paramLimits (self w) with
  | None => _get_param_limits X
  | Some l => Ok l
  end = Ok limits →
  (nd_cols X ≤ length limits)%nat →
  ∃ t sf,
    np_median_axis0 Y = Ok sf ∧
    _build_interp w
    = (t, World (built (self w1) X Y limits sf) (fs w), Ok tt).
Proof.
  intros Hbts Hlim Hlen.
  destruct (_buildTrainingSets_inv _ _ _ _ _ Hbts)
    as (Hfs & Hcfg & HpL & Hcols & HrowsX & HrowsY & HshX & HshY).
  destruct (np_median_axis0_returns Y HshY) as (sf & Hsf & Hsflen & _).
  assert (rescale_grid (length (arxiv (self w1))) limits (nd_rows X)
          = Ok (map (λ row, zip_with rescale1 row limits) (nd_rows X)))
    as Hgrid.
  { rewrite <- HrowsX. apply rescale_grid_map.
    eapply Forall_impl; [exact HshX|]. cbn. intros row ->. done. }
  pose proof (normspectra_run Y sf HshY Hsflen) as Hnorm.
  unfold _build_interp.
  unfold bind_first, mbind, Py_bind in Hnorm |- *. rewrite Hbts.
  cbn [update_self get_self self fs set_X_param_grid paramLimits].
  rewrite HpL.
  destruct (paramLimits (self w)) as [l|] eqn:HL.
  - injection Hlim as ->.
    cbn -[rescale_grid np_median_axis0 mapM broadcast].
    rewrite Hgrid.
    cbn -[rescale_grid np_median_axis0 mapM broadcast].
    destruct (verbose (self w1));
      cbn -[rescale_grid np_median_axis0 mapM broadcast];
      rewrite Hsf; cbn -[rescale_grid np_median_axis0 mapM broadcast];
      rewrite Hnorm; cbn; eexists _, sf;
      (split; [done|]); rewrite Hfs;
      unfold built, set_gp, set_scalefactors, set_X_param_grid; cbn;
      rewrite HpL; reflexivity.
  - cbn -[rescale_grid np_median_axis0 mapM broadcast _get_param_limits].
    rewrite Hlim.
    cbn -[rescale_grid np_median_axis0 mapM broadcast].
    rewrite Hgrid.
    cbn -[rescale_grid np_median_axis0 mapM broadcast].
    destruct (verbose (self w1));
      cbn -[rescale_grid np_median_axis0 mapM broadcast];
      rewrite Hsf; cbn -[rescale_grid np_median_axis0 mapM broadcast];
      rewrite Hnorm; cbn; eexists _, sf;
      (split; [done|]); rewrite Hfs; reflexivity.
Qed.

Lemma Rgrid_limits_lookup (d j : nat) (G : list (list R)) :
  (j < d)%nat → Rgrid_limits d G !! j = Some (Rlimits (Rcolumn j G)).
Proof.
  intros Hj. unfold Rgrid_limits. rewrite list_lookup_fmap.
  by rewrite lookup_seq_lt.
Qed.

Lemma Rcolumn_elem (j : nat) (G : list (list R)) (row : list R) (x : R) :
  row ∈ G → row !! j = Some x → x ∈ Rcolumn j G.
Proof.
  intros Hrow Hx. unfold Rcolumn. apply list_elem_of_fmap.
  exists row. split; [|done]. symmetry. by apply nth_lookup_Some with (d := 0).
Qed.

Lemma Rcolumn_elem_inv (d j : nat) (G : list (list R)) (y : R) :
  Forall (λ row, length row = d) G → (j < d)%nat → y ∈ Rcolumn j G →
  ∃ row, row ∈ G ∧ row !! j = Some y.
Proof.
  intros Hshape Hj (row & -> & Hrow)%list_elem_of_fmap.
  exists row. split; [done|].
  rewrite Forall_forall in Hshape.
  destruct (nth_lookup_or_length row j 0) as [?|?]; [done|].
  rewrite (Hshape row Hrow) in *. lia.
Qed.

(** With two distinct values in a column, its limits differ. *)
Lemma Rlimits_distinct (d j : nat) (G : list (list R)) :
  two_distinct_values d G → (j < d)%nat →
  (Rlimits (Rcolumn j G)).1 < (Rlimits (Rcolumn j G)).2.
Proof.
  intros Hdist Hj.
  destruct (Hdist j Hj) as (r1 & r2 & x1 & x2 & Hr1 & Hr2 & Hx1 & Hx2 & Hne).
  pose proof (Rcolumn_elem j G r1 x1 Hr1 Hx1) as Hc1.
  pose proof (Rcolumn_elem j G r2 x2 Hr2 Hx2) as Hc2.
  destruct (Rlimits_spec (Rcolumn j G)) as (_ & _ & Hb).
  { intros Hnil. rewrite Hnil in Hc1. by apply elem_of_nil in Hc1. }
  pose proof (Hb x1 Hc1). pose proof (Hb x2 Hc2). lra.
Qed.

Lemma Rrescale_bounds (x lo hi : R) :
  lo < hi → lo <= x <= hi → 0 <= Rrescale x (lo, hi) <= 1.
Proof.
  intros Hlt [Hlo Hhi]. unfold Rrescale. cbn. split.
  - apply Rmult_le_pos; [lra|]. left. apply Rinv_0_lt_compat. lra.
  - apply Rmult_le_reg_r with (hi - lo); [lra|].
    unfold Rdiv. rewrite Rmult_assoc, Rinv_l by lra. lra.
Qed.

Lemma Rrescale_lo (lo hi : R) : Rrescale lo (lo, hi) = 0.
Proof. unfold Rrescale. cbn. unfold Rdiv. rewrite Rminus_diag. lra. Qed.

Lemma Rrescale_hi (lo hi : R) : lo < hi → Rrescale hi (lo, hi) = 1.
Proof. intros Hlt. unfold Rrescale. cbn. apply Rdiv_diag. lra. Qed.

(** On a row of finite values and limits that differ, the rescaled row is
    the row of the rescaled reals. *)
Lemma zip_with_rescale1_fin (row : list R) (L : list (R * R)) :
  (∀ j lim, (j < length row)%nat → L !! j = Some lim → lim.1 ≠ lim.2) →
  zip_with rescale1 (map Fin row) (map fin_pair L)
  = map Fin (zip_with Rrescale row L).
Proof.
  revert L. induction row as [|x row IH]; intros [|[lo hi] L] Hne; cbn;
    try done.
  rewrite IH.
  2:{ intros j lim Hj Hlim. apply (Hne (S j)); [cbn; lia|done]. }
  f_equal. unfold fin_pair. cbn. apply rescale1_fin.
  apply (Hne 0%nat (lo, hi)); [cbn; lia|done].
Qed.

End Rescaling.

(* ===================================================================== *)
(** ** Rescaling a query model *)
(* ===================================================================== *)

Section UnitCall.
Context `{Libraries}.

Lemma return_unit_call_loop (m : gmap string f64) (limits : list (f64 * f64))
    (pars : list string) (acc : list f64) :
  has_keys m pars →
  (length acc + length pars ≤ length limits)%nat →
  for_each (λ '(aa, par) param,
      v ← or_raise (m !! par) (KeyError par);
      let param := param ++ [v] in
      x ← or_raise (param !! aa) IndexError;
      lim ← or_raise (limits !! aa) IndexError;
      mret (<[aa := rescale1 x lim]> param))
    (zip (seq (length acc) (length pars)) pars) acc
  = Ok (acc ++ zip_with rescale1 (values m pars) (drop (length acc) limits)).
Proof.
  revert acc. induction pars as [|par pars IH]; intros acc Hkeys Hlen; cbn.
  - by rewrite app_nil_r.
  - apply Forall_cons in Hkeys as [[v Hv] Hkeys]. rewrite Hv. cbn.
    rewrite lookup_app_r by lia. rewrite Nat.sub_diag. cbn.
    cbn in Hlen.
    destruct (lookup_lt_is_Some_2 limits (length acc)) as [lim Hlim]; [lia|].
    rewrite Hlim. cbn.
    rewrite insert_app_r_alt by lia. rewrite Nat.sub_diag. cbn.
    specialize (IH (acc ++ [rescale1 v lim]) Hkeys).
    rewrite length_app in IH. cbn in IH.
    replace (length acc + 1)%nat with (S (length acc)) in IH by lia.
    rewrite IH by lia.
    rewrite <- app_assoc. cbn.
    rewrite (drop_S _ _ _ Hlim). done.
Qed.

(** With every key present and enough limits, the loop returns the
    values of the model, each rescaled with the limits of its index. *)
Lemma return_unit_call_zip (e : GPEmulator) (m : gmap string f64)
    (limits : list (f64 * f64)) :
  paramLimits e = Some limits →
  has_keys m (paramList e) →
  (length (paramList e) ≤ length limits)%nat →
  return_unit_call e m
  = Ok (zip_with rescale1 (values m (paramList e)) limits).
Proof.
  intros HpL Hkeys Hlen. unfold return_unit_call. rewrite HpL.
  apply (return_unit_call_loop m limits (paramList e) [] Hkeys Hlen).
Qed.

(** A missing key is a [KeyError], whatever the limits. *)
Lemma return_unit_call_KeyError_loop (m : gmap string f64)
    (limits : list (f64 * f64)) (pars pars' : list string) (par : string)
    (acc : list f64) :
  has_keys m pars → m !! par = None →
  (length acc + length pars < length limits)%nat →
  for_each (λ '(aa, par) param,
      v ← or_raise (m !! par) (KeyError par);
      let param := param ++ [v] in
      x ← or_raise (param !! aa) IndexError;
      lim ← or_raise (limits !! aa) IndexError;
      mret (<[aa := rescale1 x lim]> param))
    (zip (seq (length acc) (length (pars ++ par :: pars')))
         (pars ++ par :: pars')) acc
  = Raise (KeyError par).
Proof.
  revert acc. induction pars as [|p pars IH]; intros acc Hkeys Hnone Hlen; cbn.
  - by rewrite Hnone.
  - apply Forall_cons in Hkeys as [[v Hv] Hkeys]. rewrite Hv. cbn.
    rewrite lookup_app_r by lia. rewrite Nat.sub_diag. cbn.
    cbn in Hlen.
    destruct (lookup_lt_is_Some_2 limits (length acc)) as [lim Hlim]; [lia|].
    rewrite Hlim. cbn.
    specialize (IH (<[length acc := rescale1 v lim]> (acc ++ [v])) Hkeys Hnone).
    rewrite length_insert, length_app in IH. cbn in IH.
    replace (length acc + 1)%nat with (S (length acc)) in IH by lia.
    apply IH. lia.
Qed.

End UnitCall.

(* ===================================================================== *)
(** ** A parameter with zero range *)
(* ===================================================================== *)

Section ZeroRange.
Context `{Libraries}.

Lemma py_min_returns (l : list f64) : l ≠ [] → ∃ a, py_min l = Ok a.
Proof. destruct l; [done|]. intros _. by eexists. Qed.

Lemma py_max_returns (l : list f64) : l ≠ [] → ∃ a, py_max l = Ok a.
Proof. destruct l; [done|]. intros _. by eexists. Qed.

Lemma column_length (a : ndarray2) (j : nat) (c : list f64) :
  column j a = Ok c → length c = length (nd_rows a).
Proof. apply mapM_Ok_length. Qed.

(** On a well-shaped grid with at least one row the limits exist, one
    pair per column: what [min] and [max] return on the column. *)
Lemma _get_param_limits_returns (X : ndarray2) :
  well_shaped X → nd_rows X ≠ [] →
  ∃ limits, _get_param_limits X = Ok limits ∧
    length limits = nd_cols X ∧
    ∀ j col lo hi, (j < nd_cols X)%nat → column j X = Ok col →
      py_min col = Ok lo → py_max col = Ok hi →
      limits !! j = Some (lo, hi).
Proof.
  intros Hshape Hne. unfold _get_param_limits.
  destruct (mapM_returns
    (λ aa, col ← column aa X; lo ← py_min col; hi ← py_max col;
           mret (lo, hi)) (range (nd_cols X))) as [limits Hlim].
  { intros j Hj%elem_of_seq.
    destruct (column_returns X j Hshape) as [c Hc]; [lia|]. rewrite Hc.
    assert (c ≠ []) as Hcne.
    { intros ->. apply column_length in Hc. cbn in Hc.
      destruct (nd_rows X); [done|]. done. }
    destruct (py_min_returns c Hcne) as [lo Hlo].
    destruct (py_max_returns c Hcne) as [hi Hhi].
    cbn. rewrite Hlo. cbn. rewrite Hhi. by eexists. }
  exists limits. split; [done|].
  pose proof (mapM_Ok_length _ _ _ Hlim) as Hlen.
  unfold range in Hlen. rewrite length_seq in Hlen. split; [done|].
  intros j col lo hi Hj Hcol Hlo Hhi.
  destruct (mapM_Ok_lookup _ _ _ j j Hlim) as (p & Hp & Hj').
  { unfold range. by apply lookup_seq. }
  rewrite Hcol in Hj'. cbn in Hj'. rewrite Hlo in Hj'. cbn in Hj'.
  rewrite Hhi in Hj'. injection Hj' as <-. done.
Qed.

(** Rescaling with a zero-range pair at index [aa] leaves a value that is
    not finite at that index. *)
Lemma zip_with_rescale1_degenerate (vals : list f64)
    (limits : list (f64 * f64)) (aa : nat) (a : f64) :
  (aa < length vals)%nat → limits !! aa = Some (a, a) →
  ∃ y, zip_with rescale1 vals limits !! aa = Some y ∧
       F64.is_finite y = false.
Proof.
  intros Haa Hlim.
  destruct (lookup_lt_is_Some_2 vals aa Haa) as [x Hx].
  exists (rescale1 x (a, a)). split; [|apply rescale1_degenerate].
  apply lookup_zip_with_Some. by exists x, (a, a).
Qed.

(** Construction and queries on a training set with a zero-range column:
    nothing is raised, and the column holds values that are not finite. *)
Lemma zero_range_build (w w1 : world) t1 X Y aa col a :
  paramLimits (self w) = None →
  _buildTrainingSets w = (t1, w1, Ok (X, Y)) →
  nd_rows X ≠ [] → (aa < nd_cols X)%nat →
  column aa X = Ok col → py_min col = Ok a → py_max col = Ok a →
  ∃ t w',
    _build_interp w = (t, w', Ok tt) ∧
    Forall (λ row, ∃ y, row !! aa = Some y ∧ F64.is_finite y = false)
           (nd_rows (X_param_grid (self w'))) ∧
    ∀ m, has_keys m (paramList (self w')) →
      ∃ param y, return_unit_call (self w') m = Ok param ∧
                 param !! aa = Some y ∧ F64.is_finite y = false.
Proof.
  intros HpL Hbts Hne Haa Hcol Hlo Hhi.
  destruct (_buildTrainingSets_inv _ _ _ _ _ Hbts)
    as (_ & Hcfg & _ & Hcols & _ & _ & HshX & _).
  destruct (_get_param_limits_returns X HshX Hne) as (limits & HL & Hlen & Hj).
  pose proof (Hj aa col a a Haa Hcol Hlo Hhi) as Hlim.
  destruct (_build_interp_run w w1 t1 X Y limits Hbts) as (t & sf & _ & Hrun).
  { by rewrite HpL. }
  { lia. }
  eexists t, _. split; [exact Hrun|]. split.
  - cbn. rewrite Forall_fmap. unfold well_shaped in HshX.
    eapply Forall_impl; [exact HshX|]. cbn. intros row Hrow.
    apply (zip_with_rescale1_degenerate row limits aa a); [lia|done].
  - cbn [self]. intros m Hkeys.
    assert (paramList (built (self w1) X Y limits sf) = paramList (self w))
      as Hpars by (cbn; by rewrite Hcfg).
    rewrite Hpars in Hkeys.
    rewrite (return_unit_call_zip _ m limits);
      [|done|by rewrite Hpars|rewrite Hpars; lia].
    rewrite Hpars.
    destruct (zip_with_rescale1_degenerate (values m (paramList (self w)))
                limits aa a) as (y & Hy & Hfin); [|done|].
    { unfold values. rewrite length_map. lia. }
    by exists (zip_with rescale1 (values m (paramList (self w))) limits), y.
Qed.

End ZeroRange.

(* ===================================================================== *)
(** ** The median of finite values *)
(* ===================================================================== *)

#[global] Instance f64_le_total : Total f64_le.
Proof.
  intros a b. unfold f64_le.
  destruct a as [x| | |], b as [y| | |]; cbn; auto.
  destruct (Rlt_dec y x) as [Hlt|Hge].
  - right. apply bool_decide_eq_false. lra.
  - left. by apply bool_decide_eq_false.
Qed.

Lemma f64_le_fin (x y : R) : f64_le (Fin x) (Fin y) ↔ (x <= y)%R.
Proof.
  unfold f64_le. cbn. rewrite bool_decide_eq_false. split; lra.
Qed.

Lemma Sorted_fin_inv (s : list R) :
  Sorted f64_le (map Fin s) → Sorted Rle s.
Proof.
  induction s as [|x s IH]; cbn; [constructor|].
  inversion 1 as [|? ? Hs Hhd]; subst. constructor; [by apply IH|].
  destruct s as [|y s]; cbn in *; constructor.
  inversion Hhd; subst. by apply f64_le_fin.
Qed.

Lemma existsb_is_nan_fin (l : list R) : existsb is_nan (map Fin l) = false.
Proof. induction l; cbn; done. Qed.

Lemma lookup_fin_default (s : list R) (i : nat) :
  (i < length s)%nat → default NaN (map Fin s !! i) = Fin (nth i s 0%R).
Proof.
  intros Hi. change (map Fin s) with (Fin <$> s).
  rewrite list_lookup_fmap.
  destruct (nth_lookup_or_length s i 0%R) as [->|]; [done|lia].
Qed.

(** [np.median] of finite values is the middle of the sorted values. *)
Lemma np_median_fin (l : list R) :
  l ≠ [] →
  ∃ s, s ≡ₚ l ∧ Sorted Rle s ∧ np_median (map Fin l) = Fin (Rmiddle s).
Proof.
  intros Hne.
  pose proof (merge_sort_Permutation f64_le (map Fin l)) as Hperm.
  pose proof (Sorted_merge_sort f64_le (map Fin l)) as Hsorted.
  destruct (Permutation_map_inv _ _ Hperm) as (s & Hs & Hls).
  exists s. split; [by symmetry|]. rewrite Hs in Hsorted.
  split; [by apply Sorted_fin_inv|].
  unfold np_median. rewrite existsb_is_nan_fin, Hs, length_map.
  assert (length s ≠ 0%nat) as Hlen.
  { rewrite <- (Permutation_length Hls). by destruct l. }
  rewrite decide_False by done. unfold Rmiddle.
  pose proof (Nat.div_lt (length s) 2 ltac:(lia) ltac:(lia)) as Hhalf.
  destruct (Nat.odd (length s)).
  - by apply lookup_fin_default.
  - rewrite !lookup_fin_default by lia. cbn.
    unfold F64.div. rewrite decide_False by lra. done.
Qed.

#[global] Instance Rle_transitive : Transitive Rle := Rle_trans.
#[global] Instance Rle_antisymm : AntiSymm (=) Rle := Rle_antisym.

(** The median is the middle of any sorted arrangement of the values. *)
Lemma np_median_sorted (l s : list R) :
  l ≠ [] → s ≡ₚ l → Sorted Rle s →
  np_median (map Fin l) = Fin (Rmiddle s).
Proof.
  intros Hne Hperm Hsorted.
  destruct (np_median_fin l Hne) as (s' & Hperm' & Hsorted' & ->).
  f_equal. f_equal. apply (Sorted_unique Rle); [done..|].
  by rewrite Hperm, Hperm'.
Qed.

(* ===================================================================== *)
(** ** Prediction *)
(* ===================================================================== *)

Section Predict.
Context `{Libraries}.

Lemma predict_untrained (e : GPEmulator) (files : gmap string file)
    (m : gmap string f64) :
  trained e = false →
  predict m (World e files)
  = ([Print "Emulator not trained, cannot make a prediction"],
     World e files, Ok None).
Proof.
  intros Htr. unfold predict, bind_first, mbind, Py_bind, get_self.
  cbn. by rewrite Htr.
Qed.

Lemma broadcast_scalar_l (op : f64 → f64 → f64) (x : f64) (b : list f64) :
  broadcast op [x] b = Ok (map (op x) b).
Proof.
  unfold broadcast. case_decide as Hlen; [|done].
  destruct b as [|y [|]]; done.
Qed.

(** A prediction of a trained emulator, when the posterior has one mean
    per target column and one variance. *)
Lemma predict_trained (e : GPEmulator) (files : gmap string file)
    (m : gmap string f64) (limits : list (f64 * f64))
    (mean : list f64) (var : f64) :
  trained e = true →
  paramLimits e = Some limits →
  has_keys m (paramList e) →
  (length (paramList e) ≤ length limits)%nat →
  GPy_predict (gp e) [unit_point m (paramList e) limits]
    = ([mean], [[var]]) →
  length mean = length (scalefactors e) →
  predict m (World e files)
  = (predict_trace e (unit_point m (paramList e) limits),
     World e files,
     Ok (Some (denormalised_values mean (scalefactors e),
               denormalised_errors var (scalefactors e)))).
Proof.
  intros Htr HpL Hkeys Hlen Hgp Hmean.
  pose proof (return_unit_call_zip e m limits HpL Hkeys Hlen) as Hparam.
  fold (unit_point m (paramList e) limits) in Hparam.
  unfold predict, bind_first, mbind, Py_bind, get_self.
  cbn -[return_unit_call broadcast]. rewrite Htr.
  cbn -[return_unit_call broadcast]. rewrite Hparam.
  cbn -[return_unit_call broadcast]. rewrite Hgp.
  assert (mapM (λ row, broadcast F64.mul (map (λ p, p + Fin 1)%f64 row)
                         (scalefactors e)) [mean]
          = Ok [zip_with F64.mul (map (λ p, p + Fin 1)%f64 mean)
                         (scalefactors e)]) as ->.
  { cbn -[broadcast].
    rewrite broadcast_same_length by (by rewrite length_map). done. }
  assert (mapM (λ row, broadcast F64.mul (map F64.sqrt row) (scalefactors e))
               [[var]]
          = Ok [map (F64.mul (F64.sqrt var)) (scalefactors e)]) as ->.
  { cbn -[broadcast]. by rewrite broadcast_scalar_l. }
  cbn. unfold predict_trace, denormalised_values, denormalised_errors.
  rewrite !app_nil_r.
  assert (zip_with F64.mul (map (λ p, p + Fin 1)%f64 mean) (scalefactors e)
          = zip_with (λ p s, (p + Fin 1) * s)%f64 mean (scalefactors e))
    as ->.
  { generalize (scalefactors e). clear.
    induction mean as [|p mean IH]; intros [|s sf]; cbn; [done..|].
    by rewrite IH. }
  destruct (checkHulls e), (crossval e); cbn;
    repeat (destruct (bool_decide _) || destruct (all_in_grid _ _)); cbn;
    reflexivity.
Qed.

(** [check_in_hull] rescales the model and asks the triangulation. *)
Lemma check_in_hull_zip (e : GPEmulator) (m : gmap string f64)
    (limits : list (f64 * f64)) :
  paramLimits e = Some limits →
  has_keys m (paramList e) →
  (length (paramList e) ≤ length limits)%nat →
  check_in_hull e m
  = Ok (bool_decide
          (find_simplex (hull e) (unit_point m (paramList e) limits) < 0)%Z).
Proof.
  intros HpL Hkeys Hlen. unfold check_in_hull.
  by rewrite (return_unit_call_zip e m limits HpL Hkeys Hlen).
Qed.

End Predict.

(* ===================================================================== *)
(** ** The distance to the nearest training point *)
(* ===================================================================== *)

Section Distance.
Context `{Libraries}.
Local Open Scope R_scope.

Lemma Rsum_from (l : list R) (x : R) : fold_left Rplus l x = x + Rsum l.
Proof.
  unfold Rsum. revert x. induction l as [|y l IH]; intros x; cbn; [lra|].
  rewrite (IH (x + y)), (IH (0 + y)). lra.
Qed.

Lemma Rsum_cons (x : R) (l : list R) : Rsum (x :: l) = x + Rsum l.
Proof. unfold Rsum at 1. cbn. rewrite Rsum_from. lra. Qed.

Lemma Rsum_squares_nonneg (a b : list R) :
  0 <= Rsum (zip_with (λ x y, (x - y) * (x - y)) a b).
Proof.
  revert b. induction a as [|x a IH]; intros [|y b]; cbn [zip_with];
    try (unfold Rsum; cbn; lra).
  rewrite Rsum_cons. specialize (IH b).
  pose proof (Rle_0_sqr (x - y)) as Hsq. unfold Rsqr in Hsq. lra.
Qed.

Lemma Rdistance_nonneg (a b : list R) : 0 <= Rdistance a b.
Proof. apply sqrt_pos. Qed.

Lemma Rdistance_self (a : list R) : Rdistance a a = 0.
Proof.
  unfold Rdistance.
  assert (Rsum (zip_with (λ x y, (x - y) * (x - y)) a a) = 0) as ->.
  { induction a as [|x a IH]; [reflexivity|].
    cbn [zip_with]. rewrite Rsum_cons, IH. lra. }
  apply sqrt_0.
Qed.

(** A lower bound of a distance, from a lower bound of its square. *)
Lemma Rdistance_ge (a b : list R) (c : R) :
  0 <= c → c * c <= Rsum (zip_with (λ x y, (x - y) * (x - y)) a b) →
  c <= Rdistance a b.
Proof.
  intros Hc Hsq. unfold Rdistance.
  rewrite <- (sqrt_square c Hc). by apply sqrt_le_1_alt.
Qed.

Lemma np_sum_fin (l : list R) : np_sum (map Fin l) = Fin (Rsum l).
Proof.
  unfold np_sum, Rsum. generalize 0. induction l as [|x l IH]; intros s; cbn.
  - done.
  - apply IH.
Qed.

Lemma distance_fin (a b : list R) :
  length a = length b →
  distance (map Fin a) (map Fin b) = Ok (Fin (Rdistance a b)).
Proof.
  intros Hlen. unfold distance.
  rewrite broadcast_same_length by (by rewrite !length_map).
  cbn.
  assert (map (λ x, x * x)%f64 (zip_with F64.sub (map Fin a) (map Fin b))
          = map Fin (zip_with (λ x y, (x - y) * (x - y)) a b)) as ->.
  { clear Hlen. revert b.
    induction a as [|x a IH]; intros [|y b]; cbn; try done.
    rewrite IH. do 2 f_equal. }
  rewrite np_sum_fin. unfold F64.sqrt.
  case_decide as Hneg; [|done].
  pose proof (Rsum_squares_nonneg a b). lra.
Qed.

(** The scan over the rows, from the running minimum [s]. *)
Lemma nearest_scan (p : list R) (G : list (list R)) (s : R) :
  Forall (λ row, length row = length p) G →
  for_each (λ training_point shortest_distance,
      new_distance ← distance training_point (map Fin p);
      mret (if F64.ltb new_distance shortest_distance
            then new_distance else shortest_distance))
    (fin_rows G) (Fin s)
  = Ok (Fin (Rnearest s p G)).
Proof.
  intros Hshape. revert s.
  induction Hshape as [|row G Hrow _ IH]; intros s; cbn; [done|].
  rewrite distance_fin by done. cbn.
  assert ((if bool_decide (Rdistance row p < s)
           then Fin (Rdistance row p) else Fin s)
          = Fin (Rmin s (Rdistance row p))) as ->.
  { unfold Rmin. case_bool_decide; destruct (Rle_dec _ _); f_equal; lra. }
  apply IH.
Qed.

(** [Rnearest] is the smallest of the starting value and the distances. *)
Lemma Rnearest_spec (s : R) (p : list R) (G : list (list R)) :
  Rnearest s p G <= s ∧
  (∀ row, row ∈ G → Rnearest s p G <= Rdistance row p) ∧
  (Rnearest s p G = s ∨ ∃ row, row ∈ G ∧ Rnearest s p G = Rdistance row p).
Proof.
  unfold Rnearest. revert s.
  induction G as [|row G IH]; intros s; cbn.
  - split; [lra|]. split; [by inversion 1|by left].
  - destruct (IH (Rmin s (Rdistance row p))) as (Hle & Hall & Hin).
    pose proof (Rmin_l s (Rdistance row p)).
    pose proof (Rmin_r s (Rdistance row p)).
    split; [lra|]. split.
    + intros r [->|Hr]%elem_of_cons; [lra|by apply Hall].
    + destruct Hin as [Heq|(r & Hr & Heq)].
      * destruct (Rle_dec s (Rdistance row p)) as [Hs|Hs].
        -- rewrite (Rmin_left s _ Hs) in Heq |- *. by left.
        -- rewrite Rmin_right in Heq |- * by lra.
           right. exists row. split; [left|done].
      * right. exists r. split; [by right|done].
Qed.

(** With finite rescaled values on both sides, [get_nearest_distance]
    returns the capped distance to the nearest row. *)
Lemma get_nearest_distance_fin (e : GPEmulator) (m : gmap string f64)
    (limits : list (f64 * f64)) (p : list R) (G : list (list R)) :
  paramLimits e = Some limits →
  has_keys m (paramList e) →
  (length (paramList e) ≤ length limits)%nat →
  unit_point m (paramList e) limits = map Fin p →
  nd_rows (X_param_grid e) = fin_rows G →
  Forall (λ row, length row = length p) G →
  get_nearest_distance e m = Ok (Fin (Rnearest (9999 / 100) p G)).
Proof.
  intros HpL Hkeys Hlen Hp HG Hshape. unfold get_nearest_distance.
  rewrite (return_unit_call_zip e m limits HpL Hkeys Hlen).
  fold (unit_point m (paramList e) limits). rewrite Hp, HG.
  apply (nearest_scan p G _ Hshape).
Qed.

End Distance.

(* ===================================================================== *)
(** ** Properties of the rescaling *)
(* ===================================================================== *)

Lemma example_buildTrainingSets :
  _buildTrainingSets (World example_new ∅)
  = ([], World example_new ∅,
     Ok (Ndarray2 2 (fin_rows example_grid), example_targets)).
Proof. reflexivity. Qed.

(** The grid of rescaled reals that the construction stores. *)
Lemma rescaled_grid_fin (d : nat) (G : list (list R)) :
  Forall (λ row, length row = d) G → two_distinct_values d G →
  map (λ row, zip_with rescale1 row (map fin_pair (Rgrid_limits d G)))
      (fin_rows G)
  = fin_rows (map (λ row, zip_with Rrescale row (Rgrid_limits d G)) G).
Proof.
  intros Hshape Hdist. unfold fin_rows. rewrite !map_map.
  apply map_ext_in. intros row Hrow%list_elem_of_In.
  apply zip_with_rescale1_fin. intros j lim Hj Hlim.
  rewrite Forall_forall in Hshape. rewrite (Hshape row Hrow) in Hj.
  rewrite Rgrid_limits_lookup in Hlim by done. injection Hlim as <-.
  pose proof (Rlimits_distinct d j G Hdist Hj). lra.
Qed.

(** C1.  Construction with limits taken from the grid: when the grid of
    parameters that [_buildTrainingSets] returns holds finite values and
    every column of it has two distinct values, [_build_interp] returns,
    the grid it stores holds only values of [0,1], and in every column
    an entry that was the smallest of its column is now 0 and an entry that
    was the largest is now 1. *)
Theorem build_interp_rescales_to_unit_interval `{Libraries}
    (w w1 : world) (t1 : list event) (X Y : ndarray2) (G : list (list R)) :
  paramLimits (self w) = None →
  _buildTrainingSets w = (t1, w1, Ok (X, Y)) →
  nd_rows X = fin_rows G →
  two_distinct_values (nd_cols X) G →
  ∃ t w' G',
    _build_interp w = (t, w', Ok tt) ∧
    X_param_grid (self w') = Ndarray2 (nd_cols X) (fin_rows G') ∧
    Forall2 (λ row row', length row = length row') G G' ∧
    Forall (Forall (λ y, 0 <= y <= 1)%R) G' ∧
    ∀ i j row x, G !! i = Some row → row !! j = Some x →
      ∃ row' y, G' !! i = Some row' ∧ row' !! j = Some y ∧
        ((∀ r z, r ∈ G → r !! j = Some z → x <= z)%R → y = 0%R) ∧
        ((∀ r z, r ∈ G → r !! j = Some z → z <= x)%R → y = 1%R).
Proof.
  intros HpL Hbts HG Hdist.
  destruct (_buildTrainingSets_inv _ _ _ _ _ Hbts)
    as (_ & _ & _ & Hcols & _ & _ & HshX & _).
  set (d := nd_cols X) in *.
  assert (Forall (λ row, length row = d) G) as Hshape.
  { unfold well_shaped in HshX. rewrite HG in HshX. unfold fin_rows in HshX.
    rewrite Forall_fmap in HshX. eapply Forall_impl; [exact HshX|].
    cbn. intros row. by rewrite length_map. }
  assert (d = 0%nat ∨ G ≠ []) as Hne.
  { destruct d as [|d']; [by left|right]. intros ->.
    destruct (Hdist 0%nat) as (r1 & _ & _ & _ & Hr1 & _); [lia|].
    by apply elem_of_nil in Hr1. }
  set (L := Rgrid_limits d G).
  assert (length L = d) as HlenL.
  { unfold L, Rgrid_limits. by rewrite length_map, length_seq. }
  destruct (_build_interp_run w w1 t1 X Y (map fin_pair L) Hbts)
    as (t & sf & _ & Hrun).
  { rewrite HpL. destruct X as [d' rows]. cbn in HG, d. subst rows.
    by apply _get_param_limits_fin. }
  { rewrite length_map. lia. }
  set (G' := map (λ row, zip_with Rrescale row L) G).
  eexists t, _, G'. split; [exact Hrun|]. cbn.
  split; [|split; [|split]].
  - f_equal. rewrite HG. by apply rescaled_grid_fin.
  - unfold G'. apply Forall2_fmap_r, Forall_Forall2_diag.
    rewrite Forall_forall in Hshape |- *. intros row Hrow. cbn.
    rewrite length_zip_with, (Hshape row Hrow). lia.
  - unfold G'. rewrite Forall_fmap. rewrite Forall_forall in Hshape |- *.
    intros row Hrow. cbn. apply Forall_lookup_2. intros j y Hy.
    apply lookup_zip_with_Some in Hy as (x & lim & -> & Hx & Hlim).
    assert (j < d)%nat as Hj.
    { rewrite <- (Hshape row Hrow). by eapply lookup_lt_Some. }
    unfold L in Hlim. rewrite Rgrid_limits_lookup in Hlim by done.
    injection Hlim as <-.
    destruct (Rlimits (Rcolumn j G)) as [lo hi] eqn:Hlim.
    apply Rrescale_bounds.
    + pose proof (Rlimits_distinct d j G Hdist Hj) as Hlt.
      by rewrite Hlim in Hlt.
    + destruct (Rlimits_spec (Rcolumn j G)) as (_ & _ & Hb).
      { intros Hnil. pose proof (Rcolumn_elem j G row x Hrow Hx) as Hin.
        rewrite Hnil in Hin. by apply elem_of_nil in Hin. }
      rewrite Hlim in Hb. apply Hb. by eapply Rcolumn_elem.
  - intros i j row x Hi Hx.
    assert (row ∈ G) as Hrow by by eapply list_elem_of_lookup_2.
    assert (j < d)%nat as Hj.
    { rewrite Forall_forall in Hshape. rewrite <- (Hshape row Hrow).
      by eapply lookup_lt_Some. }
    pose proof (Rlimits_distinct d j G Hdist Hj) as Hlt.
    destruct (Rlimits_spec (Rcolumn j G)) as (Hlo & Hhi & Hb).
    { intros Hnil. pose proof (Rcolumn_elem j G row x Hrow Hx) as Hin.
      rewrite Hnil in Hin. by apply elem_of_nil in Hin. }
    destruct (Rlimits (Rcolumn j G)) as [lo hi] eqn:Hlim. cbn in *.
    exists (zip_with Rrescale row L), (Rrescale x (lo, hi)).
    split; [unfold G'; by rewrite list_lookup_fmap, Hi|].
    split.
    { apply lookup_zip_with_Some. exists x, (lo, hi).
      split; [done|]. split; [done|].
      unfold L. rewrite Rgrid_limits_lookup by done. by rewrite Hlim. }
    pose proof (Hb x (Rcolumn_elem j G row x Hrow Hx)) as Hx_b.
    split.
    + intros Hmin.
      destruct (Rcolumn_elem_inv d j G lo Hshape Hj Hlo) as (r & Hr & Hz).
      pose proof (Hmin r lo Hr Hz).
      replace x with lo by lra. apply Rrescale_lo.
    + intros Hmax.
      destruct (Rcolumn_elem_inv d j G hi Hshape Hj Hhi) as (r & Hr & Hz).
      pose proof (Hmax r hi Hr Hz).
      replace x with hi by lra. by apply Rrescale_hi.
Qed.

Lemma build_interp_rescales_witness :
  two_distinct_values 2 example_grid ∧
  ∃ t w' G',
    _build_interp (World example_new ∅) = (t, w', Ok tt) ∧
    X_param_grid (self w') = Ndarray2 2 (fin_rows G') ∧
    Forall2 (λ row row', length row = length row') example_grid G' ∧
    Forall (Forall (λ y, 0 <= y <= 1)%R) G' ∧
    ∀ i j row x, example_grid !! i = Some row → row !! j = Some x →
      ∃ row' y, G' !! i = Some row' ∧ row' !! j = Some y ∧
        ((∀ r z, r ∈ example_grid → r !! j = Some z → x <= z)%R → y = 0%R) ∧
        ((∀ r z, r ∈ example_grid → r !! j = Some z → z <= x)%R → y = 1%R).
Proof.
  assert (two_distinct_values 2 example_grid) as Hdist.
  { intros [|[|j]] Hj; [| |lia].
    - exists [1; 4]%R, [3; 2]%R, 1%R, 3%R. unfold example_grid.
      repeat split; [set_solver..|lra].
    - exists [1; 4]%R, [3; 2]%R, 4%R, 2%R. unfold example_grid.
      repeat split; [set_solver..|lra]. }
  split; [exact Hdist|].
  exact (build_interp_rescales_to_unit_interval
           (World example_new ∅) _ _ _ _ example_grid
           eq_refl example_buildTrainingSets eq_refl Hdist).
Defined.

(** C2 (as the code has it).  When a selected parameter has zero range in
    the training set (the [min] and the [max] of its column are the same
    value), the rescaling raises nothing: [_build_interp] returns, every
    row of the stored grid holds a value that is not finite ([nan] or an
    infinity) in that column, and rescaling any query model that has the
    keys returns too, with a value that is not finite at that index. *)
Theorem zero_range_rescaling_is_not_finite `{Libraries}
    (w w1 : world) (t1 : list event) (X Y : ndarray2) (aa : nat)
    (col : list f64) (a : f64) :
  paramLimits (self w) = None →
  _buildTrainingSets w = (t1, w1, Ok (X, Y)) →
  nd_rows X ≠ [] → (aa < nd_cols X)%nat →
  column aa X = Ok col → py_min col = Ok a → py_max col = Ok a →
  ∃ t w',
    _build_interp w = (t, w', Ok tt) ∧
    Forall (λ row, ∃ y, row !! aa = Some y ∧ F64.is_finite y = false)
           (nd_rows (X_param_grid (self w'))) ∧
    ∀ m, has_keys m (paramList (self w')) →
      ∃ param y, return_unit_call (self w') m = Ok param ∧
                 param !! aa = Some y ∧ F64.is_finite y = false.
Proof. apply zero_range_build. Qed.

Lemma degenerate_buildTrainingSets :
  _buildTrainingSets (World degenerate_new ∅)
  = ([], World degenerate_new ∅,
     Ok (Ndarray2 2 [[Fin 1; Fin 2]; [Fin 3; Fin 2]],
         Ndarray2 2 [[Fin 10; Fin 20]; [Fin 30; Fin 60]])).
Proof. reflexivity. Qed.

Lemma degenerate_column_min : py_min [Fin 2; Fin 2] = Ok (Fin 2).
Proof. cbn. by R_decide. Qed.

Lemma degenerate_column_max : py_max [Fin 2; Fin 2] = Ok (Fin 2).
Proof. cbn. by R_decide. Qed.

Lemma zero_range_rescaling_witness :
  ∃ t w',
    _build_interp (World degenerate_new ∅) = (t, w', Ok tt) ∧
    Forall (λ row, ∃ y, row !! 1%nat = Some y ∧ F64.is_finite y = false)
           (nd_rows (X_param_grid (self w'))) ∧
    ∀ m, has_keys m (paramList (self w')) →
      ∃ param y, return_unit_call (self w') m = Ok param ∧
                 param !! 1%nat = Some y ∧ F64.is_finite y = false.
Proof.
  apply (zero_range_rescaling_is_not_finite
           (World degenerate_new ∅) _ _ _ _ 1 [Fin 2; Fin 2] (Fin 2)
           eq_refl degenerate_buildTrainingSets).
  - done.
  - cbn. lia.
  - reflexivity.
  - exact degenerate_column_min.
  - exact degenerate_column_max.
Defined.

Lemma example_model_has_keys (a b : R) :
  has_keys (example_model a b) ["mF"; "Delta2_p"].
Proof. repeat constructor; by eexists. Qed.

Lemma example_model_values (a b : R) :
  values (example_model a b) ["mF"; "Delta2_p"] = [Fin a; Fin b].
Proof. reflexivity. Qed.

(** The limits of the degenerate archive: [1,3] for mF, [2,2] for
    Delta2_p. *)
Lemma degenerate_limits :
  _get_param_limits (Ndarray2 2 [[Fin 1; Fin 2]; [Fin 3; Fin 2]])
  = Ok [(Fin 1, Fin 3); (Fin 2, Fin 2)].
Proof. cbn. by R_decide. Qed.

(** C2, the claim as stated, fails: on the archive in which Delta2_p is 2
    in every snapshot the construction raises nothing and stores [nan] in
    the column of Delta2_p, and the rescaling of a query model afterwards
    raises nothing either and returns [nan] for Delta2_p. *)
Lemma zero_range_raises_nothing :
  ∃ t w',
    _build_interp (World degenerate_new ∅) = (t, w', Ok tt) ∧
    nd_rows (X_param_grid (self w')) = [[Fin 0; NaN]; [Fin 1; NaN]] ∧
    return_unit_call (self w') (example_model 2 2) = Ok [Fin (1 / 2); NaN].
Proof.
  destruct (_build_interp_run (World degenerate_new ∅) _ _ _ _
              [(Fin 1, Fin 3); (Fin 2, Fin 2)] degenerate_buildTrainingSets)
    as (t & sf & _ & Hrun).
  - exact degenerate_limits.
  - cbn. lia.
  - eexists t, _. split; [exact Hrun|]. split.
    + cbn. unfold rescale1, F64.div, F64.sub, F64.signed_inf. cbn.
      R_decide. repeat f_equal; R_close.
    + rewrite (return_unit_call_zip _ _ [(Fin 1, Fin 3); (Fin 2, Fin 2)]);
        [|done|apply example_model_has_keys|cbn; lia].
      cbn [self built config paramList example_config degenerate_new].
      rewrite example_model_values. cbn.
      unfold rescale1, F64.div, F64.sub, F64.signed_inf. cbn.
      R_decide. repeat f_equal; R_close.
Qed.

(* ===================================================================== *)
(** ** Properties of the prediction *)
(* ===================================================================== *)

(** C3.  On an emulator that is not trained, [predict] prints that it
    cannot make a prediction and returns [None]: the Gaussian process is
    not called, and the object and the files are left as they were. *)
Theorem predict_before_training `{Libraries} (e : GPEmulator)
    (files : gmap string file) (m : gmap string f64) :
  trained e = false →
  predict m (World e files)
  = ([Print "Emulator not trained, cannot make a prediction"],
     World e files, Ok None).
Proof. apply predict_untrained. Qed.

Lemma predict_before_training_witness :
  predict (example_model 2 3) (World example_new ∅)
  = ([Print "Emulator not trained, cannot make a prediction"],
     World example_new ∅, Ok None).
Proof.
  apply (predict_before_training example_new ∅ (example_model 2 3)).
  reflexivity.
Defined.

Lemma train_run `{Libraries} (w : world) :
  ∃ t w', train w = (t, w', Ok tt) ∧
    trained (self w') = true ∧
    gp_X (gp (self w')) = gp_X (gp (self w)) ∧
    gp_Y (gp (self w')) = gp_Y (gp (self w)) ∧
    scalefactors (self w') = scalefactors (self w) ∧
    paramLimits (self w') = paramLimits (self w).
Proof. by eexists _, _. Qed.

(** C4.  [_build_interp] stores in [scalefactors] the median of every
    column of the targets (for a column of finite values, the middle of
    the sorted column), and gives the Gaussian process, which [train]
    then optimises, the targets divided by the scale factor of their
    column, minus one.  On a trained emulator, [predict] returns for the
    posterior mean [mean] and variance [var] at the rescaled query point
    the values [(mean + 1) * scalefactors] and the uncertainties
    [sqrt(var) * scalefactors], column by column. *)
Theorem normalisation_by_column_median `{Libraries}
    (w w1 : world) (t1 : list event) (X Y : ndarray2)
    (limits : list (f64 * f64)) :
  _buildTrainingSets w = (t1, w1, Ok (X, Y)) →
  match paramLimits (self w) with
  | None => _get_param_limits X
  | Some l => Ok l
  end = Ok limits →
  (nd_cols X ≤ length limits)%nat →
  (∃ t w' sf,
     _build_interp w = (t, w', Ok tt) ∧
     scalefactors (self w') = sf ∧
     length sf = nd_cols Y ∧
     (∀ j, (j < nd_cols Y)%nat →
        ∃ c, column j Y = Ok c ∧ sf !! j = Some (np_median c) ∧
          ∀ l, c = map Fin l → l ≠ [] →
            ∃ s, s ≡ₚ l ∧ Sorted Rle s ∧ np_median c = Fin (Rmiddle s)) ∧
     gp_Y (gp (self w'))
       = map (λ row, zip_with (λ y s, y / s - Fin 1)%f64 row sf) (nd_rows Y) ∧
     ∃ t' w'', train w' = (t', w'', Ok tt) ∧
       trained (self w'') = true ∧
       gp_Y (gp (self w'')) = gp_Y (gp (self w')) ∧
       scalefactors (self w'') = sf) ∧
  (∀ (e : GPEmulator) (files : gmap string file) (m : gmap string f64)
     (lims : list (f64 * f64)) (mean : list f64) (var : f64),
     trained e = true →
     paramLimits e = Some lims →
     has_keys m (paramList e) →
     (length (paramList e) ≤ length lims)%nat →
     GPy_predict (gp e) [unit_point m (paramList e) lims]
       = ([mean], [[var]]) →
     length mean = length (scalefactors e) →
     ∃ t values errors,
       predict m (World e files)
         = (t, World e files, Ok (Some (values, errors))) ∧
       length values = length (scalefactors e) ∧
       length errors = length (scalefactors e) ∧
       ∀ j p s, mean !! j = Some p → scalefactors e !! j = Some s →
         values !! j = Some ((p + Fin 1) * s)%f64 ∧
         errors !! j = Some (F64.sqrt var * s)%f64).
Proof.
  intros Hbts Hlim Hlen. split.
  - destruct (_buildTrainingSets_inv _ _ _ _ _ Hbts)
      as (_ & _ & _ & _ & _ & _ & _ & HshY).
    destruct (_build_interp_run w w1 t1 X Y limits Hbts Hlim Hlen)
      as (t & sf & Hsf & Hrun).
    destruct (np_median_axis0_returns Y HshY) as (sf' & Hsf' & Hsflen & Hmed).
    rewrite Hsf in Hsf'. injection Hsf' as <-.
    eexists t, _, sf. split; [exact Hrun|].
    do 2 (split; [done|]). split.
    { intros j Hj. destruct (Hmed j Hj) as (c & Hc & Hj').
      exists c. do 2 (split; [done|]). intros l -> Hl.
      by apply np_median_fin. }
    split; [done|].
    destruct (train_run (World (built (self w1) X Y limits sf) (fs w)))
      as (t' & w'' & Htrain & Htr & _ & HY & Hsc & _).
    by exists t', w''.
  - intros e files m lims mean var Htr HpL Hkeys Hlims Hgp Hmean.
    eexists _, _, _.
    split; [by apply (predict_trained e files m lims mean var)|].
    unfold denormalised_values, denormalised_errors.
    rewrite length_zip_with, length_map. split; [lia|]. split; [done|].
    intros j p s Hp Hs. split.
    + apply lookup_zip_with_Some. by exists p, s.
    + by rewrite list_lookup_fmap, Hs.
Qed.

Lemma example_GPy_predict (g : GPRegression) (x : list (list f64)) :
  GPy_predict g x = ([[Fin (1 / 2); Fin (1 / 2)]], [[Fin 4]]).
Proof. reflexivity. Qed.

Lemma normalisation_by_column_median_witness :
  (∃ t w' sf,
     _build_interp (World example_new ∅) = (t, w', Ok tt) ∧
     scalefactors (self w') = sf ∧
     length sf = 2%nat ∧
     (∀ j, (j < 2)%nat →
        ∃ c, column j example_targets = Ok c ∧ sf !! j = Some (np_median c) ∧
          ∀ l, c = map Fin l → l ≠ [] →
            ∃ s, s ≡ₚ l ∧ Sorted Rle s ∧ np_median c = Fin (Rmiddle s)) ∧
     gp_Y (gp (self w'))
       = map (λ row, zip_with (λ y s, y / s - Fin 1)%f64 row sf)
             (nd_rows example_targets) ∧
     ∃ t' w'', train w' = (t', w'', Ok tt) ∧
       trained (self w'') = true ∧
       gp_Y (gp (self w'')) = gp_Y (gp (self w')) ∧
       scalefactors (self w'') = sf) ∧
  (∃ t values errors,
     predict (example_model 2 3) (World example_trained ∅)
       = (t, World example_trained ∅, Ok (Some (values, errors))) ∧
     values !! 1%nat = Some ((Fin (1 / 2) + Fin 1) * Fin 60)%f64 ∧
     errors !! 1%nat = Some (F64.sqrt (Fin 4) * Fin 60)%f64).
Proof.
  destruct (normalisation_by_column_median
              (World example_new ∅) _ _ _ _
              (map fin_pair (Rgrid_limits 2 example_grid))
              example_buildTrainingSets) as [Hbuild Hpredict].
  - apply (_get_param_limits_fin 2 example_grid).
    + repeat constructor.
    + by right.
  - cbn. lia.
  - split; [exact Hbuild|].
    destruct (Hpredict example_trained ∅ (example_model 2 3)
                [(Fin 1, Fin 3); (Fin 2, Fin 4)]
                [Fin (1 / 2); Fin (1 / 2)] (Fin 4))
      as (t & values & errors & Hrun & _ & _ & Hcol).
    + reflexivity.
    + reflexivity.
    + apply example_model_has_keys.
    + cbn. lia.
    + apply example_GPy_predict.
    + reflexivity.
    + exists t, values, errors. split; [exact Hrun|].
      by apply (Hcol 1%nat).
Defined.

(** The warning of [predict] is in the trace exactly when the check is
    on and the point is outside the hull. *)
Lemma predict_trace_warning `{Libraries} (e : GPEmulator) (param : list f64) :
  Print "Model is outside convex hull:" ∈ predict_trace e param ↔
  checkHulls e = true ∧ (find_simplex (hull e) param < 0)%Z.
Proof.
  unfold predict_trace. rewrite !elem_of_app.
  destruct (crossval e && all_in_grid param (X_param_grid e));
    destruct (checkHulls e); cbn; try case_bool_decide; cbn;
    rewrite ?elem_of_cons, ?elem_of_nil; intuition (congruence || lia).
Qed.

(** C7.  A query that [check_in_hull] reports as outside the convex hull
    of the training grid, on a trained emulator and with every key
    present: [predict] raises nothing and returns the values and the
    uncertainties, computed from the posterior as for any other point; the
    only effect of the hull is the printed warning, which appears exactly
    when [checkHulls] is set. *)
Theorem prediction_outside_hull_returns `{Libraries} (e : GPEmulator)
    (files : gmap string file) (m : gmap string f64)
    (limits : list (f64 * f64)) (mean : list f64) (var : f64) :
  trained e = true →
  paramLimits e = Some limits →
  has_keys m (paramList e) →
  (length (paramList e) ≤ length limits)%nat →
  GPy_predict (gp e) [unit_point m (paramList e) limits]
    = ([mean], [[var]]) →
  length mean = length (scalefactors e) →
  check_in_hull e m = Ok true →
  ∃ t,
    predict m (World e files)
      = (t, World e files,
         Ok (Some (denormalised_values mean (scalefactors e),
                   denormalised_errors var (scalefactors e)))) ∧
    (Print "Model is outside convex hull:" ∈ t ↔ checkHulls e = true) ∧
    GPyPredictCall [unit_point m (paramList e) limits] ∈ t.
Proof.
  intros Htr HpL Hkeys Hlen Hgp Hmean Hout.
  rewrite (check_in_hull_zip e m limits HpL Hkeys Hlen) in Hout.
  injection Hout as Hout. apply bool_decide_eq_true in Hout.
  exists (predict_trace e (unit_point m (paramList e) limits)).
  split; [by apply predict_trained|]. split.
  - rewrite predict_trace_warning. split; [by intros [? _]|by split].
  - unfold predict_trace. rewrite !elem_of_app. right. right. left.
Qed.

(** The query point of the example emulator. *)
Lemma example_unit_point (a b : R) :
  unit_point (example_model a b) (paramList example_trained)
             [(Fin 1, Fin 3); (Fin 2, Fin 4)]
  = [Fin ((a - 1) / 2); Fin ((b - 2) / 2)].
Proof.
  unfold unit_point.
  change (paramList example_trained) with ["mF"; "Delta2_p"].
  rewrite example_model_values. cbn.
  unfold rescale1, F64.div, F64.sub. cbn. R_decide.
  repeat f_equal; R_close.
Qed.

Lemma prediction_outside_hull_witness :
  ∃ t,
    predict (example_model 5 3) (World example_trained ∅)
      = (t, World example_trained ∅,
         Ok (Some (denormalised_values [Fin (1 / 2); Fin (1 / 2)]
                     [Fin 20; Fin 60],
                   denormalised_errors (Fin 4) [Fin 20; Fin 60]))) ∧
    (Print "Model is outside convex hull:" ∈ t ↔
     checkHulls example_trained = true) ∧
    GPyPredictCall [unit_point (example_model 5 3)
                      (paramList example_trained)
                      [(Fin 1, Fin 3); (Fin 2, Fin 4)]] ∈ t.
Proof.
  apply (prediction_outside_hull_returns example_trained ∅
           (example_model 5 3) [(Fin 1, Fin 3); (Fin 2, Fin 4)]
           [Fin (1 / 2); Fin (1 / 2)] (Fin 4)).
  - reflexivity.
  - reflexivity.
  - apply example_model_has_keys.
  - cbn. lia.
  - apply example_GPy_predict.
  - reflexivity.
  - rewrite (check_in_hull_zip example_trained (example_model 5 3)
               [(Fin 1, Fin 3); (Fin 2, Fin 4)]);
      [|reflexivity|apply example_model_has_keys|cbn; lia].
    rewrite example_unit_point. cbn. R_decide. reflexivity.
Defined.

(* ===================================================================== *)
(** ** Paths of the saved emulators *)
(* ===================================================================== *)

Lemma list_ascii_of_string_app (s1 s2 : string) :
  list_ascii_of_string (s1 +:+ s2)
  = list_ascii_of_string s1 ++ list_ascii_of_string s2.
Proof.
  induction s1 as [|a s1 IH]; [done|].
  change (String a s1 +:+ s2) with (String a (s1 +:+ s2)).
  cbn. by rewrite IH.
Qed.

Lemma string_app_inj_r (s1 s2 t : string) : s1 +:+ t = s2 +:+ t → s1 = s2.
Proof.
  intros Heq. apply (f_equal list_ascii_of_string) in Heq.
  rewrite !list_ascii_of_string_app in Heq.
  apply app_inv_tail in Heq.
  rewrite <- (string_of_list_ascii_of_string s1).
  rewrite <- (string_of_list_ascii_of_string s2). by rewrite Heq.
Qed.

Lemma json_path_inj (s : string) (a b : nat) :
  json_path s a = json_path s b → a = b.
Proof.
  unfold json_path. intros Heq%string_app_inj_r.
  apply String.app_inj in Heq. by apply pretty_nat_inj in Heq.
Qed.

Lemma json_path_ne_npy_path (s : string) (a b : nat) :
  json_path s a ≠ npy_path s b.
Proof.
  unfold json_path, npy_path. intros Heq.
  apply (f_equal list_ascii_of_string) in Heq.
  rewrite !list_ascii_of_string_app in Heq.
  apply (f_equal (@rev _)) in Heq. rewrite !rev_app_distr in Heq.
  cbn in Heq. discriminate Heq.
Qed.

(* ===================================================================== *)
(** ** The loop over the saved emulators *)
(* ===================================================================== *)

(** The loop looks only at the files [saveString+str(k)+".json"] with
    [k] from its starting suffix on. *)
Lemma scan_saved_ext (fuel : nat) (files files' : gmap string file)
    (s : string) (ip : InitParams) (aa : nat) :
  (∀ k, aa ≤ k → files !! json_path s k = files' !! json_path s k) →
  scan_saved fuel files s ip aa = scan_saved fuel files' s ip aa.
Proof.
  revert aa. induction fuel as [|fuel IH]; intros aa Hext; cbn; [done|].
  rewrite <- (Hext aa) by lia.
  destruct (files !! json_path s aa) as [f|]; [|done].
  destruct (json_load f) as [j|]; [|done].
  destruct (json_eq j ip); [done|].
  apply IH. intros k Hk. apply Hext. lia.
Qed.

(** The loop ends: a file system holds finitely many files, and every
    iteration finds one more of them. *)
Lemma scan_saved_ends (fuel : nat) (files : gmap string file)
    (s : string) (ip : InitParams) (aa : nat) :
  size files < fuel → is_Some (scan_saved fuel files s ip aa).
Proof.
  revert files aa. induction fuel as [|fuel IH]; intros files aa Hsize;
    [lia|]. cbn.
  destruct (files !! json_path s aa) as [f|] eqn:Hf; [|by eexists].
  destruct (json_load f) as [j|]; [|by eexists].
  destruct (json_eq j ip); [by eexists|].
  rewrite (scan_saved_ext fuel files (delete (json_path s aa) files)).
  - apply IH. rewrite map_size_delete_Some by (by eexists).
    assert (size files ≠ 0) as Hne.
    { apply map_size_ne_0_lookup. by exists (json_path s aa), f. }
    revert Hsize Hne. generalize (size files). intros [|n]; cbn; lia.
  - intros k Hk. rewrite lookup_delete_ne; [done|].
    intros Heq%json_path_inj. lia.
Qed.

(** More fuel does not change the end of a loop that ended. *)
Lemma scan_saved_fuel (fuel fuel' : nat) (files : gmap string file)
    (s : string) (ip : InitParams) (aa : nat) (r : result scan_end) :
  scan_saved fuel files s ip aa = Some r → fuel ≤ fuel' →
  scan_saved fuel' files s ip aa = Some r.
Proof.
  revert fuel' aa. induction fuel as [|fuel IH]; intros fuel' aa; cbn;
    [done|].
  intros Hscan Hle. destruct fuel' as [|fuel']; [lia|]. cbn.
  destruct (files !! json_path s aa) as [f|]; [|done].
  destruct (json_load f) as [j|]; [|done].
  destruct (json_eq j ip); [done|].
  apply IH; [done|lia].
Qed.

(** What the end of the loop says about the files. *)
Lemma scan_saved_Matched (fuel : nat) (files : gmap string file)
    (s : string) (ip : InitParams) (aa k : nat) :
  scan_saved fuel files s ip aa = Some (Ok (Matched k)) →
  aa ≤ k ∧ files !! json_path s k = Some (JsonFile (JInitParams ip)).
Proof.
  revert aa. induction fuel as [|fuel IH]; intros aa; cbn; [done|].
  destruct (files !! json_path s aa) as [f|] eqn:Hf; [|done].
  destruct f as [j| |]; cbn; [|done..].
  destruct (json_eq j ip) eqn:Heq.
  - intros [= <-]. split; [lia|].
    destruct j as [d|]; [|done]. cbn in Heq.
    apply bool_decide_eq_true in Heq. by subst.
  - intros Hscan%IH. split; [lia|apply Hscan].
Qed.

Lemma scan_saved_Unused (fuel : nat) (files : gmap string file)
    (s : string) (ip : InitParams) (aa k : nat) :
  scan_saved fuel files s ip aa = Some (Ok (Unused k)) →
  aa ≤ k ∧ k - aa < fuel ∧ files !! json_path s k = None ∧
  ∀ i, aa ≤ i < k →
    ∃ j, files !! json_path s i = Some (JsonFile j) ∧ json_eq j ip = false.
Proof.
  revert aa. induction fuel as [|fuel IH]; intros aa; cbn; [done|].
  destruct (files !! json_path s aa) as [f|] eqn:Hf.
  - destruct f as [j| |]; cbn; [|done..].
    destruct (json_eq j ip) eqn:Heq; [done|].
    intros (Hle & Hfuel & Hnone & Hbefore)%IH.
    split; [lia|]. split; [lia|]. split; [done|].
    intros i Hi. destruct (decide (i = aa)) as [->|Hne]; [by exists j|].
    apply Hbefore. lia.
  - intros [= <-]. split; [lia|]. split; [lia|]. split; [done|].
    intros i Hi. lia.
Qed.

(** With no matching dictionary in any of the files, the loop finds no
    match. *)
Lemma scan_saved_no_match (fuel : nat) (files : gmap string file)
    (s : string) (ip : InitParams) (aa k : nat) :
  (∀ i, files !! json_path s i ≠ Some (JsonFile (JInitParams ip))) →
  scan_saved fuel files s ip aa ≠ Some (Ok (Matched k)).
Proof.
  intros Hno Hscan. apply scan_saved_Matched in Hscan as [_ Hk].
  by apply (Hno k).
Qed.

(** A matching dictionary at the suffix [k], and dictionaries that do not
    match before it: the loop ends there. *)
Lemma scan_saved_finds (fuel : nat) (files : gmap string file)
    (s : string) (ip : InitParams) (aa k : nat) :
  aa ≤ k → k - aa < fuel →
  files !! json_path s k = Some (JsonFile (JInitParams ip)) →
  (∀ i, aa ≤ i < k →
     ∃ j, files !! json_path s i = Some (JsonFile j) ∧ json_eq j ip = false) →
  scan_saved fuel files s ip aa = Some (Ok (Matched k)).
Proof.
  revert aa. induction fuel as [|fuel IH]; intros aa Hle Hfuel Hk Hbefore;
    [lia|]. cbn.
  destruct (decide (aa = k)) as [->|Hne].
  - rewrite Hk. cbn. by rewrite bool_decide_eq_true_2.
  - destruct (Hbefore aa) as (j & Hj & Hneq); [lia|].
    rewrite Hj. cbn. rewrite Hneq.
    apply IH; [lia|lia|done|]. intros i Hi. apply Hbefore. lia.
Qed.

(* ===================================================================== *)
(** ** Saving *)
(* ===================================================================== *)

Lemma saved_at_json (e : GPEmulator) (k i : nat) (files : gmap string file) :
  saved_at e k files !! json_path (save_string e) i
  = if decide (i = k) then Some (JsonFile (JInitParams (init_params e)))
    else files !! json_path (save_string e) i.
Proof.
  unfold saved_at.
  rewrite lookup_insert_ne by (intros Heq; symmetry in Heq;
                               by apply json_path_ne_npy_path in Heq).
  case_decide as Hi.
  - subst. by rewrite lookup_insert_eq.
  - rewrite lookup_insert_ne; [done|]. intros Heq%json_path_inj. done.
Qed.

(** A save of a trained emulator on a standard archive, by the end of
    its loop. *)
Lemma saveEmulator_run (fuel : nat) (e : GPEmulator)
    (files : gmap string file) (r : result scan_end) :
  trained e = true → custom_arxiv e = false →
  truthy (max_arxiv_size e) = false →
  scan_saved fuel files (save_string e) (init_params e) 1 = Some r →
  saveEmulator fuel (World e files)
  = Some match r with
         | Raise ex => ([], World e files, Raise ex)
         | Ok (Matched _) =>
             (if verbose e then [Print "This emulator is already saved."]
              else [], World e files, Ok tt)
         | Ok (Unused k) =>
             ([FileWrite (json_path (save_string e) k);
               FileWrite (npy_path (save_string e) k)]
              ++ (if verbose e then [Print "Model saved as %s.npy"] else []),
              World e (saved_at e k files), Ok tt)
         end.
Proof.
  intros Htr Hcustom Hmax Hscan. unfold saveEmulator. cbn.
  rewrite Htr, Hcustom, Hmax, Hscan. cbn.
  destruct r as [[k|k]|ex]; [| |done]; by destruct (verbose e).
Qed.

(* ===================================================================== *)
(** ** Loading *)
(* ===================================================================== *)

(** A load that does not pass the checks at its start. *)
Lemma loadEmulator_refused (fuel : nat) (e : GPEmulator)
    (files : gmap string file) :
  custom_arxiv e || truthy (max_arxiv_size e) || trained e = true →
  ∃ t, loadEmulator fuel (World e files) = Some (t, World e files, Ok tt).
Proof.
  intros Hguard. unfold loadEmulator. cbn.
  destruct (custom_arxiv e || truthy (max_arxiv_size e)); [by eexists|].
  cbn in Hguard. rewrite Hguard. by eexists.
Qed.

(** A load that passes the checks, by the end of its loop. *)
Lemma loadEmulator_run (fuel : nat) (e : GPEmulator)
    (files : gmap string file) (r : result scan_end) :
  custom_arxiv e || truthy (max_arxiv_size e) || trained e = false →
  scan_saved fuel files (save_string e) (init_params e) 1 = Some r →
  loadEmulator fuel (World e files)
  = Some match r with
         | Raise ex => ([], World e files, Raise ex)
         | Ok (Unused _) =>
             (if verbose e
              then [Print "Could not find a matching emulator to load"]
              else [], World e files, Ok tt)
         | Ok (Matched k) =>
             match np_load files (npy_path (save_string e) k) with
             | Ok a =>
                 (if verbose e then [Print "Loading emulator from %s.npy"]
                  else [], World (loaded a e) files, Ok tt)
             | Raise ex => ([], World (load_interrupted e) files, Raise ex)
             end
         end.
Proof.
  intros Hguard Hscan. unfold loadEmulator. cbn.
  apply orb_false_elim in Hguard as [Hguard Htr].
  rewrite Hguard, Htr, Hscan. cbn.
  destruct r as [[k|k]|ex]; [| |done].
  - destruct (np_load files _) as [a|ex]; cbn; [|done].
    by destruct (verbose e).
  - by destruct (verbose e).
Qed.


Lemma np_load_Ok (files : gmap string file) (path : string) (a : list f64) :
  np_load files path = Ok a → files !! path = Some (NpyFile a).
Proof.
  unfold np_load. destruct (files !! path) as [[| |]|]; try done.
  by intros [= ->].
Qed.

(** The outcomes of [loadEmulator]. *)
Lemma loadEmulator_outcome (e : GPEmulator) (files : gmap string file)
    (fuel : nat) :
  size files < fuel →
  ∃ t e' r,
    loadEmulator fuel (World e files) = Some (t, World e' files, r) ∧
    (gp_param_array (gp e') ≠ gp_param_array (gp e) ∨
     trained e' ≠ trained e →
       ∃ k a,
         files !! json_path (save_string e) k
           = Some (JsonFile (JInitParams (init_params e))) ∧
         files !! npy_path (save_string e) k = Some (NpyFile a) ∧
         e' = loaded a e ∧ r = Ok tt) ∧
    ((∀ i, files !! json_path (save_string e) i
           ≠ Some (JsonFile (JInitParams (init_params e)))) →
       e' = e).
Proof.
  intros Hfuel.
  destruct (custom_arxiv e || truthy (max_arxiv_size e) || trained e)
    eqn:Hguard.
  - destruct (loadEmulator_refused fuel e files Hguard) as [t Hrun].
    exists t, e, (Ok tt). split; [done|]. split; [|done].
    intros [?|?]; done.
  - destruct (scan_saved_ends fuel files (save_string e) (init_params e) 1
                Hfuel) as [r Hscan].
    pose proof (loadEmulator_run fuel e files r Hguard Hscan) as Hrun.
    destruct r as [[k|k]|ex].
    + apply scan_saved_Matched in Hscan as [_ Hk].
      destruct (np_load files _) as [a|ex] eqn:Hload.
      * eexists _, (loaded a e), _. split; [exact Hrun|]. split.
        -- intros _. exists k, a. apply np_load_Ok in Hload. done.
        -- intros Hno. by destruct (Hno k).
      * eexists _, (load_interrupted e), _. split; [exact Hrun|]. split.
        -- intros [?|?]; done.
        -- intros Hno. by destruct (Hno k).
    + eexists _, e, _. split; [exact Hrun|]. split; [|done].
      intros [?|?]; done.
    + eexists _, e, _. split; [exact Hrun|]. split; [|done].
      intros [?|?]; done.
Qed.

(** A save by an emulator with another [drop_tau_rescalings] adds no
    dictionary of this emulator. *)
Lemma saved_at_other_flag (e e0 : GPEmulator) (files0 : gmap string file)
    (k i : nat) :
  save_string e0 = save_string e →
  drop_tau_rescalings e0 ≠ drop_tau_rescalings e →
  (∀ i, files0 !! json_path (save_string e) i
        ≠ Some (JsonFile (JInitParams (init_params e)))) →
  saved_at e0 k files0 !! json_path (save_string e) i
  ≠ Some (JsonFile (JInitParams (init_params e))).
Proof.
  intros Hs Hflag Hno0.
  rewrite <- Hs, saved_at_json. case_decide as Hi.
  - intros Heq. apply Hflag. injection Heq. intros. assumption.
  - rewrite Hs. apply Hno0.
Qed.

(** The loop over files that hold no dictionary of the configuration
    ends at a suffix that is not in use. *)
Lemma scan_not_saved (fuel : nat) (files : gmap string file) (s : string)
    (ip : InitParams) (aa : nat) :
  not_saved files s ip → size files < fuel →
  ∃ k, scan_saved fuel files s ip aa = Some (Ok (Unused k)).
Proof.
  intros Hnot Hfuel.
  destruct (scan_saved_ends fuel files s ip aa Hfuel) as [[[k|k]|ex] Hscan].
  - apply scan_saved_Matched in Hscan as [_ Hk].
    destruct (Hnot k _ Hk) as (j & [= <-] & Hneq). cbn in Hneq.
    by rewrite bool_decide_eq_true_2 in Hneq.
  - by exists k.
  - exfalso. revert aa Hscan. clear Hfuel.
    induction fuel as [|fuel IH]; intros aa; cbn; [done|].
    destruct (files !! json_path s aa) as [f|] eqn:Hf; [|done].
    destruct (Hnot aa f Hf) as (j & -> & Hneq). cbn. rewrite Hneq.
    apply IH.
Qed.

(** A load that finds readable dictionaries only, none of them equal to
    [initParams]: it returns, and leaves the object as it was. *)
Lemma loadEmulator_not_found (e : GPEmulator) (files : gmap string file)
    (fuel : nat) :
  not_saved files (save_string e) (init_params e) → size files < fuel →
  loadEmulator fuel (World e files)
  = Some (if custom_arxiv e || truthy (max_arxiv_size e)
          then [Print "Cannot load emulators with non-standard training data"]
          else if trained e
               then [Print "Cannot load an emulator after training"]
               else if verbose e
                    then [Print "Could not find a matching emulator to load"]
                    else [],
          World e files, Ok tt).
Proof.
  intros Hnot Hfuel.
  destruct (custom_arxiv e || truthy (max_arxiv_size e)) eqn:Hguard.
  { unfold loadEmulator. cbn. by rewrite Hguard. }
  destruct (trained e) eqn:Htr.
  { unfold loadEmulator. cbn. by rewrite Hguard, Htr. }
  destruct (scan_not_saved fuel files (save_string e) (init_params e) 1
              Hnot Hfuel) as [k Hscan].
  rewrite (loadEmulator_run fuel e files (Ok (Unused k))); [done| |done].
  by rewrite Hguard, Htr.
Qed.

(** A save by an emulator with another [drop_tau_rescalings], into files
    that hold no dictionary of this emulator, leaves files that hold
    none. *)
Lemma not_saved_other_flag (e e0 : GPEmulator) (files0 : gmap string file)
    (k : nat) :
  save_string e0 = save_string e →
  drop_tau_rescalings e0 ≠ drop_tau_rescalings e →
  not_saved files0 (save_string e) (init_params e) →
  not_saved (saved_at e0 k files0) (save_string e) (init_params e).
Proof.
  intros Hs Hflag Hnot i f. rewrite <- Hs, saved_at_json.
  case_decide as Hi.
  - intros [= <-]. eexists. split; [done|]. cbn.
    apply bool_decide_eq_false_2. intros Heq. apply Hflag.
    by apply (f_equal ip_drop_tau_rescalings) in Heq.
  - rewrite Hs. apply Hnot.
Qed.

(** C6.  [loadEmulator] ends, and leaves the files as they are.  If it
    changes the hyperparameters or the trained flag of the object, it has
    found a saved dictionary equal to [initParams] of the object and the
    hyperparameters are those saved under the same suffix.  If no saved
    dictionary equals [initParams], the object is left as it was (an
    emulator that was not trained stays so); and when the saved
    dictionaries are readable and none of them equals [initParams], the
    result is "not found": the method returns without an exception, and
    an emulator that passes the checks prints, when [verbose], that it
    could not find a matching emulator.  This is the case after a save by
    an emulator whose [drop_tau_rescalings] is different, into files that
    held no dictionary of the loading emulator. *)
Theorem load_needs_equal_dictionary (e : GPEmulator)
    (files : gmap string file) (fuel : nat) :
  size files < fuel →
  ∃ t e' r,
    loadEmulator fuel (World e files) = Some (t, World e' files, r) ∧
    (gp_param_array (gp e') ≠ gp_param_array (gp e) ∨
     trained e' ≠ trained e →
       ∃ k a,
         files !! json_path (save_string e) k
           = Some (JsonFile (JInitParams (init_params e))) ∧
         files !! npy_path (save_string e) k = Some (NpyFile a) ∧
         e' = loaded a e ∧ r = Ok tt) ∧
    ((∀ i, files !! json_path (save_string e) i
           ≠ Some (JsonFile (JInitParams (init_params e)))) →
       e' = e) ∧
    (∀ (e0 : GPEmulator) (files0 : gmap string file) (k : nat),
       files = saved_at e0 k files0 →
       save_string e0 = save_string e →
       drop_tau_rescalings e0 ≠ drop_tau_rescalings e →
       (∀ i, files0 !! json_path (save_string e) i
             ≠ Some (JsonFile (JInitParams (init_params e)))) →
       e' = e) ∧
    (not_saved files (save_string e) (init_params e) →
       e' = e ∧ r = Ok tt ∧
       t = if custom_arxiv e || truthy (max_arxiv_size e)
           then [Print "Cannot load emulators with non-standard training data"]
           else if trained e
                then [Print "Cannot load an emulator after training"]
                else if verbose e
                     then [Print "Could not find a matching emulator to load"]
                     else []) ∧
    (∀ (e0 : GPEmulator) (files0 : gmap string file) (k : nat),
       files = saved_at e0 k files0 →
       save_string e0 = save_string e →
       drop_tau_rescalings e0 ≠ drop_tau_rescalings e →
       not_saved files0 (save_string e) (init_params e) →
       e' = e ∧ r = Ok tt).
Proof.
  intros Hfuel.
  destruct (loadEmulator_outcome e files fuel Hfuel)
    as (t & e' & r & Hrun & Hloaded & Hnone).
  exists t, e', r. do 3 (split; [done|]).
  assert (not_saved files (save_string e) (init_params e) →
          e' = e ∧ r = Ok tt ∧
          t = if custom_arxiv e || truthy (max_arxiv_size e)
              then [Print "Cannot load emulators with non-standard training data"]
              else if trained e
                   then [Print "Cannot load an emulator after training"]
                   else if verbose e
                        then [Print "Could not find a matching emulator to load"]
                        else []) as Hnotfound.
  { intros Hnot.
    pose proof (loadEmulator_not_found e files fuel Hnot Hfuel) as Hnf.
    rewrite Hrun in Hnf. by injection Hnf as -> -> ->. }
  split; [|split; [exact Hnotfound|]].
  - intros e0 files0 k -> Hs Hflag Hno0. apply Hnone. intros i.
    by apply saved_at_other_flag.
  - intros e0 files0 k Hfiles Hs Hflag Hnot0.
    destruct Hnotfound as (He & Hr & _); [|done].
    rewrite Hfiles. by apply not_saved_other_flag.
Qed.

Lemma example_saved_is_saved_at : example_saved = saved_at example_trained 1 ∅.
Proof. reflexivity. Qed.


(** The first save into an empty directory, file by file. *)
Lemma example_first_save :
  saveEmulator 1 (World example_trained ∅)
  = Some ([FileWrite "sims/saved_emulator_1.json";
           FileWrite "sims/saved_emulator_1.npy"],
          World example_trained example_saved, Ok tt).
Proof. reflexivity. Qed.

Lemma example_saved_size : size example_saved = 2.
Proof. reflexivity. Qed.

Lemma example_saved_not_saved :
  not_saved example_saved (save_string example_loader)
            (init_params example_loader).
Proof.
  rewrite example_saved_is_saved_at.
  apply not_saved_other_flag; [reflexivity|done|].
  intros i f Hf. by rewrite lookup_empty in Hf.
Qed.

(** Saved with [drop_tau_rescalings=True], loaded with
    [drop_tau_rescalings=False]: the load returns, prints nothing (the
    emulator is not verbose) and leaves the emulator as it was. *)
Lemma load_needs_equal_dictionary_witness :
  loadEmulator 3 (World example_loader example_saved)
  = Some ([], World example_loader example_saved, Ok tt).
Proof.
  destruct (load_needs_equal_dictionary example_loader example_saved 3)
    as (t & e' & r & Hrun & _ & _ & _ & Hnot & _).
  { rewrite example_saved_size. lia. }
  destruct (Hnot example_saved_not_saved) as (He & Hr & Ht).
  rewrite He, Hr, Ht in Hrun. exact Hrun.
Defined.

(** Saved with [drop_tau_rescalings=True], loaded with
    [drop_tau_rescalings=False]: nothing is loaded. *)
Lemma example_load_other_flag :
  ∃ t r,
    loadEmulator 3 (World example_loader example_saved)
    = Some (t, World example_loader example_saved, r).
Proof.
  destruct (loadEmulator_outcome example_loader example_saved 3)
    as (t & e' & r & Hrun & _ & Hnone).
  { rewrite example_saved_size. lia. }
  exists t, r. rewrite Hrun. rewrite Hnone; [done|].
  intros i. rewrite example_saved_is_saved_at.
  apply saved_at_other_flag; [reflexivity|done|].
  intros i'. by rewrite lookup_empty.
Qed.

(* ===================================================================== *)
(** ** Properties of the nearest distance *)
(* ===================================================================== *)

(** C10.  [get_nearest_distance] starts its scan from 99.99 and replaces
    the running minimum only by a strictly smaller distance.  With finite
    rescaled values, what it returns is therefore the smallest of 99.99
    and the distances from the rescaled query point to the rows of the
    rescaled grid: it is at most 99.99 and at most every distance, it is
    99.99 or one of the distances, and it is 99.99 when every row is at
    distance 99.99 or more. *)
Theorem nearest_distance_is_capped `{Libraries} (e : GPEmulator)
    (m : gmap string f64) (limits : list (f64 * f64)) (p : list R)
    (G : list (list R)) :
  paramLimits e = Some limits →
  has_keys m (paramList e) →
  (length (paramList e) ≤ length limits)%nat →
  unit_point m (paramList e) limits = map Fin p →
  nd_rows (X_param_grid e) = fin_rows G →
  Forall (λ row, length row = length p) G →
  ∃ r,
    get_nearest_distance e m = Ok (Fin r) ∧
    r = Rnearest (9999 / 100) p G ∧
    (r <= 9999 / 100)%R ∧
    (∀ row, row ∈ G → r <= Rdistance row p)%R ∧
    (r = (9999 / 100)%R ∨ ∃ row, row ∈ G ∧ r = Rdistance row p) ∧
    ((∀ row, row ∈ G → 9999 / 100 <= Rdistance row p)%R →
     r = (9999 / 100)%R).
Proof.
  intros HpL Hkeys Hlen Hp HG Hshape.
  exists (Rnearest (9999 / 100) p G).
  split; [by eapply get_nearest_distance_fin|]. split; [done|].
  destruct (Rnearest_spec (9999 / 100) p G) as (Hle & Hall & Hin).
  do 3 (split; [done|]).
  intros Hfar. destruct Hin as [?|(row & Hrow & Heq)]; [done|].
  specialize (Hfar row Hrow). lra.
Qed.

(** A query far from the training points: mF = 301 is rescaled to 150. *)
Lemma example_far_point :
  unit_point (example_model 301 2) (paramList example_trained)
             [(Fin 1, Fin 3); (Fin 2, Fin 4)]
  = map Fin [150; 0]%R.
Proof. rewrite example_unit_point. cbn. repeat f_equal; lra. Qed.

Lemma example_unit_grid_fin :
  nd_rows (X_param_grid example_trained)
  = fin_rows [[0; 1]; [1; 0]; [1 / 2; 0]]%R.
Proof. reflexivity. Qed.

(** Every training point is at distance 149 or more from it, and the
    second one at distance 149. *)
Lemma example_far_distances (row : list R) :
  row ∈ [[0; 1]; [1; 0]; [1 / 2; 0]]%R →
  (149 <= Rdistance row [150; 0])%R.
Proof.
  intros Hrow. apply Rdistance_ge; [lra|].
  repeat (apply elem_of_cons in Hrow as [->|Hrow]);
    [| | |by apply elem_of_nil in Hrow];
    unfold Rsum; cbn; lra.
Qed.

Lemma example_nearest_distance : Rdistance [1; 0]%R [150; 0]%R = 149%R.
Proof.
  unfold Rdistance, Rsum. cbn.
  replace (0 + (1 - 150) * (1 - 150) + (0 - 0) * (0 - 0))%R
    with (149 * 149)%R by lra.
  apply sqrt_square. lra.
Qed.

Lemma nearest_distance_is_capped_witness :
  ∃ r,
    get_nearest_distance example_trained (example_model 301 2)
      = Ok (Fin r) ∧
    r = Rnearest (9999 / 100) [150; 0]%R [[0; 1]; [1; 0]; [1 / 2; 0]]%R ∧
    (r <= 9999 / 100)%R ∧
    (∀ row, row ∈ [[0; 1]; [1; 0]; [1 / 2; 0]]%R →
            r <= Rdistance row [150; 0])%R ∧
    (r = (9999 / 100)%R ∨
     ∃ row, row ∈ [[0; 1]; [1; 0]; [1 / 2; 0]]%R ∧
            r = Rdistance row [150; 0]%R) ∧
    ((∀ row, row ∈ [[0; 1]; [1; 0]; [1 / 2; 0]]%R →
             9999 / 100 <= Rdistance row [150; 0])%R →
     r = (9999 / 100)%R).
Proof.
  apply (nearest_distance_is_capped example_trained (example_model 301 2)
           [(Fin 1, Fin 3); (Fin 2, Fin 4)]).
  - reflexivity.
  - apply example_model_has_keys.
  - cbn. lia.
  - apply example_far_point.
  - apply example_unit_grid_fin.
  - repeat constructor.
Defined.

(** C9, where the code departs from it: for the model with mF = 301 the
    nearest training point is at distance 149 in the rescaled space, and
    [get_nearest_distance] returns 99.99. *)
Theorem nearest_distance_of_far_query :
  get_nearest_distance example_trained (example_model 301 2)
    = Ok (Fin (9999 / 100)) ∧
  Rdistance [1; 0]%R [150; 0]%R = 149%R ∧
  ∀ row, row ∈ [[0; 1]; [1; 0]; [1 / 2; 0]]%R →
         (149 <= Rdistance row [150; 0])%R.
Proof.
  split; [|split; [apply example_nearest_distance
                  |apply example_far_distances]].
  rewrite (get_nearest_distance_fin example_trained (example_model 301 2)
             [(Fin 1, Fin 3); (Fin 2, Fin 4)] [150; 0]%R
             [[0; 1]; [1; 0]; [1 / 2; 0]]%R);
    [|reflexivity|apply example_model_has_keys|cbn; lia
     |apply example_far_point|apply example_unit_grid_fin
     |repeat constructor].
  do 2 f_equal.
  destruct (Rnearest_spec (9999 / 100) [150; 0]%R
              [[0; 1]; [1; 0]; [1 / 2; 0]]%R) as (_ & _ & [Heq|Hrow]).
  - exact Heq.
  - destruct Hrow as (row & Hrow & Heq).
    pose proof (example_far_distances row Hrow) as Hfar.
    pose proof (Rnearest_spec (9999 / 100) [150; 0]%R
                  [[0; 1]; [1; 0]; [1 / 2; 0]]%R) as (Hle & _ & _).
    lra.
Qed.

(** The part of C9 that the code keeps: for a model whose rescaled values
    are those of a row of the rescaled grid, the distance returned is 0. *)
Lemma nearest_distance_of_training_point `{Libraries} (e : GPEmulator)
    (m : gmap string f64) (limits : list (f64 * f64)) (p : list R)
    (G : list (list R)) :
  paramLimits e = Some limits →
  has_keys m (paramList e) →
  (length (paramList e) ≤ length limits)%nat →
  unit_point m (paramList e) limits = map Fin p →
  nd_rows (X_param_grid e) = fin_rows G →
  Forall (λ row, length row = length p) G →
  p ∈ G →
  get_nearest_distance e m = Ok (Fin 0).
Proof.
  intros HpL Hkeys Hlen Hp HG Hshape Hin.
  rewrite (get_nearest_distance_fin e m limits p G) by done.
  do 2 f_equal.
  destruct (Rnearest_spec (9999 / 100) p G) as (_ & Hall & Hmin).
  pose proof (Hall p Hin) as Hle. rewrite Rdistance_self in Hle.
  destruct Hmin as [Heq|(row & _ & Heq)].
  - lra.
  - pose proof (Rdistance_nonneg row p). lra.
Qed.

(* ===================================================================== *)
(** ** The coefficients of the linear emulator *)
(* ===================================================================== *)

Section Linear.
Context `{Libraries}.

Lemma snoc_of_length {A} (l : list A) (n : nat) :
  length l = S n → ∃ l' x, l = l' ++ [x] ∧ length l' = n.
Proof.
  intros Hlen. destruct l as [|y l] using rev_ind; [done|].
  rewrite length_app in Hlen. cbn in Hlen. exists l, y. split; [done|lia].
Qed.

(** The loop fills the array from its end: after the interpolators [done]
    the entries before the filled ones are still those of the start. *)
Lemma emulate_coeffs_from (e : LinearEmulator) (point : list f64)
    (todo done : list (list f64 → f64)) (pre : list f64) :
  linterps e = done ++ todo → length pre = length todo →
  for_each (λ i coeffs,
      linterp ← or_raise (linterps e !! i) IndexError;
      if decide (length (linterps e) - i - 1 < length coeffs)%nat
      then mret (<[(length (linterps e) - i - 1)%nat := linterp point]> coeffs)
      else Raise IndexError)
    (seq (length done) (length todo))
    (pre ++ rev (map (λ f, f point) done))
  = Ok (rev (map (λ f, f point) (linterps e))).
Proof.
  revert done pre. induction todo as [|f todo IH]; intros done pre HL Hpre.
  - destruct pre; [|done]. cbn. by rewrite HL, app_nil_r.
  - cbn [length seq for_each].
    rewrite HL at 1. rewrite list_lookup_middle by done. cbn.
    destruct (snoc_of_length pre (length todo) Hpre) as (pre' & x & -> & Hpre').
    assert (length (linterps e) - length done - 1 = length pre')%nat as Hidx.
    { rewrite HL, length_app. cbn. lia. }
    rewrite Hidx. rewrite decide_True.
    2:{ rewrite !length_app. cbn. lia. }
    rewrite <- app_assoc. rewrite insert_app_r_alt by lia.
    rewrite Nat.sub_diag. cbn.
    specialize (IH (done ++ [f]) pre').
    rewrite length_app in IH. cbn in IH.
    replace (length done + 1)%nat with (S (length done)) in IH by lia.
    rewrite map_app, rev_app_distr in IH. cbn in IH.
    apply IH; [|done]. by rewrite <- app_assoc.
Qed.

Lemma emulate_coeffs_rev (e : LinearEmulator) (point : list f64)
    (junk : nat → f64) :
  emulate_coeffs e point (np_empty junk (length (linterps e)))
  = Ok (rev (map (λ f, f point) (linterps e))).
Proof.
  unfold emulate_coeffs, range.
  pose proof (emulate_coeffs_from e point (linterps e) []
                (np_empty junk (length (linterps e)))) as Hloop.
  cbn in Hloop. rewrite app_nil_r in Hloop. apply Hloop; [done|].
  unfold np_empty. by rewrite length_map, length_seq.
Qed.

End Linear.

(** C8.  For a model that holds the seven parameters and an archive whose
    first entry has its fit, [emulate_p1d_Mpc] returns [P_Mpc(k_Mpc)] of the
    [PolyP1D] object made of the coefficient array and of [kmin_Mpc] of
    that fit, where the coefficient array has one entry per interpolator
    and holds, at index [Npar-i-1], the value of interpolator [i] at the
    point of the model: the values of the interpolators in reverse
    order. *)
Theorem linear_emulator_coefficients `{Libraries} (junk : nat → f64)
    (e : LinearEmulator) (m : gmap string f64) (k_Mpc point : list f64)
    (entry0 : linear_entry) (fit : PolyP1D) :
  _point_from_model m = Ok point →
  lin_arxiv e !! 0%nat = Some entry0 →
  le_fit_p1d entry0 = Some fit →
  ∃ t coeffs,
    emulate_p1d_Mpc junk e m k_Mpc
      = (t, Ok (PolyP1D_P_Mpc (lnP_fit (MkPolyP1D coeffs (kmin_Mpc fit)))
                              (kmin_Mpc (MkPolyP1D coeffs (kmin_Mpc fit)))
                              k_Mpc)) ∧
    length coeffs = length (linterps e) ∧
    coeffs = rev (map (λ linterp, linterp point) (linterps e)) ∧
    ∀ i linterp, linterps e !! i = Some linterp →
      coeffs !! (length (linterps e) - i - 1)%nat = Some (linterp point).
Proof.
  intros Hpoint Hentry Hfit.
  exists (if lin_verbose e
          then [Print "asked to emulate model"; Print "evaluate point";
                Print "got coefficients"; Print "got poly_p1d"]
          else []),
         (rev (map (λ linterp, linterp point) (linterps e))).
  split; [|split; [|split]].
  - unfold emulate_p1d_Mpc, bind_first, mbind, Out_bind, out.
    rewrite Hpoint, emulate_coeffs_rev, Hentry. cbn. rewrite Hfit.
    destruct (lin_verbose e); cbn; reflexivity.
  - by rewrite length_rev, length_map.
  - done.
  - intros i linterp Hi.
    pose proof (lookup_lt_Some _ _ _ Hi) as Hlt.
    rewrite rev_alt. fold (reverse (map (λ linterp, linterp point) (linterps e))).
    rewrite reverse_lookup by (rewrite length_map; lia).
    rewrite length_map, list_lookup_fmap.
    replace (length (linterps e) - S (length (linterps e) - i - 1))%nat
      with i by lia.
    by rewrite Hi.
Qed.

Lemma example_linear_point :
  _point_from_model example_linear_model
  = Ok [Fin 7; Fin 1; Fin 1; Fin 1; Fin 1; Fin 1; Fin 1].
Proof. reflexivity. Qed.

Lemma linear_emulator_coefficients_witness :
  ∃ t coeffs,
    emulate_p1d_Mpc (λ _, NaN) example_linear example_linear_model
                    [Fin 1; Fin 2]
      = (t, Ok (PolyP1D_P_Mpc coeffs (1 / 1000) [Fin 1; Fin 2])) ∧
    length coeffs = 3%nat ∧
    coeffs = [Fin 7; Fin 20; Fin 10] ∧
    ∀ i linterp, linterps example_linear !! i = Some linterp →
      coeffs !! (3 - i - 1)%nat
      = Some (linterp [Fin 7; Fin 1; Fin 1; Fin 1; Fin 1; Fin 1; Fin 1]).
Proof.
  exact (linear_emulator_coefficients (λ _, NaN) example_linear
           example_linear_model [Fin 1; Fin 2] _ _ _
           example_linear_point eq_refl eq_refl).
Defined.

(* ===================================================================== *)
(** ** The example archive, built and trained *)
(* ===================================================================== *)

Lemma example_limits :
  _get_param_limits (Ndarray2 2 (fin_rows example_grid))
  = Ok [(Fin 1, Fin 3); (Fin 2, Fin 4)].
Proof. cbn. by R_decide. Qed.

Lemma example_medians : np_median_axis0 example_targets = Ok [Fin 20; Fin 60].
Proof.
  unfold np_median_axis0, range. cbn -[np_median].
  change [Fin 10; Fin 30; Fin 20] with (map Fin [10; 30; 20]%R).
  change [Fin 20; Fin 60; Fin 80] with (map Fin [20; 60; 80]%R).
  rewrite (np_median_sorted [10; 30; 20]%R [10; 20; 30]%R).
  - rewrite (np_median_sorted [20; 60; 80]%R [20; 60; 80]%R).
    + reflexivity.
    + done.
    + done.
    + repeat constructor; lra.
  - done.
  - apply perm_skip, perm_swap.
  - repeat constructor; lra.
Qed.

(** Building and training the emulator on the example archive gives,
    once [__init__] has set the hull, the object [example_trained]. *)
Lemma example_build_and_train :
  ∃ t w',
    (_build_interp;; train) (World example_new ∅) = (t, w', Ok tt) ∧
    set_hull (X_param_grid (self w')) (self w') = example_trained.
Proof.
  destruct (_build_interp_run (World example_new ∅) _ _ _ _
              [(Fin 1, Fin 3); (Fin 2, Fin 4)] example_buildTrainingSets)
    as (t & sf & Hsf & Hrun).
  - exact example_limits.
  - cbn. lia.
  - rewrite example_medians in Hsf. injection Hsf as <-.
    eexists _, _. split.
    + eapply Py_bind_run; [exact Hrun|reflexivity].
    + cbn. unfold set_hull, example_trained, example_unit_grid. cbn.
      unfold set_gp_param_array, set_gp_initialized. cbn.
      unfold rescale1, F64.div, F64.sub. cbn. R_decide.
      repeat f_equal; R_close.
Qed.

(* ===================================================================== *)
(** ** What the construction of the grids keeps *)
(* ===================================================================== *)

Section BuildInversion.
Context `{Libraries}.

Lemma mapM_Raise_inv {A B} (f : A → result B) (l : list A) (ex : exn) :
  mapM f l = Raise ex → ∃ x, x ∈ l ∧ f x = Raise ex.
Proof.
  induction l as [|x l IH]; cbn; [done|].
  destruct (f x) as [y|ex'] eqn:Hx; cbn.
  - destruct (mapM f l) as [k|ex'] eqn:Hl; cbn; [done|].
    intros [= ->]. destruct IH as (x' & Hin & Hx'); [done|].
    exists x'. split; [by right|done].
  - intros [= ->]. exists x. split; [left|done].
Qed.

(** The first element on which the function raises decides the
    exception of [mapM]. *)
Lemma mapM_Raise_first {A B} (f : A → result B) (l1 l2 : list A) (x : A)
    (ex : exn) :
  (∀ y, y ∈ l1 → ∃ b, f y = Ok b) → f x = Raise ex →
  mapM f (l1 ++ x :: l2) = Raise ex.
Proof.
  intros Hok Hx. induction l1 as [|y l1 IH]; cbn.
  - by rewrite Hx.
  - destruct (Hok y) as [b ->]; [left|]. cbn.
    rewrite IH; [done|]. intros z Hz. apply Hok. by right.
Qed.

Lemma fitted_scalars (g : entry → result (list f64)) (l l' : list entry) :
  mapM (λ en, c ← g en; mret (set_fit_p1d c en)) l = Ok l' →
  map e_scalars l' = map e_scalars l.
Proof.
  intros Hm%mapM_Ok_Forall2.
  induction Hm as [|en en' l l' Hen _ IH]; [done|].
  cbn. rewrite IH. f_equal.
  apply bind_Ok in Hen as (c & _ & [= <-]). done.
Qed.

Lemma _training_points_self (w w1 : world) t Y :
  (if decide (emu_type (self w) = "k_bin") then _training_points_k_bin
   else if decide (emu_type (self w) = "polyfit")
        then _training_points_polyfit
        else print "Unknown emulator type, terminating";;
             lift (Raise SystemExit)) w = (t, w1, Ok Y) →
  self w1 = set_arxiv (arxiv (self w1)) (self w) ∧
  map e_scalars (arxiv (self w1)) = map e_scalars (arxiv (self w)) ∧
  nd_cols Y = (if decide (emu_type (self w) = "k_bin")
               then k_bin (self w) else 5%nat).
Proof.
  intros Hrun. repeat case_decide.
  - unfold _training_points_k_bin in Hrun. py_inv.
    split; [by destruct (self w)|]. by split.
  - unfold _training_points_polyfit, _fit_p1d_in_arxiv in Hrun. py_inv.
    cbn. split; [done|]. split; [|done].
    match goal with Hm : mapM _ (arxiv (self w)) = Ok ?a |- _ =>
      apply (fitted_scalars
               (λ en, PolyP1D_fit (e_k_Mpc en) (e_p1d_Mpc en) (1 / 1000)
                                  (kmax_Mpc (self w)) 4)) in Hm
    end.
    done.
  - py_inv. done.
Qed.

(** The grid of parameters: a row per entry, the values of the entry
    under the names of [paramList].  Only the archive of the object may
    have changed (it received the fits), and not its scalars. *)
Lemma _buildTrainingSets_grid (w w1 : world) t X Y :
  _buildTrainingSets w = (t, w1, Ok (X, Y)) →
  self w1 = set_arxiv (arxiv (self w1)) (self w) ∧
  map e_scalars (arxiv (self w1)) = map e_scalars (arxiv (self w)) ∧
  nd_cols Y = (if decide (emu_type (self w) = "k_bin")
               then k_bin (self w) else 5%nat) ∧
  nd_cols X = length (paramList (self w)) ∧
  mapM (λ en,
     mapM (λ par, or_raise (e_scalars en !! par) (KeyError par))
          (paramList (self w)))
    (arxiv (self w1)) = Ok (nd_rows X).
Proof.
  unfold _buildTrainingSets. intros Hrun. py_inv.
  match goal with Hm : mapM _ _ = Ok _ |- _ => rename Hm into Hrows end.
  match goal with Hm : _ w = (_, _, Ok _) |- _ =>
    pose proof (_training_points_inv _ _ _ _ Hm) as (_ & Hcfg & _);
    apply _training_points_self in Hm as (Hself & Hsc & HY)
  end.
  rewrite Hcfg in Hrows. subst. cbn. rewrite Hcfg. done.
Qed.

End BuildInversion.

Section BuildInterpInversion.
Context `{Libraries}.

Lemma mapM_Ok_elem {A B} (f : A → result B) (l : list A) (k : list B)
    (x : A) :
  mapM f l = Ok k → x ∈ l → ∃ y, f x = Ok y.
Proof.
  intros Hm%mapM_Ok_Forall2 Hx.
  apply list_elem_of_lookup in Hx as [i Hi].
  destruct (Forall2_lookup_l _ _ _ _ _ Hm Hi) as (y & _ & Hy). eauto.
Qed.

(** [_rescale_params] returns exactly when there is a pair of limits for
    every entry of the row. *)
Lemma _rescale_params_Ok_inv (params : list f64) (limits : list (f64 * f64))
    (r : list f64) :
  _rescale_params params limits = Ok r →
  (length params ≤ length limits)%nat ∧ r = zip_with rescale1 params limits.
Proof.
  intros Hr.
  destruct (decide (length params ≤ length limits)%nat) as [Hle|Hgt].
  - rewrite _rescale_params_zip in Hr by done. by injection Hr as <-.
  - exfalso. unfold _rescale_params in Hr.
    rewrite (for_each_update IndexError
               (λ aa x, lim ← or_raise (limits !! aa) IndexError;
                        mret (rescale1 x lim))) in Hr.
    2:{ intros i s. cbn. destruct (s !! i); cbn; [|done].
        by destruct (limits !! i). }
    destruct (lookup_lt_is_Some_2 params (length limits)) as [x Hx]; [lia|].
    destruct (mapM_Ok_elem _ _ _ (length limits, x) Hr) as [y Hy].
    + unfold enumerate, range. apply list_elem_of_lookup.
      exists (length limits). apply lookup_zip_with_Some.
      exists (length limits), x. split; [done|]. split; [|done].
      apply lookup_seq. lia.
    + cbn in Hy. rewrite lookup_ge_None_2 in Hy by lia. done.
Qed.

Lemma rescale_grid_Ok_inv (limits : list (f64 * f64))
    (rows rows' : list (list f64)) :
  rescale_grid (length rows) limits rows = Ok rows' →
  rows' = map (λ row, zip_with rescale1 row limits) rows ∧
  Forall (λ row, length row ≤ length limits)%nat rows.
Proof.
  intros Hr. unfold rescale_grid in Hr.
  rewrite (for_each_update IndexError
             (λ _ row, _rescale_params row limits)) in Hr.
  2:{ intros i s. cbn. by destruct (s !! i). }
  assert (Forall (λ row, length row ≤ length limits)%nat rows) as Hlen.
  { apply Forall_forall. intros row Hrow.
    apply list_elem_of_lookup in Hrow as [i Hi].
    destruct (mapM_Ok_elem _ _ _ (i, row) Hr) as [y Hy].
    - unfold enumerate, range. apply list_elem_of_lookup. exists i.
      apply lookup_zip_with_Some. exists i, row. split; [done|].
      split; [|done]. apply lookup_seq. split; [done|].
      by eapply lookup_lt_Some.
    - cbn in Hy. by apply _rescale_params_Ok_inv in Hy as [? _]. }
  split; [|done].
  pose proof (rescale_grid_map limits rows Hlen) as Hmap.
  unfold rescale_grid in Hmap.
  rewrite (for_each_update IndexError
             (λ _ row, _rescale_params row limits)) in Hmap.
  2:{ intros i s. cbn. by destruct (s !! i). }
  rewrite Hmap in Hr. by injection Hr as <-.
Qed.

(** [_build_interp], forwards: as soon as every row of the grid has its
    limits. *)
Lemma _build_interp_forward (w w1 : world) t1 X Y limits :
  _buildTrainingSets w = (t1, w1, Ok (X, Y)) →
  match paramLimits (self w) with
  | None => _get_param_limits X
  | Some l => Ok l
  end = Ok limits →
  Forall (λ row, length row ≤ length limits)%nat (nd_rows X) →
  ∃ t sf,
    np_median_axis0 Y = Ok sf ∧
    _build_interp w
    = (t, World (built (self w1) X Y limits sf) (fs w), Ok tt).
Proof.
  intros Hbts Hlim Hlen.
  destruct (_buildTrainingSets_inv _ _ _ _ _ Hbts)
    as (Hfs & Hcfg & HpL & Hcols & HrowsX & HrowsY & HshX & HshY).
  destruct (np_median_axis0_returns Y HshY) as (sf & Hsf & Hsflen & _).
  assert (rescale_grid (length (arxiv (self w1))) limits (nd_rows X)
          = Ok (map (λ row, zip_with rescale1 row limits) (nd_rows X)))
    as Hgrid.
  { rewrite <- HrowsX. by apply rescale_grid_map. }
  pose proof (normspectra_run Y sf HshY Hsflen) as Hnorm.
  exists (t1 ++ (if verbose (self w1)
                 then [Print "Rescaled params to unity volume"] else [])),
         sf.
  split; [done|].
  unfold _build_interp.
  unfold bind_first, mbind, Py_bind in Hnorm |- *. rewrite Hbts.
  cbn [update_self get_self self fs set_X_param_grid paramLimits].
  rewrite HpL.
  destruct (paramLimits (self w)) as [l|] eqn:HL.
  - injection Hlim as ->.
    cbn -[rescale_grid np_median_axis0 mapM broadcast].
    rewrite Hgrid.
    cbn -[rescale_grid np_median_axis0 mapM broadcast].
    destruct (verbose (self w1));
      cbn -[rescale_grid np_median_axis0 mapM broadcast];
      rewrite Hsf; cbn -[rescale_grid np_median_axis0 mapM broadcast];
      rewrite Hnorm; cbn; rewrite Hfs, ?app_nil_r;
      unfold built, set_gp, set_scalefactors, set_X_param_grid; cbn;
      rewrite HpL; reflexivity.
  - cbn -[rescale_grid np_median_axis0 mapM broadcast _get_param_limits].
    rewrite Hlim.
    cbn -[rescale_grid np_median_axis0 mapM broadcast].
    rewrite Hgrid.
    cbn -[rescale_grid np_median_axis0 mapM broadcast].
    destruct (verbose (self w1));
      cbn -[rescale_grid np_median_axis0 mapM broadcast];
      rewrite Hsf; cbn -[rescale_grid np_median_axis0 mapM broadcast];
      rewrite Hnorm; cbn; rewrite Hfs, ?app_nil_r; reflexivity.
Qed.

(** A construction that returned: the grids, the limits and the scale
    factors it went through, the object it left and what it printed. *)
Lemma _build_interp_inv (w w' : world) t :
  _build_interp w = (t, w', Ok tt) →
  ∃ t1 w1 X Y limits sf,
    _buildTrainingSets w = (t1, w1, Ok (X, Y)) ∧
    match paramLimits (self w) with
    | None => _get_param_limits X
    | Some l => Ok l
    end = Ok limits ∧
    Forall (λ row, length row ≤ length limits)%nat (nd_rows X) ∧
    np_median_axis0 Y = Ok sf ∧
    w' = World (built (self w1) X Y limits sf) (fs w).
Proof.
  intros Hrun. pose proof Hrun as Hrun0. unfold _build_interp in Hrun.
  apply Py_bind_Ok_inv in Hrun as (t1 & w1 & [X Y] & t2 & Hbts & Hrun & ->).
  destruct (_buildTrainingSets_inv _ _ _ _ _ Hbts)
    as (Hfs & Hcfg & HpL & Hcols & HrowsX & HrowsY & HshX & HshY).
  exists t1, w1, X, Y.
  apply Py_bind_Ok_inv in Hrun as (? & ? & ? & ? & Hset & Hrun & ->).
  unfold update_self in Hset. injection Hset as <- <- <-.
  apply Py_bind_Ok_inv in Hrun as (? & ? & e & ? & Hget & Hrun & ->).
  unfold get_self in Hget. injection Hget as <- <- <-.
  apply Py_bind_Ok_inv in Hrun as (? & w3 & limits & ? & Hlim & Hrun & ->).
  apply Py_bind_Ok_inv in Hrun as (? & ? & rows & ? & Hgrid & _ & ->).
  apply lift_Ok_inv in Hgrid as (Hgrid & -> & ->).
  cbn in Hgrid, Hlim. rewrite <- HrowsX in Hgrid.
  apply rescale_grid_Ok_inv in Hgrid as [_ Hlen].
  assert (match paramLimits (self w) with
          | None => _get_param_limits X
          | Some l => Ok l
          end = Ok limits) as Hlimits.
  { rewrite <- HpL. destruct (paramLimits (self w1)) as [l|].
    - unfold mret, Py_ret in Hlim. by injection Hlim as <- <- <-.
    - py_inv. done. }
  destruct (_build_interp_forward w w1 t1 X Y limits Hbts Hlimits Hlen)
    as (t' & sf & Hsf & Hfwd).
  exists limits, sf. do 4 (split; [done|]).
  rewrite Hfwd in Hrun0. by injection Hrun0.
Qed.

End BuildInterpInversion.

(* ===================================================================== *)
(** ** The object after its grids are built *)
(* ===================================================================== *)

(** What [_build_interp] leaves when it returns. *)
Lemma _build_interp_leaves `{Libraries} (w w' : world) (t : list event) :
  (∀ l, paramLimits (self w) = Some l →
        length l = length (paramList (self w))) →
  _build_interp w = (t, w', Ok tt) →
  consistent (self w') ∧
  config (self w') = config (self w) ∧
  fs w' = fs w ∧
  trained (self w') = trained (self w) ∧
  length (scalefactors (self w'))
    = (if decide (emu_type (self w) = "k_bin")
       then k_bin (self w) else 5%nat) ∧
  map e_scalars (arxiv (self w')) = map e_scalars (arxiv (self w)).
Proof.
  intros Hgiven Hrun.
  destruct (_build_interp_inv w w' t Hrun)
    as (t1 & w1 & X & Y & limits & sf & Hbts & Hlim & Hlen & Hsf & ->).
  destruct (_buildTrainingSets_inv _ _ _ _ _ Hbts)
    as (Hfs & Hcfg & HpL & Hcols & HrowsX & HrowsY & HshX & HshY).
  destruct (_buildTrainingSets_grid _ _ _ _ _ Hbts)
    as (Hself & Hsc & HYcols & _ & _).
  destruct (np_median_axis0_returns Y HshY) as (sf' & Hsf' & Hsflen & _).
  rewrite Hsf in Hsf'. injection Hsf' as <-.
  assert (length limits = length (paramList (self w))) as Hlimlen.
  { destruct (paramLimits (self w)) as [l|] eqn:HL.
    - injection Hlim as <-. by apply Hgiven.
    - apply mapM_Ok_length in Hlim. unfold range in Hlim.
      rewrite length_seq in Hlim. lia. }
  assert (trained (self w1) = trained (self w)) as Htr
    by (rewrite Hself; done).
  split; [|cbn; rewrite Hcfg, Htr, Hsflen, HYcols; done].
  unfold well_shaped in HshX, HshY.
  constructor; cbn.
  - exists limits. by rewrite Hcfg.
  - unfold well_shaped. cbn. rewrite Forall_fmap.
    rewrite Forall_forall in HshX, Hlen |- *. intros row Hrow. cbn.
    pose proof (HshX row Hrow). pose proof (Hlen row Hrow).
    rewrite length_zip_with. lia.
  - by rewrite Hcfg.
  - by rewrite length_map.
  - done.
  - by rewrite length_map.
  - rewrite Forall_fmap. eapply Forall_impl; [exact HshY|].
    cbn. intros row Hrow. rewrite length_zip_with. lia.
Qed.

(** X1.  [_build_interp] leaves a consistent object: when it returns (with
    limits it computes, or with given limits, one pair per parameter),
    there is one pair of limits per parameter, the stored grid has a row
    per entry of the archive and a column per parameter, the Gaussian
    process holds that grid and a row of normalised targets per entry, and
    there is a scale factor per target: [k_bin] of them for the ["k_bin"]
    emulator and 5 for the ["polyfit"] one.  The configuration, the files,
    the trained flag and the scalars of the archive are as before. *)
Theorem build_interp_consistent `{Libraries} (w w' : world) (t : list event) :
  (∀ l, paramLimits (self w) = Some l →
        length l = length (paramList (self w))) →
  _build_interp w = (t, w', Ok tt) →
  consistent (self w') ∧
  config (self w') = config (self w) ∧
  fs w' = fs w ∧
  trained (self w') = trained (self w) ∧
  length (scalefactors (self w'))
    = (if decide (emu_type (self w) = "k_bin")
       then k_bin (self w) else 5%nat) ∧
  map e_scalars (arxiv (self w')) = map e_scalars (arxiv (self w)).
Proof. apply _build_interp_leaves. Qed.


Lemma example_build_run :
  ∃ t w', _build_interp (World example_new ∅) = (t, w', Ok tt).
Proof.
  destruct (_build_interp_run (World example_new ∅) _ _ _ _
              [(Fin 1, Fin 3); (Fin 2, Fin 4)] example_buildTrainingSets)
    as (t & sf & _ & Hrun); [exact example_limits|cbn; lia|eauto].
Qed.

Lemma build_interp_consistent_witness :
  ∃ t w', _build_interp (World example_new ∅) = (t, w', Ok tt) ∧
          consistent (self w') ∧ length (scalefactors (self w')) = 2%nat.
Proof.
  destruct example_build_run as (t & w' & Hrun). exists t, w'.
  split; [exact Hrun|].
  destruct (build_interp_consistent (World example_new ∅) w' t)
    as (Hc & _ & _ & _ & Hsf & _).
  - intros l Hl. discriminate Hl.
  - exact Hrun.
  - split; [exact Hc|exact Hsf].
Defined.

(* ===================================================================== *)
(** ** The dictionary of a training point *)
(* ===================================================================== *)

Section ParamDict.
Context `{Libraries}.

Lemma py_position_lt (len : nat) (n : Z) (i : nat) :
  py_position len n = Some i → (i < len)%nat.
Proof.
  unfold py_position. repeat case_decide; intros [= <-]; lia.
Qed.

Lemma py_position_is_Some (len : nat) (n : Z) :
  (- Z.of_nat len ≤ n < Z.of_nat len)%Z → is_Some (py_position len n).
Proof.
  intros Hn. unfold py_position. repeat case_decide; eauto; lia.
Qed.

Lemma py_getitem_position {A} (l : list A) (n : Z) (i : nat) :
  py_position (length l) n = Some i →
  ∃ x, l !! i = Some x ∧ py_getitem l n = Ok x.
Proof.
  intros Hpos. destruct (lookup_lt_is_Some_2 l i) as [x Hx].
  { by eapply py_position_lt. }
  exists x. split; [done|]. unfold py_getitem. rewrite Hpos. cbn.
  by rewrite Hx.
Qed.

(** The dictionary filled with the values of [sc] under [pars]. *)
Lemma filled_lookup (sc : gmap string f64) (pars : list string)
    (acc : gmap string f64) (q : string) :
  foldl (λ d par, <[par := default NaN (sc !! par)]> d) acc pars !! q
  = if decide (q ∈ pars) then Some (default NaN (sc !! q)) else acc !! q.
Proof.
  revert acc. induction pars as [|p pars IH]; intros acc; cbn.
  - rewrite decide_False; [done|]. apply not_elem_of_nil.
  - rewrite IH. destruct (decide (q ∈ pars)) as [Hin|Hin].
    + rewrite decide_True; [done|]. by right.
    + destruct (decide (q = p)) as [->|Hne].
      * rewrite lookup_insert_eq. rewrite decide_True; [done|]. left.
      * rewrite lookup_insert_ne by done. rewrite decide_False; [done|].
        by intros [?|?]%elem_of_cons.
Qed.

Lemma for_each_Ok_foldl {A S} (f : A → S → result S) (g : S → A → S)
    (l : list A) (s : S) :
  (∀ x s, x ∈ l → f x s = Ok (g s x)) →
  for_each f l s = Ok (foldl g s l).
Proof.
  revert s. induction l as [|x l IH]; intros s Hf; cbn [for_each foldl];
    [done|].
  rewrite Hf by left. cbn. apply IH. intros y s' Hy. apply Hf. by right.
Qed.

Lemma get_param_dict_loop (data : list entry) (n : Z) (en : entry)
    (pars : list string) (acc : gmap string f64) :
  py_getitem data n = Ok en →
  Forall (λ par, is_Some (e_scalars en !! par)) pars →
  for_each (λ param model_dict,
      en ← py_getitem data n;
      v ← or_raise (e_scalars en !! param) (KeyError param);
      mret (<[param := v]> model_dict)) pars acc
  = Ok (foldl (λ d par, <[par := default NaN (e_scalars en !! par)]> d)
              acc pars).
Proof.
  intros Hen Hkeys. apply for_each_Ok_foldl. intros p s Hp.
  rewrite Forall_forall in Hkeys. destruct (Hkeys p Hp) as [v Hv].
  rewrite Hen. cbn. by rewrite Hv.
Qed.

(** The row of the grid of an entry that holds every parameter. *)
Lemma grid_row_values (sc : gmap string f64) (pars : list string)
    (raw : list f64) :
  mapM (λ par, or_raise (sc !! par) (KeyError par)) pars = Ok raw →
  Forall (λ par, is_Some (sc !! par)) pars ∧
  raw = map (λ par, default NaN (sc !! par)) pars.
Proof.
  revert raw. induction pars as [|p pars IH]; intros raw; cbn.
  - by intros [= <-].
  - destruct (sc !! p) as [v|] eqn:Hv; cbn; [|done].
    destruct (mapM _ pars) as [raw'|] eqn:Hm; cbn; [|done].
    intros [= <-]. destruct (IH raw' eq_refl) as [Hkeys ->].
    split; [|done]. constructor; [by rewrite Hv|done].
Qed.

(** The dictionary of the training point at a position of the archive of
    a built emulator, and the row of the stored grid at that position. *)
Lemma param_dict_row (w w1 w' : world) t1 t X Y limits (n : Z) (i : nat) :
  _buildTrainingSets w = (t1, w1, Ok (X, Y)) →
  _build_interp w = (t, w', Ok tt) →
  paramLimits (self w') = Some limits →
  py_position (length (arxiv (self w'))) n = Some i →
  ∃ m raw,
    get_param_dict (self w') n = Ok m ∧
    dom m = list_to_set (paramList (self w')) ∧
    has_keys m (paramList (self w')) ∧
    nd_rows X !! i = Some raw ∧
    values m (paramList (self w')) = raw ∧
    nd_rows (X_param_grid (self w')) !! i
      = Some (zip_with rescale1 raw limits) ∧
    return_unit_call (self w') m = Ok (zip_with rescale1 raw limits).
Proof.
  intros Hbts Hrun HpL Hpos.
  destruct (_build_interp_inv w w' t Hrun)
    as (t1' & w1' & X' & Y' & limits' & sf & Hbts' & Hlim & Hlen & Hsf & ->).
  rewrite Hbts in Hbts'. injection Hbts' as <- <- <- <-.
  cbn in HpL. injection HpL as ->.
  destruct (_buildTrainingSets_inv _ _ _ _ _ Hbts)
    as (Hfs & Hcfg & HpL1 & Hcols & HrowsX & HrowsY & HshX & HshY).
  destruct (_buildTrainingSets_grid _ _ _ _ _ Hbts)
    as (Hself & Hsc & HYcols & _ & Hgrid).
  cbn [self] in Hpos |- *.
  set (pars := paramList (self w)) in *.
  set (e' := built (self w1) X Y limits sf) in *.
  assert (paramList e' = pars) as Hpars by (unfold e'; cbn; by rewrite Hcfg).
  assert (arxiv e' = arxiv (self w1)) as Harx by done.
  assert (paramLimits e' = Some limits) as HpL' by done.
  assert (nd_rows (X_param_grid e')
          = map (λ row, zip_with rescale1 row limits) (nd_rows X)) as HX'
    by done.
  clearbody e'. rewrite Harx in Hpos. rewrite Hpars.
  destruct (py_getitem_position _ _ _ Hpos) as (en & Hen & Hget).
  destruct (mapM_Ok_lookup _ _ _ _ _ Hgrid Hen) as (raw & Hraw & Hrow).
  apply grid_row_values in Hrow as [Hkeys ->].
  set (m := foldl (λ (d : gmap string f64) par,
                     <[par := default NaN (e_scalars en !! par)]> d)
                  ∅ pars).
  assert (∀ q, q ∈ pars → m !! q = Some (default NaN (e_scalars en !! q)))
    as Hm.
  { intros q Hq. unfold m. rewrite filled_lookup. by rewrite decide_True. }
  assert (values m pars = map (λ par, default NaN (e_scalars en !! par)) pars)
    as Hvalues.
  { unfold values. apply map_ext_in. intros q Hq%list_elem_of_In.
    by rewrite (Hm q Hq). }
  assert (has_keys m pars) as Hhas.
  { unfold has_keys. rewrite Forall_forall. intros q Hq.
    rewrite (Hm q Hq). eauto. }
  exists m, (map (λ par, default NaN (e_scalars en !! par)) pars).
  split.
  { unfold get_param_dict. rewrite Hpars, Harx.
    by apply get_param_dict_loop. }
  split.
  { apply set_eq. intros q. rewrite elem_of_dom.
    rewrite elem_of_list_to_set. unfold m. rewrite filled_lookup.
    destruct (decide (q ∈ pars)) as [Hq|Hq]; [split; [done|eauto]|].
    rewrite lookup_empty. split; [by intros [? ?]|done]. }
  do 3 (split; [done|]). split.
  { rewrite HX', list_lookup_fmap, Hraw. done. }
  rewrite <- Hvalues, <- Hpars.
  apply return_unit_call_zip; [done|by rewrite Hpars|].
  rewrite Hpars. rewrite Forall_forall in Hlen.
  specialize (Hlen _ (list_elem_of_lookup_2 _ _ _ Hraw)).
  rewrite length_map in Hlen. done.
Qed.

End ParamDict.

Lemma example_grid_distinct : two_distinct_values 2 example_grid.
Proof.
  intros [|[|j]] Hj; [| |lia].
  - exists [1; 4]%R, [3; 2]%R, 1%R, 3%R. unfold example_grid.
    repeat split; [set_solver..|lra].
  - exists [1; 4]%R, [3; 2]%R, 4%R, 2%R. unfold example_grid.
    repeat split; [set_solver..|lra].
Qed.

Lemma example_build_arxiv (t : list event) (w' : world) :
  _build_interp (World example_new ∅) = (t, w', Ok tt) →
  arxiv (self w') = example_arxiv.
Proof.
  intros Hrun.
  destruct (_build_interp_inv _ _ _ Hrun)
    as (t1 & w1 & X & Y & limits & sf & Hbts & _ & _ & _ & ->).
  rewrite example_buildTrainingSets in Hbts.
  by injection Hbts as <- <- <- <-.
Qed.

(** X2.  The dictionary of a training point, given back to the emulator:
    on an emulator that [_build_interp] has built, [get_param_dict] of a
    position of the archive (counted from the end when negative) returns
    a dictionary with exactly the names of [paramList], and
    [return_unit_call] maps this dictionary to the row of the stored grid
    at that position. *)
Theorem param_dict_gives_grid_row `{Libraries} (w w' : world)
    (t : list event) (n : Z) (i : nat) :
  _build_interp w = (t, w', Ok tt) →
  py_position (length (arxiv (self w'))) n = Some i →
  ∃ m row,
    get_param_dict (self w') n = Ok m ∧
    dom m = list_to_set (paramList (self w')) ∧
    nd_rows (X_param_grid (self w')) !! i = Some row ∧
    return_unit_call (self w') m = Ok row.
Proof.
  intros Hrun Hpos.
  destruct (_build_interp_inv w w' t Hrun)
    as (t1 & w1 & X & Y & limits & sf & Hbts & _ & _ & _ & Hw').
  destruct (param_dict_row w w1 w' t1 t X Y limits n i Hbts Hrun)
    as (m & raw & Hget & Hdom & _ & _ & _ & Hrow & Hcall); [by subst|done|].
  by exists m, (zip_with rescale1 raw limits).
Qed.

Lemma param_dict_gives_grid_row_witness :
  ∃ t w' m row,
    _build_interp (World example_new ∅) = (t, w', Ok tt) ∧
    get_param_dict (self w') (-1) = Ok m ∧
    nd_rows (X_param_grid (self w')) !! 2%nat = Some row ∧
    return_unit_call (self w') m = Ok row.
Proof.
  destruct example_build_run as (t & w' & Hrun).
  destruct (param_dict_gives_grid_row (World example_new ∅) w' t (-1) 2 Hrun)
    as (m & row & Hget & _ & Hrow & Hcall).
  - rewrite (example_build_arxiv t w' Hrun). reflexivity.
  - by exists t, w', m, row.
Defined.

(** X3.  A training point is at distance zero from the training set: on
    an emulator built with limits taken from a grid of finite values in
    which every parameter takes two distinct values,
    [get_nearest_distance] of the dictionary that [get_param_dict] returns
    for any position of the archive is 0. *)
Theorem training_point_has_distance_zero `{Libraries} (w w1 w' : world)
    (t1 t : list event) (X Y : ndarray2) (G : list (list R)) (n : Z) :
  paramLimits (self w) = None →
  _buildTrainingSets w = (t1, w1, Ok (X, Y)) →
  nd_rows X = fin_rows G →
  two_distinct_values (nd_cols X) G →
  _build_interp w = (t, w', Ok tt) →
  (- Z.of_nat (length (arxiv (self w'))) ≤ n
   < Z.of_nat (length (arxiv (self w'))))%Z →
  ∃ m, get_param_dict (self w') n = Ok m ∧
       get_nearest_distance (self w') m = Ok (Fin 0).
Proof.
  intros HpL Hbts HG Hdist Hrun Hn.
  destruct (py_position_is_Some _ _ Hn) as [i Hpos].
  destruct (_build_interp_inv w w' t Hrun)
    as (t1' & w1' & X' & Y' & limits & sf & Hbts' & Hlim & Hlen & Hsf & Hw').
  rewrite Hbts in Hbts'. injection Hbts' as <- <- <- <-.
  rewrite HpL in Hlim.
  destruct (_buildTrainingSets_inv _ _ _ _ _ Hbts)
    as (Hfs & Hcfg & HpL1 & Hcols & HrowsX & HrowsY & HshX & HshY).
  assert (Forall (λ row, length row = nd_cols X) G) as HshG.
  { unfold well_shaped in HshX. rewrite HG in HshX. unfold fin_rows in HshX.
    rewrite Forall_fmap in HshX. eapply Forall_impl; [exact HshX|].
    cbn. intros row. by rewrite length_map. }
  assert (X = Ndarray2 (nd_cols X) (fin_rows G)) as HX
    by (destruct X; cbn in *; by subst).
  rewrite HX in Hlim. rewrite (_get_param_limits_fin _ _ HshG) in Hlim.
  2:{ right. intros Hnil. rewrite Hw' in Hpos. cbn in Hpos.
      apply py_position_lt in Hpos. rewrite <- HrowsX, HG, Hnil in Hpos.
      cbn in Hpos. lia. }
  injection Hlim as <-.
  destruct (param_dict_row w w1 w' t1 t X Y
              (map fin_pair (Rgrid_limits (nd_cols X) G)) n i Hbts Hrun)
    as (m & raw & Hget & Hdom & Hkeys & Hraw & Hvalues & Hrow & Hcall);
    [by subst|done|].
  exists m. split; [done|].
  rewrite HG in Hraw. unfold fin_rows in Hraw.
  rewrite list_lookup_fmap in Hraw.
  destruct (G !! i) as [p|] eqn:Hp; [|done]. cbn in Hraw.
  injection Hraw as <-.
  pose (L := Rgrid_limits (nd_cols X) G).
  apply (nearest_distance_of_training_point (self w') m (map fin_pair L)
           (zip_with Rrescale p L)
           (map (λ row, zip_with Rrescale row L) G)).
  - by subst.
  - done.
  - subst w'. cbn. rewrite length_map. unfold L, Rgrid_limits.
    rewrite length_map, length_seq. by rewrite Hcfg, Hcols.
  - unfold unit_point. rewrite Hvalues.
    apply zip_with_rescale1_fin. intros j lim Hj Hlim.
    rewrite Forall_forall in HshG.
    rewrite (HshG p (list_elem_of_lookup_2 _ _ _ Hp)) in Hj.
    unfold L in Hlim. rewrite Rgrid_limits_lookup in Hlim by done.
    injection Hlim as <-.
    pose proof (Rlimits_distinct _ j G Hdist Hj). lra.
  - subst w'. cbn. rewrite HG. by apply rescaled_grid_fin.
  - rewrite Forall_fmap. rewrite Forall_forall in HshG |- *.
    intros row Hr. cbn. rewrite !length_zip_with.
    rewrite (HshG row Hr).
    by rewrite (HshG p (list_elem_of_lookup_2 _ _ _ Hp)).
  - apply list_elem_of_fmap. exists p. split; [done|].
    by eapply list_elem_of_lookup_2.
Qed.

Lemma training_point_has_distance_zero_witness :
  ∃ t w' m,
    _build_interp (World example_new ∅) = (t, w', Ok tt) ∧
    get_param_dict (self w') 1 = Ok m ∧
    get_nearest_distance (self w') m = Ok (Fin 0).
Proof.
  destruct example_build_run as (t & w' & Hrun).
  destruct (training_point_has_distance_zero (World example_new ∅) _ w' _ t
              _ _ example_grid 1 eq_refl example_buildTrainingSets eq_refl
              example_grid_distinct Hrun) as (m & Hget & Hdist).
  - rewrite (example_build_arxiv t w' Hrun). cbn. lia.
  - by exists t, w', m.
Defined.

(* ===================================================================== *)
(** ** The constructor *)
(* ===================================================================== *)

Lemma Out_bind_Ok_inv {A B} (m : Out A) (f : A → Out B) t b :
  bind_first m f = (t, Ok b) →
  ∃ t1 a t2, m = (t1, Ok a) ∧ f a = (t2, Ok b) ∧ t = t1 ++ t2.
Proof.
  unfold bind_first, mbind, Out_bind.
  destruct m as [t1 [a|e]]; [|done].
  destruct (f a) as [t2 r] eqn:Hf.
  intros [= <- ->]. by exists t1, a, t2.
Qed.

Lemma Out_bind_run {A B} (m : Out A) (f : A → Out B) t1 a t2 r :
  m = (t1, Ok a) → f a = (t2, r) → bind_first m f = (t1 ++ t2, r).
Proof.
  intros -> Hf. unfold bind_first, mbind, Out_bind. by rewrite Hf.
Qed.

Lemma Out_bind_raise {A B} (m : Out A) (f : A → Out B) t1 e :
  m = (t1, Raise e) → bind_first m f = (t1, Raise e).
Proof. by intros ->. Qed.

Lemma fold_left_max_spec (l : list nat) (i : nat) :
  (fold_left Nat.max l i = i ∨ fold_left Nat.max l i ∈ l) ∧
  (i ≤ fold_left Nat.max l i)%nat ∧
  ∀ x, x ∈ l → (x ≤ fold_left Nat.max l i)%nat.
Proof.
  revert i. induction l as [|y l IH]; intros i; cbn.
  - split; [by left|]. split; [lia|]. by inversion 1.
  - destruct (IH (i `max` y)%nat) as (Hin & Hle & Hall).
    split; [|split; [lia|]].
    + destruct Hin as [Hin|Hin]; [|by right; right].
      rewrite Hin.
      destruct (Nat.max_spec i y) as [[? Hm]|[? Hm]]; rewrite Hm.
      * right. left.
      * by left.
    + intros x [->|Hx]%elem_of_cons; [lia|by apply Hall].
Qed.

(** [int(np.max(a))] is the largest entry of [a]. *)
Lemma np_max_index_spec (l : list nat) (n : nat) :
  np_max_index l = Ok n → n ∈ l ∧ ∀ x, x ∈ l → (x ≤ n)%nat.
Proof.
  destruct l as [|i l]; cbn; [done|]. intros [= <-].
  destruct (fold_left_max_spec l i) as (Hin & Hle & Hall). split.
  - destruct Hin as [->|Hin]; [left|by right].
  - intros x [->|Hx]%elem_of_cons; [done|by apply Hall].
Qed.

Lemma argwhere_from_elem (i : nat) (mask : list bool) (x : nat) :
  x ∈ argwhere_from i mask ↔ ∃ j, x = (i + j)%nat ∧ mask !! j = Some true.
Proof.
  revert i. induction mask as [|b mask IH]; intros i; cbn.
  - split; [by intros ?%elem_of_nil|by intros (? & _ & ?)].
  - rewrite elem_of_app, IH. split.
    + intros [Hx|(j & -> & Hj)].
      * destruct b; [|by apply elem_of_nil in Hx].
        apply list_elem_of_singleton in Hx as ->. exists 0%nat.
        split; [lia|done].
      * exists (S j). split; [lia|done].
    + intros ([|j] & -> & Hj); cbn in Hj.
      * injection Hj as ->. left. rewrite Nat.add_0_r.
        by apply list_elem_of_singleton.
      * right. exists j. split; [lia|done].
Qed.

Lemma argwhere_elem (mask : list bool) (x : nat) :
  x ∈ argwhere mask ↔ mask !! x = Some true.
Proof.
  unfold argwhere. rewrite argwhere_from_elem. split.
  - by intros (j & -> & Hj).
  - intros Hx. by exists x.
Qed.

(** The index the constructor stores in [k_bin]: the last wavenumber
    below the bound. *)
Lemma k_bin_spec (mask : list bool) (n : nat) :
  np_max_index (argwhere mask) = Ok n →
  mask !! n = Some true ∧ ∀ j, (n < j)%nat → mask !! j ≠ Some true.
Proof.
  intros (Hin & Hall)%np_max_index_spec. split.
  - by apply argwhere_elem.
  - intros j Hj Hm%argwhere_elem. apply Hall in Hm. lia.
Qed.

Lemma k_bin_none (mask : list bool) :
  Forall (λ b, b = false) mask → np_max_index (argwhere mask) = Raise ValueError.
Proof.
  intros Hall. destruct (argwhere mask) as [|i l] eqn:Hl; [done|].
  assert (i ∈ argwhere mask) as Hi by (rewrite Hl; left).
  apply argwhere_elem in Hi. apply list_elem_of_lookup_2 in Hi.
  rewrite Forall_forall in Hall. by apply Hall in Hi.
Qed.

Section Init.
Context `{Libraries} `{Construction}.

Lemma train_optimised (w : world) :
  train w = ([Print "Training GP on %d points"; GPyOptimizeCall;
              Print "Optimised"],
             World (optimised (self w)) (fs w), Ok tt).
Proof. reflexivity. Qed.

(** A constructor that returned. *)
Lemma __init___inv (a : InitArgs) (t : list event) (e : GPEmulator) :
  __init__ a = (t, Ok e) →
  ∃ custom data entry0 kb tb wb,
    archive_of a custom data ∧
    data !! 0%nat = Some entry0 ∧
    np_max_index (argwhere (below_kmax a entry0)) = Ok kb ∧
    _build_interp (World (fresh_self a custom data entry0 kb) ∅)
      = (tb, wb, Ok tt) ∧
    Delaunay_raises (X_param_grid (self wb)) = None ∧
    e = finished a (self wb).
Proof.
  unfold __init__. intros Hrun.
  apply Out_bind_Ok_inv in Hrun as (t1 & [custom data] & t2 & Harx & Hrun & ->).
  apply Out_bind_Ok_inv in Hrun as (? & entry0 & ? & Hentry & Hrun & ->).
  apply Out_bind_Ok_inv in Hrun as (? & kb & ? & Hkb & Hrun & ->).
  exists custom, data, entry0, kb.
  assert (archive_of a custom data) as Harchive.
  { unfold archive_of. destruct (a_passArxiv a) as [d|].
    - apply Out_bind_Ok_inv in Harx as (? & ? & ? & _ & Hret & _).
      by injection Hret as <- <-.
    - apply Out_bind_Ok_inv in Harx as (? & d & ? & Hd & Hret & _).
      injection Hret as <- <-. unfold out in Hd. injection Hd as _ Hd.
      by subst. }
  unfold out in Hentry, Hkb. injection Hkb as <- Hkb.
  injection Hentry as <- Hentry.
  destruct (data !! 0%nat) as [en|] eqn:Hen; [|done].
  injection Hentry as ->.
  remember (bind_first _build_interp _ _) as P eqn:HP in Hrun.
  symmetry in HP. destruct P as [[t' w'] [[]|ex]]; [|done].
  cbn in Hrun. injection Hrun as <- <-.
  apply Py_bind_Ok_inv in HP as (tb & wb & [] & ? & Hbuild & HP & ->).
  exists tb, wb. do 4 (split; [done|]).
  unfold finished. destruct (a_train a).
  - py_inv.
    match goal with Ht : train _ = _ |- _ =>
      rewrite train_optimised in Ht; injection Ht as <- <-
    end.
    destruct (Delaunay_raises _) eqn:Hd; [done|]. split; done.
  - py_inv. destruct (Delaunay_raises _) eqn:Hd; [done|]. split; done.
Qed.

(** The constructor, forwards. *)
Lemma __init___run (a : InitArgs) (custom : bool) (data : list entry)
    (entry0 : entry) (kb : nat) (tb : list event) (wb : world) :
  archive_of a custom data →
  data !! 0%nat = Some entry0 →
  np_max_index (argwhere (below_kmax a entry0)) = Ok kb →
  _build_interp (World (fresh_self a custom data entry0 kb) ∅)
    = (tb, wb, Ok tt) →
  Delaunay_raises (X_param_grid (self wb)) = None →
  ∃ t, __init__ a = (t, Ok (finished a (self wb))).
Proof.
  intros Harx Hentry Hkb Hbuild Hd.
  assert (∃ t1,
    match a_passArxiv a with
    | None => data ← out (ArxivP1D a); mret (false, data)
    | Some data =>
        say_when (a_verbose a)
          "Loading emulator using a specific arxiv, not the one set in basedir";;
        mret (true, data)
    end = (t1, Ok (custom, data))) as [t1 Hread].
  { unfold archive_of in Harx. destruct (a_passArxiv a) as [d|].
    - destruct Harx as [-> ->]. destruct (a_verbose a); by eexists.
    - destruct Harx as [Hd' ->]. rewrite Hd'. by eexists. }
  assert (∃ t2,
    (_build_interp;;
     update_self (set_trained false);;
     (if a_train a then train else mret tt);;
     e ← get_self;
     lift (match Delaunay_raises (X_param_grid e) with
           | Some ex => Raise ex
           | None => Ok tt
           end);;
     update_self (set_hull (X_param_grid e)))
      (World (fresh_self a custom data entry0 kb) ∅)
    = (t2, World (finished a (self wb)) (fs wb), Ok tt)) as [t2 Hrest].
  { unfold finished. destruct (a_train a); eexists;
      (eapply Py_bind_run; [exact Hbuild|]);
      (eapply Py_bind_run; [reflexivity|]).
    - eapply Py_bind_run; [apply train_optimised|].
      eapply Py_bind_run; [reflexivity|].
      eapply Py_bind_run; [cbn; rewrite Hd; reflexivity|reflexivity].
    - eapply Py_bind_run; [reflexivity|].
      eapply Py_bind_run; [reflexivity|].
      eapply Py_bind_run; [cbn; rewrite Hd; reflexivity|reflexivity]. }
  eexists. unfold __init__.
  eapply Out_bind_run; [exact Hread|].
  eapply Out_bind_run; [unfold out; rewrite Hentry; reflexivity|].
  eapply Out_bind_run.
  { unfold out. fold (below_kmax a entry0). rewrite Hkb. reflexivity. }
  rewrite Hrest. reflexivity.
Qed.

(** What [_build_interp] keeps, whatever the limits. *)
Lemma _build_interp_keeps (w w' : world) (t : list event) :
  _build_interp w = (t, w', Ok tt) →
  config (self w') = config (self w) ∧
  crossval (self w') = crossval (self w) ∧
  trained (self w') = trained (self w) ∧
  hull (self w') = hull (self w) ∧
  gp_initialized (gp (self w')) = false ∧
  gp_updating (gp (self w')) = true.
Proof.
  intros Hrun.
  destruct (_build_interp_inv w w' t Hrun)
    as (t1 & w1 & X & Y & limits & sf & Hbts & _ & _ & _ & ->).
  destruct (_buildTrainingSets_inv _ _ _ _ _ Hbts) as (_ & Hcfg & _).
  destruct (_buildTrainingSets_grid _ _ _ _ _ Hbts) as (Hself & _).
  cbn. rewrite Hcfg, Hself. done.
Qed.

Lemma finished_consistent (a : InitArgs) (e : GPEmulator) :
  consistent e → consistent (finished a e).
Proof.
  intros [Hl Hsh Hc Hr HX HYr HYc]. unfold finished.
  destruct (a_train a); by constructor.
Qed.

End Init.

(** X4.  The wavenumbers the constructor keeps for training.  When
    [__init__] returns, [k_bin] is the index of the last wavenumber of the
    first entry of the archive that is below [kmax_Mpc], and
    [training_k_bins] holds the [k_bin] wavenumbers before that index:
    the wavenumber at [k_bin], which is below the bound, is left out. *)
Theorem init_k_bin_is_last_below_kmax `{Libraries} `{Construction}
    (a : InitArgs) (t : list event) (e : GPEmulator) :
  __init__ a = (t, Ok e) →
  ∃ custom data entry0,
    archive_of a custom data ∧ data !! 0%nat = Some entry0 ∧
    (∃ k, e_k_Mpc entry0 !! k_bin e = Some k ∧
          F64.ltb k (Fin (a_kmax_Mpc a)) = true) ∧
    (∀ j k, (k_bin e < j)%nat → e_k_Mpc entry0 !! j = Some k →
            F64.ltb k (Fin (a_kmax_Mpc a)) = false) ∧
    training_k_bins e = take (k_bin e) (e_k_Mpc entry0) ∧
    length (training_k_bins e) = k_bin e.
Proof.
  intros Hrun.
  destruct (__init___inv a t e Hrun)
    as (custom & data & entry0 & kb & tb & wb & Harx & Hentry & Hkb & Hbuild
        & _ & ->).
  exists custom, data, entry0. do 2 (split; [done|]).
  destruct (_build_interp_keeps _ _ _ Hbuild) as (Hcfg & _).
  assert (config (finished a (self wb))
          = fresh_config a custom entry0 kb) as Hconfig.
  { unfold finished. destruct (a_train a); cbn; by rewrite Hcfg. }
  rewrite Hconfig. cbn [k_bin training_k_bins fresh_config].
  apply k_bin_spec in Hkb as [Hat Hafter]. unfold below_kmax in Hat, Hafter.
  rewrite list_lookup_fmap in Hat.
  destruct (e_k_Mpc entry0 !! kb) as [k|] eqn:Hk; [|done].
  injection Hat as Hat.
  split; [by exists k|]. split.
  - intros j k' Hj Hk'. specialize (Hafter j Hj).
    rewrite list_lookup_fmap, Hk' in Hafter. cbn in Hafter.
    destruct (F64.ltb k' _); [by destruct Hafter|done].
  - split; [done|]. rewrite length_take.
    apply lookup_lt_Some in Hk. lia.
Qed.

(** X5.  The object the constructor returns.  When [__init__] returns
    (with limits it computes, or with given limits, one pair per
    parameter), the object is consistent, it is trained exactly when
    [train=True] was asked for, its hull is the hull of the stored grid,
    [crossval] is off, [custom_arxiv] says whether an archive was passed,
    and the list of parameters is the given one or the eight defaults. *)
Theorem init_leaves_consistent `{Libraries} `{Construction}
    (a : InitArgs) (t : list event) (e : GPEmulator) :
  (∀ l, a_paramLimits a = Some l →
        length l = length (default default_paramList (a_paramList a))) →
  __init__ a = (t, Ok e) →
  consistent e ∧
  trained e = a_train a ∧ gp_initialized (gp e) = a_train a ∧
  hull e = X_param_grid e ∧ crossval e = false ∧
  custom_arxiv e = bool_decide (is_Some (a_passArxiv a)) ∧
  paramList e = default default_paramList (a_paramList a) ∧
  checkHulls e = a_checkHulls a.
Proof.
  intros Hgiven Hrun.
  destruct (__init___inv a t e Hrun)
    as (custom & data & entry0 & kb & tb & wb & Harx & Hentry & Hkb & Hbuild
        & _ & ->).
  destruct (_build_interp_keeps _ _ _ Hbuild)
    as (Hcfg & Hcross & Htr & Hhull & Hinit & Hupd).
  destruct (_build_interp_leaves
              (World (fresh_self a custom data entry0 kb) ∅) wb tb)
    as (Hcons & _); [exact Hgiven|exact Hbuild|].
  split; [by apply finished_consistent|].
  assert (custom = bool_decide (is_Some (a_passArxiv a))) as Hcustom.
  { unfold archive_of in Harx. destruct (a_passArxiv a) as [d|].
    - destruct Harx as [_ ->]. symmetry. apply bool_decide_eq_true_2. eauto.
    - destruct Harx as [_ ->]. symmetry. apply bool_decide_eq_false_2.
      by intros [? ?]. }
  unfold finished. destruct (a_train a); cbn; rewrite Hcfg, Hcross; cbn;
    rewrite <- Hcustom; repeat split; done.
Qed.

(** X6.  Archives the constructor cannot start from.  On an archive with
    no entry [__init__] raises [IndexError], and on an archive whose first
    entry has no wavenumber below [kmax_Mpc] it raises [ValueError] (the
    maximum of no index). *)
Theorem init_needs_a_wavenumber_below_kmax `{Libraries} `{Construction}
    (a : InitArgs) (custom : bool) (data : list entry) :
  archive_of a custom data →
  (data = [] → (__init__ a).2 = Raise IndexError) ∧
  (∀ entry0, data !! 0%nat = Some entry0 →
     Forall (λ k, F64.ltb k (Fin (a_kmax_Mpc a)) = false) (e_k_Mpc entry0) →
     (__init__ a).2 = Raise ValueError).
Proof.
  intros Harx.
  assert (∃ t1,
    match a_passArxiv a with
    | None => data ← out (ArxivP1D a); mret (false, data)
    | Some data =>
        say_when (a_verbose a)
          "Loading emulator using a specific arxiv, not the one set in basedir";;
        mret (true, data)
    end = (t1, Ok (custom, data))) as [t1 Hread].
  { unfold archive_of in Harx. destruct (a_passArxiv a) as [d|].
    - destruct Harx as [-> ->]. destruct (a_verbose a); by eexists.
    - destruct Harx as [Hd' ->]. rewrite Hd'. by eexists. }
  split.
  - intros ->. unfold __init__.
    erewrite Out_bind_run; [|exact Hread|apply Out_bind_raise; reflexivity].
    done.
  - intros entry0 Hentry Hall. unfold __init__.
    erewrite Out_bind_run; [|exact Hread|].
    2:{ eapply Out_bind_run; [unfold out; rewrite Hentry; reflexivity|].
        apply Out_bind_raise. unfold out. f_equal.
        apply k_bin_none. by rewrite Forall_fmap. }
    done.
Qed.

(** X7.  An emulator that was given its archive, or a bound on the size
    of the archive, has no place on disk: on the object that [__init__]
    returns, [saveEmulator] and [loadEmulator] print their refusal and
    touch neither the files nor the object, trained or not. *)
Theorem passed_archive_is_never_saved `{Libraries} `{Construction}
    (a : InitArgs) (t : list event) (e : GPEmulator) (fuel : nat)
    (files : gmap string file) :
  __init__ a = (t, Ok e) →
  is_Some (a_passArxiv a) ∨ truthy (a_max_arxiv_size a) = true →
  saveEmulator fuel (World e files)
  = Some ([Print "Cannot save emulators trained on custom arxivs"],
          World e files, Ok tt) ∧
  loadEmulator fuel (World e files)
  = Some ([Print "Cannot load emulators with non-standard training data"],
          World e files, Ok tt).
Proof.
  intros Hrun Hcustom.
  destruct (__init___inv a t e Hrun)
    as (custom & data & entry0 & kb & tb & wb & Harx & Hentry & Hkb & Hbuild
        & _ & ->).
  destruct (_build_interp_keeps _ _ _ Hbuild) as (Hcfg & _).
  assert (config (finished a (self wb))
          = fresh_config a custom entry0 kb) as Hconfig.
  { unfold finished. destruct (a_train a); cbn; by rewrite Hcfg. }
  assert (custom_arxiv (finished a (self wb))
          || truthy (max_arxiv_size (finished a (self wb))) = true) as Hguard.
  { rewrite Hconfig. cbn. destruct Hcustom as [[d Hd]| ->].
    - unfold archive_of in Harx. rewrite Hd in Harx.
      by destruct Harx as [_ ->].
    - apply orb_true_r. }
  unfold saveEmulator, loadEmulator. cbn [self]. by rewrite Hguard.
Qed.

(** The constructor on the example archive, read from ["sims"] or
    passed. *)
Lemma example_fresh_build (custom : bool) (a : InitArgs) :
  a = example_args ∨ a = with_passArxiv example_arxiv example_args →
  ∃ tb wb,
    _build_interp
      (World (fresh_self a custom example_arxiv (example_entry 1 4 10 20) 1)
             ∅) = (tb, wb, Ok tt).
Proof.
  intros Ha.
  destruct (_build_interp_run
              (World (fresh_self a custom example_arxiv
                                 (example_entry 1 4 10 20) 1) ∅)
              (World (fresh_self a custom example_arxiv
                                 (example_entry 1 4 10 20) 1) ∅)
              [] (Ndarray2 2 (fin_rows example_grid))
              (Ndarray2 1 [[Fin 10]; [Fin 30]; [Fin 20]])
              [(Fin 1, Fin 3); (Fin 2, Fin 4)])
    as (t & sf & _ & Hrun).
  - by destruct Ha as [-> | ->].
  - destruct Ha as [-> | ->]; exact example_limits.
  - cbn. lia.
  - eauto.
Qed.

Lemma example_k_bin (a : InitArgs) :
  a = example_args ∨ a = with_passArxiv example_arxiv example_args →
  np_max_index (argwhere (below_kmax a (example_entry 1 4 10 20))) = Ok 1%nat.
Proof. intros [-> | ->]; cbn; by R_decide. Qed.

Lemma example_init_run :
  ∃ t e, __init__ example_args = (t, Ok e).
Proof.
  destruct (example_fresh_build false example_args) as (tb & wb & Hbuild);
    [by left|].
  destruct (__init___run example_args false example_arxiv
              (example_entry 1 4 10 20) 1 tb wb) as [t Hrun];
    [done|done|apply example_k_bin; by left|done|done|eauto].
Qed.

Lemma example_init_passed_run :
  ∃ t e, __init__ (with_passArxiv example_arxiv example_args) = (t, Ok e).
Proof.
  destruct (example_fresh_build true
              (with_passArxiv example_arxiv example_args))
    as (tb & wb & Hbuild); [by right|].
  destruct (__init___run (with_passArxiv example_arxiv example_args) true
              example_arxiv (example_entry 1 4 10 20) 1 tb wb) as [t Hrun];
    [done|done|apply example_k_bin; by right|done|done|eauto].
Qed.

Lemma init_k_bin_is_last_below_kmax_witness :
  ∃ t e, __init__ example_args = (t, Ok e) ∧
    ∃ custom data entry0,
      archive_of example_args custom data ∧ data !! 0%nat = Some entry0 ∧
      (∃ k, e_k_Mpc entry0 !! k_bin e = Some k ∧
            F64.ltb k (Fin (a_kmax_Mpc example_args)) = true) ∧
      (∀ j k, (k_bin e < j)%nat → e_k_Mpc entry0 !! j = Some k →
              F64.ltb k (Fin (a_kmax_Mpc example_args)) = false) ∧
      training_k_bins e = take (k_bin e) (e_k_Mpc entry0) ∧
      length (training_k_bins e) = k_bin e.
Proof.
  destruct example_init_run as (t & e & Hrun). exists t, e.
  split; [exact Hrun|].
  exact (init_k_bin_is_last_below_kmax example_args t e Hrun).
Defined.

Lemma init_leaves_consistent_witness :
  ∃ t e, __init__ example_args = (t, Ok e) ∧
    consistent e ∧ trained e = true ∧ hull e = X_param_grid e.
Proof.
  destruct example_init_run as (t & e & Hrun). exists t, e.
  split; [exact Hrun|].
  destruct (init_leaves_consistent example_args t e)
    as (Hcons & Htr & _ & Hhull & _).
  - intros l Hl. discriminate Hl.
  - exact Hrun.
  - split; [exact Hcons|]. split; [exact Htr|exact Hhull].
Defined.

Lemma init_needs_a_wavenumber_below_kmax_witness :
  (__init__ (with_passArxiv [] example_args)).2 = Raise IndexError ∧
  (__init__ (with_kmax_Mpc (1 / 2) example_args)).2 = Raise ValueError.
Proof.
  split.
  - apply (init_needs_a_wavenumber_below_kmax
             (with_passArxiv [] example_args) true []); [done|done].
  - destruct (init_needs_a_wavenumber_below_kmax
                (with_kmax_Mpc (1 / 2) example_args) false example_arxiv)
      as [_ Hraise]; [done|].
    apply (Hraise (example_entry 1 4 10 20) eq_refl).
    repeat constructor; cbn; by R_decide.
Defined.

Lemma passed_archive_is_never_saved_witness :
  ∃ t e, __init__ (with_passArxiv example_arxiv example_args) = (t, Ok e) ∧
    saveEmulator 1 (World e ∅)
    = Some ([Print "Cannot save emulators trained on custom arxivs"],
            World e ∅, Ok tt).
Proof.
  destruct example_init_passed_run as (t & e & Hrun). exists t, e.
  split; [exact Hrun|].
  apply (passed_archive_is_never_saved
           (with_passArxiv example_arxiv example_args) t e 1 ∅ Hrun).
  left. cbn. eauto.
Defined.

(* ===================================================================== *)
(** ** What training, loading and predicting leave alone *)
(* ===================================================================== *)

Lemma same_training_data_consistent (e e' : GPEmulator) :
  same_training_data e e' → consistent e → consistent e'.
Proof.
  intros (Hcfg & HpL & _ & Harx & HX & Hsf & _ & HgX & HgY & _ & _)
         [Hl Hsh Hc Hr HXg HYr HYc].
  constructor; rewrite ?HpL, ?Hcfg, ?Harx, ?HX, ?Hsf, ?HgX, ?HgY; done.
Qed.

Lemma same_training_data_refl (e : GPEmulator) : same_training_data e e.
Proof. by repeat split. Qed.

Lemma same_training_data_loaded (a : list f64) (e : GPEmulator) :
  same_training_data e (loaded a e).
Proof. by repeat split. Qed.

Lemma same_training_data_interrupted (e : GPEmulator) :
  same_training_data e (load_interrupted e).
Proof. by repeat split. Qed.

Lemma same_training_data_optimised `{Libraries} (e : GPEmulator) :
  same_training_data e (optimised e).
Proof. by repeat split. Qed.

Lemma world_eta (w : world) : World (self w) (fs w) = w.
Proof. by destruct w. Qed.

(** [predict] changes neither the object nor the files. *)
Lemma predict_frame `{Libraries} (m : gmap string f64) (w : world) :
  (predict m w).1.2 = w.
Proof.
  unfold predict, bind_first, mbind, Py_bind, get_self.
  destruct (trained (self w)); cbn -[return_unit_call mapM broadcast];
    [|done].
  destruct (return_unit_call (self w) m) as [param|ex];
    cbn -[mapM broadcast]; [|done].
  destruct (checkHulls (self w)); cbn -[mapM broadcast];
    [destruct (bool_decide _); cbn -[mapM broadcast]|];
    (destruct (crossval (self w)); cbn -[mapM broadcast];
     [destruct (all_in_grid _ _); cbn -[mapM broadcast]|]);
    destruct (GPy_predict _ _) as [pred err];
    destruct (mapM _ pred); cbn -[mapM broadcast]; try done;
    destruct (mapM _ err); cbn -[mapM broadcast]; done.
Qed.

(** The outcomes of [loadEmulator]: the object it leaves. *)
Lemma loadEmulator_frame (fuel : nat) (w w' : world) (t : list event)
    (r : result unit) :
  loadEmulator fuel w = Some (t, w', r) →
  fs w' = fs w ∧
  (self w' = self w ∨ (∃ a, self w' = loaded a (self w))
   ∨ self w' = load_interrupted (self w)).
Proof.
  destruct w as [e files]. cbn [self fs].
  destruct (custom_arxiv e || truthy (max_arxiv_size e) || trained e)
    eqn:Hguard.
  - destruct (loadEmulator_refused fuel e files Hguard) as [t0 Hrun].
    rewrite Hrun. intros [= <- <- <-]. split; [done|by left].
  - destruct (scan_saved fuel files (save_string e) (init_params e) 1)
      as [sc|] eqn:Hscan.
    + rewrite (loadEmulator_run fuel e files sc Hguard Hscan).
      destruct sc as [[k|k]|ex].
      * destruct (np_load files _) as [a|ex]; intros [= <- <- <-];
          (split; [done|]); [right; left; by exists a|by right; right].
      * intros [= <- <- <-]. split; [done|by left].
      * intros [= <- <- <-]. split; [done|by left].
    + unfold loadEmulator. cbn [self fs].
      apply orb_false_elim in Hguard as [Hguard Htr].
      rewrite Hguard, Htr, Hscan. done.
Qed.

(** X8.  Training, loading and predicting leave the training data alone:
    whatever [train], [load_hyperparams], [loadEmulator] and [predict]
    return or raise, the configuration, the limits, the archive, the
    stored grid, the scale factors, the hull, and the grid, the targets,
    the kernel and the noise of the Gaussian process are as before, the
    files are as before, and a consistent object stays consistent. *)
Theorem training_data_is_kept `{Libraries} (w w' : world) (t : list event)
    (r : result unit) (rp : result (option (list f64 * list f64)))
    (hyperparams : list f64) (fuel : nat) (m : gmap string f64) :
  train w = (t, w', r) ∨ load_hyperparams hyperparams w = (t, w', r) ∨
  loadEmulator fuel w = Some (t, w', r) ∨ predict m w = (t, w', rp) →
  same_training_data (self w) (self w') ∧ fs w' = fs w ∧
  (consistent (self w) → consistent (self w')).
Proof.
  intros Hrun.
  assert (same_training_data (self w) (self w') ∧ fs w' = fs w) as [Hsame Hfs].
  { destruct Hrun as [Hrun|[Hrun|[Hrun|Hrun]]].
    - rewrite train_optimised in Hrun. injection Hrun as <- <- <-.
      split; [apply same_training_data_optimised|done].
    - unfold load_hyperparams, bind_first, mbind, Py_bind, update_self,
        get_self in Hrun. cbn in Hrun.
      destruct (verbose (self w)); cbn in Hrun; injection Hrun as <- <- <-;
        by repeat split.
    - apply loadEmulator_frame in Hrun as [Hfs [->|[[a ->]| ->]]];
        (split; [|done]).
      + apply same_training_data_refl.
      + apply same_training_data_loaded.
      + apply same_training_data_interrupted.
    - pose proof (predict_frame m w) as Hw. rewrite Hrun in Hw.
      cbn in Hw. subst w'. split; [apply same_training_data_refl|done]. }
  split; [done|]. split; [done|].
  by apply same_training_data_consistent.
Qed.

Lemma training_data_is_kept_witness :
  same_training_data example_trained (optimised example_trained) ∧
  consistent (optimised example_trained).
Proof.
  destruct (training_data_is_kept (World example_trained ∅)
              (World (optimised example_trained) ∅)
              [Print "Training GP on %d points"; GPyOptimizeCall;
               Print "Optimised"] (Ok tt) (Ok None) [] 0 ∅)
    as (Hsame & _ & Hcons).
  - left. reflexivity.
  - split; [exact Hsame|]. apply Hcons.
    constructor; cbn.
    + eexists. split; [reflexivity|reflexivity].
    + repeat constructor.
    + reflexivity.
    + reflexivity.
    + reflexivity.
    + reflexivity.
    + repeat constructor.
Defined.

(* ===================================================================== *)
(** ** Saving and loading again *)
(* ===================================================================== *)

(** A file that is not JSON, after dictionaries that do not match: the
    loop ends there, with the exception of [json.load]. *)
Lemma scan_saved_raises (fuel : nat) (files : gmap string file)
    (s : string) (ip : InitParams) (aa k : nat) (f : file) (ex : exn) :
  aa ≤ k → k - aa < fuel →
  files !! json_path s k = Some f → json_load f = Raise ex →
  (∀ i, aa ≤ i < k →
     ∃ j, files !! json_path s i = Some (JsonFile j) ∧ json_eq j ip = false) →
  scan_saved fuel files s ip aa = Some (Raise ex).
Proof.
  revert aa. induction fuel as [|fuel IH]; intros aa Hle Hfuel Hk Hf Hbefore;
    [lia|]. cbn.
  destruct (decide (aa = k)) as [->|Hne].
  - rewrite Hk, Hf. done.
  - destruct (Hbefore aa) as (j & Hj & Hneq); [lia|].
    rewrite Hj. cbn. rewrite Hneq.
    apply IH; [lia|lia|done|done|]. intros i Hi. apply Hbefore. lia.
Qed.

(** A suffix that is not in use, after dictionaries that do not match:
    the loop ends there. *)
Lemma scan_saved_unused (fuel : nat) (files : gmap string file)
    (s : string) (ip : InitParams) (aa k : nat) :
  aa ≤ k → k - aa < fuel →
  files !! json_path s k = None →
  (∀ i, aa ≤ i < k →
     ∃ j, files !! json_path s i = Some (JsonFile j) ∧ json_eq j ip = false) →
  scan_saved fuel files s ip aa = Some (Ok (Unused k)).
Proof.
  revert aa. induction fuel as [|fuel IH]; intros aa Hle Hfuel Hk Hbefore;
    [lia|]. cbn.
  destruct (decide (aa = k)) as [->|Hne].
  - by rewrite Hk.
  - destruct (Hbefore aa) as (j & Hj & Hneq); [lia|].
    rewrite Hj. cbn. rewrite Hneq.
    apply IH; [lia|lia|done|]. intros i Hi. apply Hbefore. lia.
Qed.

Lemma npy_path_inj (s : string) (a b : nat) :
  npy_path s a = npy_path s b → a = b.
Proof.
  unfold npy_path. intros Heq%string_app_inj_r.
  apply String.app_inj in Heq. by apply pretty_nat_inj in Heq.
Qed.

Lemma saved_at_npy (e : GPEmulator) (k : nat) (files : gmap string file) :
  saved_at e k files !! npy_path (save_string e) k
  = Some (NpyFile (gp_param_array (gp e))).
Proof. unfold saved_at. by rewrite lookup_insert_eq. Qed.

Lemma loaded_optimised `{Libraries} (e : GPEmulator) :
  gp_updating (gp e) = true →
  loaded (gp_param_array (gp (optimised e))) e = optimised e.
Proof.
  intros Hupd. unfold loaded, optimised, set_trained, set_gp,
    set_gp_updating, set_gp_param_array, set_gp_initialized. cbn.
  by rewrite Hupd.
Qed.

(** X9.  Train, save, load.  An emulator on a standard archive that is
    built and not trained is trained and saved into files that hold no
    dictionary of its configuration; [loadEmulator] on the emulator as it
    was before training, with the files of the save, then gives the
    trained emulator, hyperparameters and all: what was saved is what is
    loaded. *)
Theorem train_save_load_round_trip `{Libraries} (e : GPEmulator)
    (files : gmap string file) (fuel : nat) :
  trained e = false → custom_arxiv e = false →
  truthy (max_arxiv_size e) = false →
  gp_updating (gp e) = true →
  not_saved files (save_string e) (init_params e) →
  size files < fuel →
  ∃ t1 e1 t2 files1 t3,
    train (World e files) = (t1, World e1 files, Ok tt) ∧
    saveEmulator fuel (World e1 files) = Some (t2, World e1 files1, Ok tt) ∧
    loadEmulator fuel (World e files1) = Some (t3, World e1 files1, Ok tt).
Proof.
  intros Htr Hcustom Hmax Hupd Hnot Hfuel.
  destruct (scan_not_saved fuel files (save_string e) (init_params e) 1
              Hnot Hfuel) as [k Hscan].
  set (e1 := optimised e).
  assert (save_string e1 = save_string e) as Hs by done.
  assert (init_params e1 = init_params e) as Hip by done.
  pose proof (saveEmulator_run fuel e1 files (Ok (Unused k))) as Hsave.
  rewrite Hs, Hip in Hsave. specialize (Hsave eq_refl Hcustom Hmax Hscan).
  apply scan_saved_Unused in Hscan as (Hle & Hk_fuel & Hnone & Hbefore).
  assert (scan_saved fuel (saved_at e1 k files) (save_string e)
                     (init_params e) 1 = Some (Ok (Matched k))) as Hscan2.
  { apply (scan_saved_finds fuel (saved_at e1 k files) (save_string e1)
             (init_params e1) 1 k); [done|done| |].
    - rewrite saved_at_json. by rewrite decide_True.
    - intros i Hi. rewrite saved_at_json.
      rewrite decide_False by lia. by apply Hbefore. }
  pose proof (loadEmulator_run fuel e (saved_at e1 k files)
                (Ok (Matched k))) as Hload.
  rewrite Hcustom, Hmax, Htr in Hload. specialize (Hload eq_refl Hscan2).
  unfold np_load in Hload.
  change (save_string e) with (save_string e1) in Hload.
  rewrite saved_at_npy in Hload. unfold e1 in Hload at 2.
  rewrite (loaded_optimised e Hupd) in Hload. fold e1 in Hload.
  eexists _, e1, _, (saved_at e1 k files), _.
  split; [apply train_optimised|]. split; [exact Hsave|exact Hload].
Qed.

Lemma train_save_load_round_trip_witness :
  ∃ t1 e1 t2 files1 t3,
    train (World example_loader ∅) = (t1, World e1 ∅, Ok tt) ∧
    saveEmulator 1 (World e1 ∅) = Some (t2, World e1 files1, Ok tt) ∧
    loadEmulator 1 (World example_loader files1)
      = Some (t3, World e1 files1, Ok tt).
Proof.
  apply (train_save_load_round_trip example_loader ∅ 1).
  - reflexivity.
  - reflexivity.
  - reflexivity.
  - reflexivity.
  - intros i f Hf. rewrite lookup_empty in Hf. discriminate Hf.
  - rewrite map_size_empty. lia.
Defined.

(** X10.  [saveEmulator] replaces no dictionary.  Whatever it returns or
    raises, the object is as before, and every file that was there is
    still there with its content, except a file of hyperparameters
    [saveString+str(k)+".npy"] whose dictionary
    [saveString+str(k)+".json"] was missing: such a file is written
    over. *)
Theorem save_replaces_no_dictionary (fuel : nat) (w w' : world)
    (t : list event) (r : result unit) :
  saveEmulator fuel w = Some (t, w', r) →
  self w' = self w ∧
  ∀ path f, fs w !! path = Some f →
    fs w' !! path = Some f ∨
    ∃ k, path = npy_path (save_string (self w)) k ∧
         fs w !! json_path (save_string (self w)) k = None.
Proof.
  destruct w as [e files]. cbn [self fs]. unfold saveEmulator. cbn [self fs].
  destruct (custom_arxiv e || truthy (max_arxiv_size e)).
  { intros [= <- <- <-]. split; [done|]. intros; by left. }
  destruct (negb (trained e)).
  { intros [= <- <- <-]. split; [done|]. intros; by left. }
  destruct (scan_saved fuel files (save_string e) (init_params e) 1)
    as [[[k|k]|ex]|] eqn:Hscan; cbn; [| | |done].
  - destruct (verbose e); intros [= <- <- <-]; (split; [done|]);
      intros; by left.
  - apply scan_saved_Unused in Hscan as (_ & _ & Hnone & _).
    destruct (verbose e); intros [= <- <- <-]; (split; [done|]);
      intros path f Hf; cbn;
      (destruct (decide (path = npy_path (save_string e) k)) as [->|Hnpy];
       [right; by exists k|]);
      left; rewrite lookup_insert_ne by done;
      (rewrite lookup_insert_ne; [done|]); intros <-; congruence.
  - intros [= <- <- <-]. split; [done|]. intros; by left.
Qed.

(** A save into a directory that holds the saved emulator of another
    configuration and hyperparameters without a dictionary under the
    suffix 2: the pair of the other configuration is kept, and the
    hyperparameters under the suffix 2 are written over. *)
Lemma save_replaces_no_dictionary_witness :
  ∃ t files1,
    saveEmulator 3 (World example_loader_trained example_orphan)
      = Some (t, World example_loader_trained files1, Ok tt) ∧
    files1 !! "sims/saved_emulator_1.json"
      = Some (JsonFile (JInitParams (init_params example_trained))) ∧
    files1 !! "sims/saved_emulator_1.npy"
      = Some (NpyFile [Fin 2; Fin 3; Fin 5]) ∧
    example_orphan !! "sims/saved_emulator_2.npy" = Some (NpyFile [Fin 9]) ∧
    files1 !! "sims/saved_emulator_2.npy"
      = Some (NpyFile (gp_param_array (gp example_loader_trained))) ∧
    ∀ path f, example_orphan !! path = Some f →
      files1 !! path = Some f ∨
      ∃ k, path = npy_path (save_string example_loader_trained) k ∧
           example_orphan
             !! json_path (save_string example_loader_trained) k = None.
Proof.
  assert (scan_saved 3 example_orphan (save_string example_loader_trained)
                     (init_params example_loader_trained) 1
          = Some (Ok (Unused 2))) as Hscan.
  { apply scan_saved_unused; [lia|lia|reflexivity|].
    intros i Hi. assert (i = 1) as -> by lia.
    exists (JInitParams (init_params example_trained)).
    split; [reflexivity|]. cbn. apply bool_decide_eq_false_2.
    intros Heq. apply (f_equal ip_drop_tau_rescalings) in Heq.
    discriminate Heq. }
  pose proof (saveEmulator_run 3 example_loader_trained example_orphan _
                eq_refl eq_refl eq_refl Hscan) as Hrun.
  cbn match in Hrun.
  eexists _, _. split; [exact Hrun|].
  destruct (save_replaces_no_dictionary 3
              (World example_loader_trained example_orphan) _ _ (Ok tt)
              Hrun) as [_ Hkept].
  cbn [self fs] in Hkept.
  split; [|split; [|split; [reflexivity|split;
    [exact (saved_at_npy example_loader_trained 2 example_orphan)
    |exact Hkept]]]].
  - destruct (Hkept "sims/saved_emulator_1.json" _ eq_refl)
      as [Hsame|(k & Hk & _)]; [exact Hsame|].
    destruct (json_path_ne_npy_path "sims/saved_emulator_" 1 k Hk).
  - destruct (Hkept "sims/saved_emulator_1.npy" _ eq_refl)
      as [Hsame|(k & Hk & Hnone)]; [exact Hsame|].
    assert (k = 1) as ->
      by (symmetry; exact (npy_path_inj "sims/saved_emulator_" 1 k Hk)).
    discriminate Hnone.
Defined.



(** X12.  A file that cannot be read as JSON among the saved
    dictionaries.  When the file [saveString+str(k)+".json"] is text that
    is not JSON, or a binary file of [np.save], and the dictionaries
    before it differ from [initParams], [saveEmulator] of a trained
    emulator and [loadEmulator] of an emulator that is not trained raise
    the exception of [json.load], [JSONDecodeError] for the text and
    [UnicodeDecodeError] for the binary file: nothing is written and
    nothing is loaded, whatever the files after the suffix [k] hold. *)
Theorem unreadable_dictionary_stops_the_scan (e : GPEmulator)
    (files : gmap string file) (fuel k : nat) (f : file) :
  custom_arxiv e = false → truthy (max_arxiv_size e) = false →
  1 ≤ k → k - 1 < fuel →
  files !! json_path (save_string e) k = Some f →
  (∀ j, f ≠ JsonFile j) →
  (∀ i, 1 ≤ i < k →
     ∃ j, files !! json_path (save_string e) i = Some (JsonFile j) ∧
          json_eq j (init_params e) = false) →
  let ex := match f with
            | NpyFile _ => UnicodeDecodeError
            | _ => JSONDecodeError
            end in
  (trained e = true →
     saveEmulator fuel (World e files)
     = Some ([], World e files, Raise ex)) ∧
  (trained e = false →
     loadEmulator fuel (World e files)
     = Some ([], World e files, Raise ex)).
Proof.
  intros Hcustom Hmax Hk Hfuel Hf Hnot Hbefore ex.
  assert (json_load f = Raise ex) as Hload.
  { destruct f as [j| |]; [by destruct (Hnot j)|done..]. }
  pose proof (scan_saved_raises fuel files (save_string e) (init_params e)
                1 k f _ Hk Hfuel Hf Hload Hbefore) as Hscan.
  split; intros Htr.
  - by rewrite (saveEmulator_run fuel e files _ Htr Hcustom Hmax Hscan).
  - rewrite (loadEmulator_run fuel e files _) by
      (by rewrite ?Hcustom, ?Hmax, ?Htr || exact Hscan). done.
Qed.

Lemma unreadable_dictionary_stops_the_scan_witness :
  saveEmulator 3 (World example_trained example_unreadable)
  = Some ([], World example_trained example_unreadable,
          Raise JSONDecodeError) ∧
  loadEmulator 3 (World example_trained_loader example_binary)
  = Some ([], World example_trained_loader example_binary,
          Raise UnicodeDecodeError).
Proof.
  split.
  - apply (unreadable_dictionary_stops_the_scan example_trained
             example_unreadable 3 1 OtherFile); try reflexivity; try lia.
    intros j Hj. discriminate Hj.
  - apply (unreadable_dictionary_stops_the_scan example_trained_loader
             example_binary 3 1 (NpyFile [Fin 1])); try reflexivity;
      try lia.
    intros j Hj. discriminate Hj.
Defined.

(* ===================================================================== *)
(** ** Query models *)
(* ===================================================================== *)

Lemma for_each_ext {A S} (f g : A → S → result S) (l : list A) (s : S) :
  (∀ x s, x ∈ l → f x s = g x s) → for_each f l s = for_each g l s.
Proof.
  revert s. induction l as [|x l IH]; intros s Hfg; cbn [for_each]; [done|].
  rewrite Hfg by left. destruct (g x s) as [s'|ex]; cbn; [|done].
  apply IH. intros y s'' Hy. apply Hfg. by right.
Qed.

Section Queries.
Context `{Libraries}.

(** The first name of [paramList] that the model does not hold is the
    key of the [KeyError]: the limits of the names before it are enough. *)
Lemma unit_call_missing_key_loop (m : gmap string f64)
    (limits : list (f64 * f64)) (pars pars' : list string) (par : string)
    (acc : list f64) :
  has_keys m pars → m !! par = None →
  (length acc + length pars ≤ length limits)%nat →
  for_each (λ '(aa, par) param,
      v ← or_raise (m !! par) (KeyError par);
      let param := param ++ [v] in
      x ← or_raise (param !! aa) IndexError;
      lim ← or_raise (limits !! aa) IndexError;
      mret (<[aa := rescale1 x lim]> param))
    (zip (seq (length acc) (length (pars ++ par :: pars')))
         (pars ++ par :: pars')) acc
  = Raise (KeyError par).
Proof.
  revert acc. induction pars as [|p pars IH]; intros acc Hkeys Hnone Hlen; cbn.
  - by rewrite Hnone.
  - apply Forall_cons in Hkeys as [[v Hv] Hkeys]. rewrite Hv. cbn.
    rewrite lookup_app_r by lia. rewrite Nat.sub_diag. cbn.
    cbn in Hlen.
    destruct (lookup_lt_is_Some_2 limits (length acc)) as [lim Hlim]; [lia|].
    rewrite Hlim. cbn.
    specialize (IH (<[length acc := rescale1 v lim]> (acc ++ [v])) Hkeys Hnone).
    rewrite length_insert, length_app in IH. cbn in IH.
    replace (length acc + 1)%nat with (S (length acc)) in IH by lia.
    apply IH. lia.
Qed.

Lemma return_unit_call_missing_key (e : GPEmulator) (m : gmap string f64)
    (limits : list (f64 * f64)) (pars pars' : list string) (par : string) :
  paramLimits e = Some limits →
  paramList e = pars ++ par :: pars' →
  has_keys m pars → m !! par = None →
  (length pars ≤ length limits)%nat →
  return_unit_call e m = Raise (KeyError par).
Proof.
  intros HpL Hpars Hkeys Hnone Hlen. unfold return_unit_call.
  rewrite HpL, Hpars. cbn [bind_first mbind result_bind or_raise].
  apply (unit_call_missing_key_loop m limits pars pars' par [] Hkeys Hnone).
  cbn. lia.
Qed.

(** The loop of [return_unit_call] reads the model under the names of
    [paramList] only. *)
Lemma return_unit_call_ext (e : GPEmulator) (m m' : gmap string f64) :
  (∀ par, par ∈ paramList e → m !! par = m' !! par) →
  return_unit_call e m = return_unit_call e m'.
Proof.
  intros Hm. unfold return_unit_call.
  destruct (paramLimits e) as [limits|]; cbn; [|done].
  apply for_each_ext. intros [aa par] s Hin.
  apply elem_of_zip_r in Hin. by rewrite (Hm par Hin).
Qed.

Lemma predict_of_unit_call (e : GPEmulator) (files : gmap string file)
    (m m' : gmap string f64) :
  return_unit_call e m = return_unit_call e m' →
  predict m (World e files) = predict m' (World e files).
Proof.
  intros Hcall. unfold predict, bind_first, mbind, Py_bind, get_self.
  cbn -[return_unit_call mapM broadcast]. by rewrite Hcall.
Qed.

End Queries.

(** X13.  A model without one of the parameters.  When the model holds
    the names of [paramList] up to the name [par] and holds no value under
    [par], then [return_unit_call], [check_in_hull] and
    [get_nearest_distance] raise [KeyError] with the key [par], and so
    does [predict] on a trained emulator, before it calls the Gaussian
    process and without a change to the object. *)
Theorem missing_parameter_raises_KeyError `{Libraries} (e : GPEmulator)
    (m : gmap string f64) (limits : list (f64 * f64))
    (pars pars' : list string) (par : string) (files : gmap string file) :
  paramLimits e = Some limits →
  paramList e = pars ++ par :: pars' →
  has_keys m pars → m !! par = None →
  (length pars ≤ length limits)%nat →
  return_unit_call e m = Raise (KeyError par) ∧
  check_in_hull e m = Raise (KeyError par) ∧
  get_nearest_distance e m = Raise (KeyError par) ∧
  (trained e = true →
   predict m (World e files) = ([], World e files, Raise (KeyError par))).
Proof.
  intros HpL Hpars Hkeys Hnone Hlen.
  pose proof (return_unit_call_missing_key e m limits pars pars' par
                HpL Hpars Hkeys Hnone Hlen) as Hcall.
  split; [done|]. split; [|split].
  - unfold check_in_hull. by rewrite Hcall.
  - unfold get_nearest_distance. by rewrite Hcall.
  - intros Htr. unfold predict, bind_first, mbind, Py_bind, get_self.
    cbn -[return_unit_call mapM broadcast]. rewrite Htr.
    cbn -[return_unit_call mapM broadcast]. by rewrite Hcall.
Qed.

Lemma missing_parameter_raises_KeyError_witness :
  get_nearest_distance example_trained (<["mF" := Fin 2]> ∅)
    = Raise (KeyError "Delta2_p") ∧
  predict (<["mF" := Fin 2]> ∅) (World example_trained ∅)
    = ([], World example_trained ∅, Raise (KeyError "Delta2_p")).
Proof.
  destruct (missing_parameter_raises_KeyError example_trained
              (<["mF" := Fin 2]> ∅) [(Fin 1, Fin 3); (Fin 2, Fin 4)]
              ["mF"] [] "Delta2_p" ∅) as (_ & _ & Hdist & Hpredict).
  - reflexivity.
  - reflexivity.
  - repeat constructor. by eexists.
  - reflexivity.
  - cbn. lia.
  - split; [exact Hdist|]. apply Hpredict. reflexivity.
Defined.

(** X14.  Only the parameters of [paramList] are read.  Two models that
    agree under every name of [paramList] get the same result from
    [return_unit_call], [check_in_hull], [get_nearest_distance] and
    [predict]: what else a model holds changes no value that is returned
    and no exception that is raised.  What [predict] prints and calls is
    the same too, unless it prints the warning about the convex hull,
    which shows the model itself. *)
Theorem only_listed_parameters_are_read `{Libraries} (e : GPEmulator)
    (m m' : gmap string f64) (files : gmap string file) :
  (∀ par, par ∈ paramList e → m !! par = m' !! par) →
  return_unit_call e m = return_unit_call e m' ∧
  check_in_hull e m = check_in_hull e m' ∧
  get_nearest_distance e m = get_nearest_distance e m' ∧
  (predict m (World e files)).2 = (predict m' (World e files)).2 ∧
  (Print "Model is outside convex hull:" ∉ (predict m (World e files)).1.1 →
   predict m (World e files) = predict m' (World e files)).
Proof.
  intros Hm. pose proof (return_unit_call_ext e m m' Hm) as Hcall.
  pose proof (predict_of_unit_call e files m m' Hcall) as Hpredict.
  split; [done|]. split; [|split; [|split]].
  - unfold check_in_hull. by rewrite Hcall.
  - unfold get_nearest_distance. by rewrite Hcall.
  - by rewrite Hpredict.
  - done.
Qed.

(** A model with one more entry, at a point inside the hull: the
    prediction and what is printed are the same. *)
Lemma only_listed_parameters_are_read_witness :
  get_nearest_distance example_trained (<["z" := Fin 3]> (example_model 2 3))
    = get_nearest_distance example_trained (example_model 2 3) ∧
  (predict (<["z" := Fin 3]> (example_model 2 3)) (World example_trained ∅)).2
    = (predict (example_model 2 3) (World example_trained ∅)).2.
Proof.
  destruct (only_listed_parameters_are_read example_trained
              (<["z" := Fin 3]> (example_model 2 3)) (example_model 2 3) ∅)
    as (_ & _ & Hdist & Hresult & _).
  - intros par Hpar. cbn in Hpar.
    apply elem_of_cons in Hpar as [->|Hpar]; [reflexivity|].
    apply elem_of_cons in Hpar as [->|Hpar]; [reflexivity|].
    by apply elem_of_nil in Hpar.
  - split; [exact Hdist|exact Hresult].
Defined.

(* ===================================================================== *)
(** ** The unit cube *)
(* ===================================================================== *)

Lemma zip_with_Rrescale_bounds (xs : list R) (L : list (R * R)) :
  Forall (λ l, l.1 < l.2)%R L →
  Forall2 (λ x l, l.1 <= x <= l.2)%R xs L →
  Forall (λ y, 0 <= y <= 1)%R (zip_with Rrescale xs L).
Proof.
  intros HL Hin. revert HL.
  induction Hin as [|x [lo hi] xs L Hx _ IH]; intros HL; cbn; [done|].
  apply Forall_cons in HL as [Hlt HL]. constructor; [|by apply IH].
  by apply Rrescale_bounds.
Qed.

(** X15.  Inside the limits is inside the unit cube.  With finite limits
    whose lower bound is below the upper bound and a model of finite
    values that lie within the limits of their parameters,
    [return_unit_call] returns finite coordinates, one per parameter, that
    all lie in [0,1]; a value on the lower limit of its parameter is
    mapped to 0 and a value on the upper limit to 1. *)
Theorem unit_call_inside_limits `{Libraries} (e : GPEmulator)
    (m : gmap string f64) (L : list (R * R)) (xs : list R) :
  paramLimits e = Some (map fin_pair L) →
  length L = length (paramList e) →
  Forall (λ l, l.1 < l.2)%R L →
  has_keys m (paramList e) →
  values m (paramList e) = map Fin xs →
  Forall2 (λ x l, l.1 <= x <= l.2)%R xs L →
  ∃ ys, return_unit_call e m = Ok (map Fin ys) ∧
        length ys = length (paramList e) ∧
        Forall (λ y, 0 <= y <= 1)%R ys ∧
        ∀ i x l, xs !! i = Some x → L !! i = Some l →
          (x = l.1 → ys !! i = Some 0%R) ∧ (x = l.2 → ys !! i = Some 1%R).
Proof.
  intros HpL HlenL HL Hkeys Hvalues Hin.
  assert (length xs = length L) as Hlen by (by eapply Forall2_length).
  exists (zip_with Rrescale xs L). split; [|split; [|split]].
  - rewrite (return_unit_call_zip e m (map fin_pair L) HpL Hkeys)
      by (rewrite length_map; lia).
    rewrite Hvalues. f_equal. apply zip_with_rescale1_fin.
    intros j lim _ Hlim. rewrite Forall_forall in HL.
    pose proof (HL lim (list_elem_of_lookup_2 _ _ _ Hlim)). lra.
  - rewrite length_zip_with. lia.
  - by apply zip_with_Rrescale_bounds.
  - intros i x [lo hi] Hx Hl. rewrite Forall_forall in HL.
    pose proof (HL _ (list_elem_of_lookup_2 _ _ _ Hl)) as Hlt. cbn in Hlt.
    split; intros ->; apply lookup_zip_with_Some; eexists _, _;
      (split; [|done]); cbn.
    + by rewrite Rrescale_lo.
    + by rewrite Rrescale_hi.
Qed.

Lemma unit_call_inside_limits_witness :
  ∃ ys, return_unit_call example_trained (example_model 2 4) = Ok (map Fin ys) ∧
        length ys = 2%nat ∧
        Forall (λ y, 0 <= y <= 1)%R ys ∧
        ys !! 1%nat = Some 1%R.
Proof.
  destruct (unit_call_inside_limits example_trained (example_model 2 4)
              [(1, 3); (2, 4)]%R [2; 4]%R)
    as (ys & Hcall & Hlen & Hunit & Hends).
  - reflexivity.
  - reflexivity.
  - repeat constructor; cbn; lra.
  - repeat constructor; by eexists.
  - reflexivity.
  - repeat constructor; cbn; lra.
  - exists ys. do 3 (split; [done|]).
    by apply (Hends 1%nat 4%R (2, 4)%R eq_refl eq_refl).
Defined.

(* ===================================================================== *)
(** ** The order of the training points *)
(* ===================================================================== *)

Lemma nearest_step_comm (s a b : f64) :
  (if F64.ltb b (if F64.ltb a s then a else s) then b
   else if F64.ltb a s then a else s)
  = (if F64.ltb a (if F64.ltb b s then b else s) then a
     else if F64.ltb b s then b else s).
Proof.
  destruct s as [s| | |], a as [a| | |], b as [b| | |]; cbn; try done;
    repeat (case_bool_decide; cbn); try done; try lra; f_equal; lra.
Qed.

Lemma distance_raises `{Libraries} (a b : list f64) (ex : exn) :
  distance a b = Raise ex → ex = ValueError.
Proof.
  unfold distance.
  destruct (broadcast F64.sub a b) as [d|ex'] eqn:Hb; cbn; [done|].
  intros [= <-]. unfold broadcast in Hb. case_decide; [done|].
  destruct a as [|x [|? ?]], b as [|y [|? ?]]; congruence.
Qed.

Lemma nearest_loop_perm `{Libraries} (p : list f64)
    (rows rows' : list (list f64)) (s : f64) :
  rows ≡ₚ rows' →
  for_each (λ training_point shortest_distance,
      new_distance ← distance training_point p;
      mret (if F64.ltb new_distance shortest_distance
            then new_distance else shortest_distance)) rows s
  = for_each (λ training_point shortest_distance,
      new_distance ← distance training_point p;
      mret (if F64.ltb new_distance shortest_distance
            then new_distance else shortest_distance)) rows' s.
Proof.
  intros Hperm. revert s.
  induction Hperm as [|x l l' _ IH|x y l|l l' l'' _ IH1 _ IH2]; intros s.
  - done.
  - cbn [for_each]. destruct (distance x p) as [d|ex]; cbn; [|done].
    apply IH.
  - cbn [for_each].
    destruct (distance y p) as [dy|ey] eqn:Hy,
             (distance x p) as [dx|ex] eqn:Hx; cbn; rewrite ?Hx, ?Hy; cbn;
      try done.
    + by rewrite nearest_step_comm.
    + apply distance_raises in Hx, Hy. by subst.
  - by rewrite IH1.
Qed.

(** X16.  The nearest distance does not depend on the order of the
    training points: with the same parameters and limits and a stored grid
    that holds the same rows in another order, [get_nearest_distance]
    returns the same distance, or raises the same exception. *)
Theorem nearest_distance_ignores_row_order `{Libraries} (e e' : GPEmulator)
    (m : gmap string f64) :
  paramList e' = paramList e → paramLimits e' = paramLimits e →
  nd_rows (X_param_grid e') ≡ₚ nd_rows (X_param_grid e) →
  get_nearest_distance e' m = get_nearest_distance e m.
Proof.
  intros Hpars HpL Hperm. unfold get_nearest_distance.
  assert (return_unit_call e' m = return_unit_call e m) as ->.
  { unfold return_unit_call. by rewrite Hpars, HpL. }
  destruct (return_unit_call e m) as [param|ex]; cbn; [|done].
  by apply nearest_loop_perm.
Qed.

Lemma nearest_distance_ignores_row_order_witness :
  get_nearest_distance
    (set_X_param_grid
       (Ndarray2 2 [[Fin 1; Fin 0]; [Fin 0; Fin 1]; [Fin (1 / 2); Fin 0]])
       example_trained) (example_model 2 3)
  = get_nearest_distance example_trained (example_model 2 3).
Proof.
  apply (nearest_distance_ignores_row_order example_trained
           (set_X_param_grid
              (Ndarray2 2 [[Fin 1; Fin 0]; [Fin 0; Fin 1];
                           [Fin (1 / 2); Fin 0]])
              example_trained) (example_model 2 3)).
  - reflexivity.
  - reflexivity.
  - apply perm_swap.
Defined.

(* ===================================================================== *)
(** ** The training targets of the k-bin emulator *)
(* ===================================================================== *)

Lemma assign_row_raises (w : nat) (src : list f64) (ex : exn) :
  assign_row w src = Raise ex → ex = ValueError.
Proof.
  unfold assign_row. case_decide; [done|].
  destruct src as [|x [|? ?]]; congruence.
Qed.

Lemma assign_row_short (w : nat) (src : list f64) :
  length src ≠ w → length src ≠ 1%nat → assign_row w src = Raise ValueError.
Proof.
  intros Hw H1. unfold assign_row. rewrite decide_False by done.
  by destruct src as [|x [|? ?]].
Qed.

Lemma assign_row_k_bin (k : nat) (en : entry) :
  (k ≤ length (e_p1d_Mpc en))%nat ∨ length (e_p1d_Mpc en) = 1%nat →
  assign_row k (take k (e_p1d_Mpc en)) = Ok (k_bin_row k en).
Proof.
  intros Hlen. unfold assign_row, k_bin_row.
  destruct (decide (k ≤ length (e_p1d_Mpc en))%nat) as [Hle|Hgt].
  - rewrite decide_True; [done|]. rewrite length_take. lia.
  - destruct Hlen as [?|H1]; [lia|].
    destruct (e_p1d_Mpc en) as [|x [|? ?]]; try done.
    destruct k as [|k]; [cbn in Hgt; lia|]. cbn [take head default].
    rewrite take_nil. cbn in Hgt.
    rewrite decide_False by (cbn; lia). done.
Qed.

(** [mapM] of a function with one exception only. *)
Lemma mapM_Raise_only {A B} (f : A → result B) (l : list A) (E : exn) :
  (∀ x ex, f x = Raise ex → ex = E) →
  Exists (λ x, f x = Raise E) l → mapM f l = Raise E.
Proof.
  intros Honly Hex. destruct (mapM f l) as [k|ex] eqn:Hm.
  - apply Exists_exists in Hex as (x & Hx & Hraise).
    destruct (mapM_Ok_elem f l k x Hm Hx) as [y Hy]. congruence.
  - apply mapM_Raise_inv in Hm as (x & _ & Hx). f_equal. by eapply Honly.
Qed.

(** X17.  The training targets of the k-bin emulator.  When every entry
    of the archive has [k_bin] values of the power or more, or one value
    only, [_training_points_k_bin] returns a row per entry: the first
    [k_bin] values of its power, or its only value repeated [k_bin] times
    (numpy broadcasts it).  When an entry has fewer values than [k_bin],
    and not exactly one, the method raises [ValueError]. *)
Theorem k_bin_training_points `{Libraries} (w : world) :
  (Forall (λ en, (k_bin (self w) ≤ length (e_p1d_Mpc en))%nat ∨
                 length (e_p1d_Mpc en) = 1%nat) (arxiv (self w)) →
   _training_points_k_bin w
   = ([], w, Ok (Ndarray2 (k_bin (self w))
                          (map (k_bin_row (k_bin (self w)))
                               (arxiv (self w)))))) ∧
  (Exists (λ en, (length (e_p1d_Mpc en) < k_bin (self w))%nat ∧
                 length (e_p1d_Mpc en) ≠ 1%nat) (arxiv (self w)) →
   ∃ w', _training_points_k_bin w = ([], w', Raise ValueError)).
Proof.
  split.
  - intros Hall. unfold _training_points_k_bin, bind_first, mbind, Py_bind,
      get_self, lift.
    rewrite (mapM_Ok_map _ (k_bin_row (k_bin (self w)))).
    + done.
    + intros en Hen. rewrite Forall_forall in Hall.
      by apply assign_row_k_bin, Hall.
  - intros Hex. unfold _training_points_k_bin, bind_first, mbind, Py_bind,
      get_self, lift.
    rewrite (mapM_Raise_only _ _ ValueError).
    + by eexists.
    + intros en ex. apply assign_row_raises.
    + eapply Exists_impl; [exact Hex|]. cbn. intros en [Hlt H1].
      apply assign_row_short; rewrite length_take; lia.
Qed.

Lemma k_bin_training_points_witness :
  _training_points_k_bin (World example_new ∅)
    = ([], World example_new ∅, Ok example_targets) ∧
  ∃ w', _training_points_k_bin (World short_spectrum_new ∅)
        = ([], w', Raise ValueError).
Proof.
  destruct (k_bin_training_points (World example_new ∅)) as [Hrows _].
  destruct (k_bin_training_points (World short_spectrum_new ∅))
    as [_ Hraise].
  split.
  - apply Hrows. repeat constructor; cbn; lia.
  - apply Hraise. apply Exists_cons_tl, Exists_cons_hd. cbn. lia.
Defined.

(* ===================================================================== *)
(** ** An emulator type that is not known *)
(* ===================================================================== *)

Lemma _build_interp_unknown_type `{Libraries} (w : world) :
  emu_type (self w) ≠ "k_bin" → emu_type (self w) ≠ "polyfit" →
  _build_interp w
  = ([Print "Unknown emulator type, terminating"], w, Raise SystemExit).
Proof.
  intros Hk Hp. unfold _build_interp.
  apply Py_bind_raise. unfold _buildTrainingSets.
  rewrite <- (app_nil_l [Print _]).
  eapply Py_bind_run; [reflexivity|]. cbn [self].
  apply Py_bind_raise.
  rewrite decide_False by done. rewrite decide_False by done.
  reflexivity.
Qed.

(** X18.  An emulator type other than ["k_bin"] and ["polyfit"]:
    [_build_interp] prints that the type is unknown and raises
    [SystemExit] with the object as it was, and so the constructor, once
    it has read the archive and found [k_bin], ends with [SystemExit]
    after this message. *)
Theorem unknown_emulator_type_exits `{Libraries} `{Construction}
    (a : InitArgs) (custom : bool) (data : list entry) (entry0 : entry)
    (kb : nat) :
  a_emu_type a ≠ "k_bin" → a_emu_type a ≠ "polyfit" →
  archive_of a custom data → data !! 0%nat = Some entry0 →
  np_max_index (argwhere (below_kmax a entry0)) = Ok kb →
  (∀ w, emu_type (self w) = a_emu_type a →
     _build_interp w
     = ([Print "Unknown emulator type, terminating"], w, Raise SystemExit)) ∧
  (__init__ a).2 = Raise SystemExit ∧
  last (__init__ a).1 = Some (Print "Unknown emulator type, terminating").
Proof.
  intros Hk Hp Harx Hentry Hkb. split.
  { intros w Hw. apply _build_interp_unknown_type; by rewrite Hw. }
  assert (∃ t1,
    match a_passArxiv a with
    | None => data ← out (ArxivP1D a); mret (false, data)
    | Some data =>
        say_when (a_verbose a)
          "Loading emulator using a specific arxiv, not the one set in basedir";;
        mret (true, data)
    end = (t1, Ok (custom, data))) as [t1 Hread].
  { unfold archive_of in Harx. destruct (a_passArxiv a) as [d|].
    - destruct Harx as [-> ->]. destruct (a_verbose a); by eexists.
    - destruct Harx as [Hd' ->]. rewrite Hd'. by eexists. }
  assert (__init__ a
          = (t1 ++ [] ++ [] ++ [Print "Unknown emulator type, terminating"],
             Raise SystemExit)) as ->.
  { unfold __init__.
    eapply Out_bind_run; [exact Hread|].
    eapply Out_bind_run; [unfold out; rewrite Hentry; reflexivity|].
    eapply Out_bind_run.
    { unfold out. fold (below_kmax a entry0). rewrite Hkb. reflexivity. }
    erewrite Py_bind_raise; [reflexivity|].
    by apply _build_interp_unknown_type. }
  split; [done|]. cbn. by rewrite last_snoc.
Qed.

Lemma unknown_emulator_type_exits_witness :
  (__init__ (with_emu_type "linear" example_args)).2 = Raise SystemExit ∧
  last (__init__ (with_emu_type "linear" example_args)).1
  = Some (Print "Unknown emulator type, terminating").
Proof.
  apply (unknown_emulator_type_exits (with_emu_type "linear" example_args)
           false example_arxiv (example_entry 1 4 10 20) 1).
  - discriminate.
  - discriminate.
  - split; reflexivity.
  - reflexivity.
  - cbn. by R_decide.
Defined.

(* ===================================================================== *)
(** ** Limits given by the caller *)
(* ===================================================================== *)

Lemma for_each_Raise_inv {A S} (f : A → S → result S) (l : list A) (s : S)
    (ex : exn) :
  for_each f l s = Raise ex → ∃ x s', x ∈ l ∧ f x s' = Raise ex.
Proof.
  revert s. induction l as [|x l IH]; intros s; cbn [for_each]; [done|].
  destruct (f x s) as [s'|ex'] eqn:Hx; cbn.
  - intros (y & s'' & Hy & Hraise)%IH. exists y, s''. split; [by right|done].
  - intros [= ->]. exists x, s. split; [left|done].
Qed.

Lemma _rescale_params_raises `{Libraries} (params : list f64)
    (limits : list (f64 * f64)) (ex : exn) :
  _rescale_params params limits = Raise ex → ex = IndexError.
Proof.
  unfold _rescale_params.
  intros (aa & s & _ & Hraise)%for_each_Raise_inv.
  unfold bind_first, mbind, result_bind, or_raise in Hraise.
  destruct (s !! aa); [|by injection Hraise as <-].
  destruct (limits !! aa); [done|by injection Hraise as <-].
Qed.

Lemma rescale_grid_raises `{Libraries} (n : nat) (limits : list (f64 * f64))
    (rows : list (list f64)) (ex : exn) :
  rescale_grid n limits rows = Raise ex → ex = IndexError.
Proof.
  unfold rescale_grid.
  intros (cc & s & _ & Hraise)%for_each_Raise_inv.
  unfold bind_first, mbind, result_bind, or_raise in Hraise.
  destruct (s !! cc) as [row|]; [|by injection Hraise as <-].
  destruct (_rescale_params row limits) as [row'|ex'] eqn:Hrow; [done|].
  injection Hraise as <-. by eapply _rescale_params_raises.
Qed.

(** X19.  Limits given by the caller.  When [paramLimits] is set before
    [_build_interp] runs, the limits are not computed from the grid: with
    a pair of limits for every parameter the construction returns, the
    limits are the given ones and the stored grid is the grid of the
    archive rescaled by them (inside [0,1] or not); with fewer pairs than
    parameters and an archive that is not empty it raises [IndexError]. *)
Theorem given_limits_are_used `{Libraries} (w w1 : world) (t1 : list event)
    (X Y : ndarray2) (l : list (f64 * f64)) :
  paramLimits (self w) = Some l →
  _buildTrainingSets w = (t1, w1, Ok (X, Y)) →
  ((nd_cols X ≤ length l)%nat →
   ∃ t w', _build_interp w = (t, w', Ok tt) ∧
     paramLimits (self w') = Some l ∧
     nd_rows (X_param_grid (self w'))
       = map (λ row, zip_with rescale1 row l) (nd_rows X)) ∧
  ((length l < nd_cols X)%nat → nd_rows X ≠ [] →
   (_build_interp w).2 = Raise IndexError).
Proof.
  intros HL Hbts.
  destruct (_buildTrainingSets_inv _ _ _ _ _ Hbts)
    as (Hfs & Hcfg & HpL & Hcols & HrowsX & HrowsY & HshX & HshY).
  split.
  - intros Hlen.
    destruct (_build_interp_forward w w1 t1 X Y l Hbts) as (t & sf & _ & Hrun).
    + by rewrite HL.
    + unfold well_shaped in HshX. eapply Forall_impl; [exact HshX|].
      cbn. intros row ->. done.
    + by eexists _, _.
  - intros Hlen Hne.
    destruct (_build_interp w) as [[t w'] [[]|ex]] eqn:Hrun; cbn.
    + exfalso.
      destruct (_build_interp_inv w w' t Hrun)
        as (t1' & w1' & X' & Y' & limits & sf & Hbts' & Hlim & Hrows & _).
      rewrite Hbts in Hbts'. injection Hbts' as <- <- <- <-.
      rewrite HL in Hlim. injection Hlim as <-.
      destruct (nd_rows X) as [|row rows] eqn:HX; [done|].
      apply Forall_cons in Hrows as [Hrow _].
      unfold well_shaped in HshX. rewrite HX in HshX.
      apply Forall_cons in HshX as [Hshape _]. lia.
    + f_equal. unfold _build_interp in Hrun.
      unfold bind_first, mbind, Py_bind in Hrun. rewrite Hbts in Hrun.
      cbn [update_self get_self self fs set_X_param_grid paramLimits] in Hrun.
      rewrite HpL, HL in Hrun.
      cbn -[rescale_grid np_median_axis0 mapM broadcast] in Hrun.
      destruct (rescale_grid _ l (nd_rows X)) as [rows'|ex'] eqn:Hgrid.
      * exfalso. rewrite <- HrowsX in Hgrid.
        apply rescale_grid_Ok_inv in Hgrid as [_ Hrows].
        destruct (nd_rows X) as [|row rows] eqn:HX; [done|].
        apply Forall_cons in Hrows as [Hrow _].
        unfold well_shaped in HshX. rewrite HX in HshX.
        apply Forall_cons in HshX as [Hshape _]. lia.
      * cbn in Hrun. injection Hrun as _ _ <-.
        by eapply rescale_grid_raises.
Qed.

Lemma given_limits_buildTrainingSets (e : GPEmulator) :
  e = given_limits_new ∨ e = short_limits_new →
  _buildTrainingSets (World e ∅)
  = ([], World e ∅, Ok (Ndarray2 2 (fin_rows example_grid), example_targets)).
Proof. by intros [-> | ->]. Qed.

Lemma given_limits_are_used_witness :
  (∃ t w', _build_interp (World given_limits_new ∅) = (t, w', Ok tt) ∧
     paramLimits (self w') = Some [(Fin 0, Fin 4); (Fin 2, Fin 4)] ∧
     nd_rows (X_param_grid (self w'))
       = map (λ row, zip_with rescale1 row [(Fin 0, Fin 4); (Fin 2, Fin 4)])
             (fin_rows example_grid)) ∧
  (_build_interp (World short_limits_new ∅)).2 = Raise IndexError.
Proof.
  split.
  - destruct (given_limits_are_used (World given_limits_new ∅) _ _ _ _
                [(Fin 0, Fin 4); (Fin 2, Fin 4)] eq_refl
                (given_limits_buildTrainingSets _ (or_introl eq_refl)))
      as [Hused _].
    apply Hused. cbn. lia.
  - destruct (given_limits_are_used (World short_limits_new ∅) _ _ _ _
                [(Fin 0, Fin 4)] eq_refl
                (given_limits_buildTrainingSets _ (or_intror eq_refl)))
      as [_ Hshort].
    apply Hshort; [cbn; lia|done].
Defined.

(* ===================================================================== *)
(** ** The linear emulator *)
(* ===================================================================== *)

(** X20.  A model without one of the seven parameters of the linear
    emulator.  The names are read in the order Delta2_p, n_p, alpha_p,
    f_p, mF, sigT_Mpc, gamma: when the model holds the names before [par]
    and not [par], [emulate_p1d_Mpc] raises [KeyError] with the key [par],
    after its first message and before any interpolator is called. *)
Theorem linear_missing_parameter `{Libraries} (junk : nat → f64)
    (e : LinearEmulator) (m : gmap string f64) (k_Mpc : list f64)
    (pars pars' : list string) (par : string) :
  ["Delta2_p"; "n_p"; "alpha_p"; "f_p"; "mF"; "sigT_Mpc"; "gamma"]
    = pars ++ par :: pars' →
  has_keys m pars → m !! par = None →
  _point_from_model m = Raise (KeyError par) ∧
  emulate_p1d_Mpc junk e m k_Mpc
  = (if lin_verbose e then [Print "asked to emulate model"] else [],
     Raise (KeyError par)).
Proof.
  intros Hnames Hkeys Hnone.
  assert (_point_from_model m = Raise (KeyError par)) as Hpoint.
  { unfold _point_from_model. rewrite Hnames. apply mapM_Raise_first.
    - intros y Hy. unfold has_keys in Hkeys. rewrite Forall_forall in Hkeys.
      destruct (Hkeys y Hy) as [v ->]. by eexists.
    - by rewrite Hnone. }
  split; [done|].
  unfold emulate_p1d_Mpc, bind_first, mbind, Out_bind, out.
  rewrite Hpoint. by destruct (lin_verbose e).
Qed.

Lemma linear_missing_parameter_witness :
  emulate_p1d_Mpc (λ _, NaN) example_linear
    (delete "alpha_p" example_linear_model) [Fin 1; Fin 2]
  = ([Print "asked to emulate model"], Raise (KeyError "alpha_p")).
Proof.
  apply (linear_missing_parameter (λ _, NaN) example_linear
           (delete "alpha_p" example_linear_model) [Fin 1; Fin 2]
           ["Delta2_p"; "n_p"] ["f_p"; "mF"; "sigT_Mpc"; "gamma"] "alpha_p").
  - reflexivity.
  - repeat constructor; by eexists.
  - reflexivity.
Defined.

(** X21.  What the linear emulator returns depends on the model, the
    wavenumbers, the interpolators and the archive only: the values that
    [np.empty] happened to hold never reach the result, [verbose] changes
    only what is printed, and without [verbose] nothing is printed. *)
Theorem linear_emulator_reads_no_junk `{Libraries} (junk junk' : nat → f64)
    (e e' : LinearEmulator) (m : gmap string f64) (k_Mpc : list f64) :
  lin_arxiv e' = lin_arxiv e → linterps e' = linterps e →
  (emulate_p1d_Mpc junk' e' m k_Mpc).2 = (emulate_p1d_Mpc junk e m k_Mpc).2 ∧
  (lin_verbose e = false → (emulate_p1d_Mpc junk e m k_Mpc).1 = []).
Proof.
  intros Harx Hlin.
  unfold emulate_p1d_Mpc, bind_first, mbind, Out_bind, out.
  rewrite Harx, Hlin.
  destruct (_point_from_model m) as [point|ex].
  - rewrite !emulate_coeffs_rev.
    pose proof (emulate_coeffs_rev e' point junk') as He'.
    rewrite Hlin in He'. unfold emulate_coeffs in He' |- *.
    rewrite Hlin in He' |- *.
    split.
    + destruct (lin_verbose e), (lin_verbose e'); cbn; rewrite ?He'; cbn;
        destruct (lin_arxiv e !! 0%nat) as [[[fit|]]|]; done.
    + intros ->. cbn.
      destruct (lin_arxiv e !! 0%nat) as [[[fit|]]|]; done.
  - split.
    + by destruct (lin_verbose e), (lin_verbose e').
    + by intros ->.
Qed.

Lemma linear_emulator_reads_no_junk_witness :
  (emulate_p1d_Mpc (λ _, Fin 1) example_linear example_linear_model
                   [Fin 1; Fin 2]).2
  = (emulate_p1d_Mpc (λ _, NaN) example_linear example_linear_model
                     [Fin 1; Fin 2]).2.
Proof.
  apply (linear_emulator_reads_no_junk (λ _, NaN) (λ _, Fin 1)
           example_linear example_linear example_linear_model
           [Fin 1; Fin 2] eq_refl eq_refl).
Defined.

(* ===================================================================== *)
(** ** The training targets of the polyfit emulator *)
(* ===================================================================== *)

(** X22.  The training targets of the polyfit emulator.  When
    [_training_points_polyfit] returns, it has printed nothing and left
    the files alone; every entry of the archive now carries under
    ['fit_p1d'] the coefficients that [PolyP1D] fits to its wavenumbers
    and power with [kmin_Mpc=1e-3], [kmax_Mpc] of the emulator and degree
    4, in place of an earlier fit, and is otherwise as before; the targets
    have a row of 5 entries per entry of the archive, which is the fit of
    that entry when the fit has 5 coefficients. *)
Theorem polyfit_training_points `{Libraries} (w w' : world) (t : list event)
    (Y : ndarray2) :
  _training_points_polyfit w = (t, w', Ok Y) →
  t = [] ∧ fs w' = fs w ∧ nd_cols Y = 5%nat ∧
  length (nd_rows Y) = length (arxiv (self w)) ∧
  ∀ i en, arxiv (self w) !! i = Some en →
    ∃ c row,
      PolyP1D_fit (e_k_Mpc en) (e_p1d_Mpc en) (1 / 1000)
                  (kmax_Mpc (self w)) 4 = Ok c ∧
      arxiv (self w') !! i = Some (set_fit_p1d c en) ∧
      nd_rows Y !! i = Some row ∧ length row = 5%nat ∧
      (length c = 5%nat → row = c).
Proof.
  unfold _training_points_polyfit, _fit_p1d_in_arxiv. intros Hrun. py_inv.
  cbn in *.
  match goal with
  | Hfit : mapM _ (arxiv (self w)) = Ok ?data,
    Hrows : mapM _ ?data = Ok ?rows |- _ =>
      rename Hfit into Hdata; rename Hrows into HY
  end.
  split; [done|]. split; [done|]. split; [done|].
  split.
  { apply mapM_Ok_length in HY. apply mapM_Ok_length in Hdata. lia. }
  intros i en Hen.
  destruct (mapM_Ok_lookup _ _ _ _ _ Hdata Hen) as (en' & Hen' & Hfit).
  apply bind_Ok in Hfit as (c & Hc & [= <-]).
  destruct (mapM_Ok_lookup _ _ _ _ _ HY Hen') as (row & Hrow & Hassign).
  cbn in Hassign. exists c, row. do 3 (split; [done|]).
  split; [by eapply assign_row_length|].
  intros Hlen. unfold assign_row in Hassign.
  rewrite decide_True in Hassign by done. by injection Hassign.
Qed.

Lemma example_polyfit_run :
  ∃ w' Y, _training_points_polyfit (World example_new ∅) = ([], w', Ok Y).
Proof. by eexists _, _. Qed.

Lemma polyfit_training_points_witness :
  ∃ w' Y,
    _training_points_polyfit (World example_new ∅) = ([], w', Ok Y) ∧
    nd_cols Y = 5%nat ∧ length (nd_rows Y) = 3%nat.
Proof.
  destruct example_polyfit_run as (w' & Y & Hrun). exists w', Y.
  split; [exact Hrun|].
  destruct (polyfit_training_points (World example_new ∅) w' [] Y Hrun)
    as (_ & _ & Hcols & Hrows & _).
  split; [exact Hcols|exact Hrows].
Defined.

(* ===================================================================== *)
(** ** GPEmulator.emulate_p1d_Mpc *)
(* ===================================================================== *)

Section Emulate.
Context `{Libraries} `{GP.Interpolation}.

Lemma print_warning_run (ks : list f64) (a b : f64) (w : world) :
  py_max ks = Ok a → py_max (training_k_bins (self w)) = Ok b →
  GP.print_warning (GP.Array1 ks) w
  = ([Print (GP.str_float a); Print (GP.str_float b);
      Print
        "Warning! Your requested k bins are higher than the training values."],
     w, GP.Returns tt).
Proof.
  intros Ha Hb.
  unfold GP.print_warning, bind_first, mbind, GP.Run_bind, GP.run, get_self,
    lift, GP.py_max_of, print, emit.
  rewrite Ha, Hb. reflexivity.
Qed.

(** The check of an array of wavenumbers against the training range. *)
Lemma check_k_bins_array (ks : list f64) (a b : f64) (w : world) :
  py_max ks = Ok a → py_max (training_k_bins (self w)) = Ok b →
  GP.check_k_bins (GP.Array1 ks) w
  = (if F64.gtb a b
     then [Print (GP.str_float a); Print (GP.str_float b);
           Print
        "Warning! Your requested k bins are higher than the training values."]
     else [], w, GP.Returns tt).
Proof.
  intros Ha Hb.
  pose proof (print_warning_run ks a b w Ha Hb) as Hwarn.
  unfold GP.check_k_bins, GP.try_except, bind_first, mbind, GP.Run_bind,
    GP.run, get_self, lift, GP.py_max_of in Hwarn |- *.
  rewrite Ha, Hb. destruct (F64.gtb a b); [|reflexivity].
  unfold GP.print_warning, bind_first, mbind, GP.Run_bind, GP.run, get_self,
    lift, GP.py_max_of, print, emit in Hwarn |- *.
  rewrite Ha, Hb in Hwarn |- *. reflexivity.
Qed.

(** The check of a single wavenumber: [max] of a number raises, and in
    the [except] block the warning calls [max] of it again. *)
Lemma check_k_bins_scalar (x b : f64) (w : world) :
  py_max (training_k_bins (self w)) = Ok b →
  GP.check_k_bins (GP.Scalar x) w
  = ([], w, if F64.gtb x b then GP.Raises (GP.Builtin TypeError)
            else GP.Returns tt).
Proof.
  intros Hb.
  unfold GP.check_k_bins, GP.try_except, bind_first, mbind, GP.Run_bind,
    GP.run, get_self, lift, GP.py_max_of, GP.above.
  rewrite Hb. destruct (F64.gtb x b); [|reflexivity].
  unfold GP.print_warning, bind_first, mbind, GP.Run_bind, GP.run, get_self,
    lift, GP.py_max_of. reflexivity.
Qed.

(** Without training wavenumbers the check raises in its [except]
    block. *)
Lemma check_k_bins_no_training (k_Mpc : GP.scalar_or_array) (w : world) :
  training_k_bins (self w) = [] →
  GP.check_k_bins k_Mpc w = ([], w, GP.Raises (GP.Builtin ValueError)).
Proof.
  intros Hnil.
  unfold GP.check_k_bins, GP.try_except, bind_first, mbind, GP.Run_bind,
    GP.run, get_self, lift, GP.py_max_of.
  rewrite Hnil. destruct k_Mpc as [x|[|k ks]]; reflexivity.
Qed.

Lemma emulate_after_check (m : model) (k_Mpc : GP.scalar_or_array)
    (return_covar : bool) (w : world) (t : list event) (r : GP.raised) :
  GP.check_k_bins k_Mpc w = (t, w, GP.Raises r) →
  GP.emulate_p1d_Mpc m k_Mpc return_covar w = (t, w, GP.Raises r).
Proof.
  intros Hcheck. unfold GP.emulate_p1d_Mpc, bind_first, mbind, GP.Run_bind.
  by rewrite Hcheck.
Qed.

Lemma emulate_untrained (m : model) (k_Mpc : GP.scalar_or_array)
    (return_covar : bool) (w : world) (t : list event) :
  GP.check_k_bins k_Mpc w = (t, w, GP.Returns tt) →
  trained (self w) = false →
  GP.emulate_p1d_Mpc m k_Mpc return_covar w
  = (t ++ [Print "Emulator not trained, cannot make a prediction"], w,
     GP.Raises (GP.Builtin TypeError)).
Proof.
  intros Hcheck Htr.
  pose proof (predict_untrained (self w) (fs w) m Htr) as Hpredict.
  rewrite world_eta in Hpredict.
  unfold GP.emulate_p1d_Mpc, bind_first, mbind, GP.Run_bind.
  rewrite Hcheck. unfold GP.run at 1. rewrite Hpredict.
  unfold GP.raise. by rewrite app_nil_r.
Qed.

End Emulate.

(** X23.  [emulate_p1d_Mpc] of the Gaussian-process emulator before
    training.  For an array of wavenumbers and an emulator with training
    wavenumbers that is not trained, the method prints the warning about
    the range when the largest wavenumber is above the largest training
    wavenumber, then the message of [predict] that the emulator is not
    trained, and raises [TypeError] (it unpacks the [None] that [predict]
    returned); the object is as before. *)
Theorem emulate_before_training_raises `{Libraries} `{GP.Interpolation}
    (m : model) (ks : list f64) (return_covar : bool) (w : world) :
  trained (self w) = false → ks ≠ [] → training_k_bins (self w) ≠ [] →
  ∃ a b,
    py_max ks = Ok a ∧ py_max (training_k_bins (self w)) = Ok b ∧
    GP.emulate_p1d_Mpc m (GP.Array1 ks) return_covar w
    = ((if F64.gtb a b
        then [Print (GP.str_float a); Print (GP.str_float b);
              Print
        "Warning! Your requested k bins are higher than the training values."]
        else [])
       ++ [Print "Emulator not trained, cannot make a prediction"],
       w, GP.Raises (GP.Builtin TypeError)).
Proof.
  intros Htr Hks Htb.
  destruct (py_max_returns ks Hks) as [a Ha].
  destruct (py_max_returns _ Htb) as [b Hb].
  exists a, b. do 2 (split; [done|]).
  apply emulate_untrained; [|done]. by apply check_k_bins_array.
Qed.

Lemma emulate_before_training_raises_witness :
  ∃ a b,
    py_max [Fin 5] = Ok a ∧ py_max (training_k_bins example_new) = Ok b ∧
    GP.emulate_p1d_Mpc (example_model 2 3) (GP.Array1 [Fin 5]) false
                       (World example_new ∅)
    = ((if F64.gtb a b
        then [Print (GP.str_float a); Print (GP.str_float b);
              Print
        "Warning! Your requested k bins are higher than the training values."]
        else [])
       ++ [Print "Emulator not trained, cannot make a prediction"],
       World example_new ∅, GP.Raises (GP.Builtin TypeError)).
Proof.
  apply (emulate_before_training_raises (example_model 2 3) [Fin 5] false
           (World example_new ∅)).
  - reflexivity.
  - discriminate.
  - discriminate.
Defined.

(** X24.  Without training wavenumbers ([k_bin] is 0: only the first
    wavenumber of the archive is below [kmax_Mpc]), [emulate_p1d_Mpc] of
    the Gaussian-process emulator raises [ValueError] for every model and
    every wavenumber, a number or an array, before it predicts: [max] of
    the empty [training_k_bins] raises in the [except] block. *)
Theorem emulate_without_training_bins_raises `{Libraries}
    `{GP.Interpolation} (m : model) (k_Mpc : GP.scalar_or_array)
    (return_covar : bool) (w : world) :
  training_k_bins (self w) = [] →
  GP.emulate_p1d_Mpc m k_Mpc return_covar w
  = ([], w, GP.Raises (GP.Builtin ValueError)).
Proof.
  intros Hnil. apply emulate_after_check.
  by apply check_k_bins_no_training.
Qed.

Lemma emulate_without_training_bins_raises_witness :
  GP.emulate_p1d_Mpc (example_model 2 3) (GP.Array1 [Fin 1]) true
                     (World GP.example_no_bins ∅)
  = ([], World GP.example_no_bins ∅, GP.Raises (GP.Builtin ValueError)).
Proof.
  apply (emulate_without_training_bins_raises (example_model 2 3)
           (GP.Array1 [Fin 1]) true (World GP.example_no_bins ∅)).
  reflexivity.
Defined.

(** X25.  The check of the wavenumbers against the training range.
    With [b] the largest training wavenumber: for an array of wavenumbers
    the check prints the largest of them, [b] and the warning exactly when
    the largest is above [b], and raises nothing; a single number that is
    not above [b] passes in silence; for a single number above [b],
    [emulate_p1d_Mpc] raises [TypeError] before it predicts, because the
    warning takes [max] of the number. *)
Theorem wavenumbers_above_training_range `{Libraries} `{GP.Interpolation}
    (w : world) (b : f64) :
  py_max (training_k_bins (self w)) = Ok b →
  (∀ ks a, py_max ks = Ok a →
     GP.check_k_bins (GP.Array1 ks) w
     = (if F64.gtb a b
        then [Print (GP.str_float a); Print (GP.str_float b);
              Print
        "Warning! Your requested k bins are higher than the training values."]
        else [], w, GP.Returns tt)) ∧
  (∀ x, F64.gtb x b = false →
     GP.check_k_bins (GP.Scalar x) w = ([], w, GP.Returns tt)) ∧
  (∀ x m return_covar, F64.gtb x b = true →
     GP.emulate_p1d_Mpc m (GP.Scalar x) return_covar w
     = ([], w, GP.Raises (GP.Builtin TypeError))).
Proof.
  intros Hb. split; [|split].
  - intros ks a Ha. by apply check_k_bins_array.
  - intros x Hx. rewrite (check_k_bins_scalar x b w Hb). by rewrite Hx.
  - intros x m rc Hx. apply emulate_after_check.
    rewrite (check_k_bins_scalar x b w Hb). by rewrite Hx.
Qed.

Lemma example_training_max :
  py_max (training_k_bins example_trained) = Ok (Fin 2).
Proof. cbn. by R_decide. Qed.

Lemma wavenumbers_above_training_range_witness :
  GP.emulate_p1d_Mpc (example_model 2 3) (GP.Scalar (Fin 3)) false
                     (World example_trained ∅)
  = ([], World example_trained ∅, GP.Raises (GP.Builtin TypeError)).
Proof.
  destruct (wavenumbers_above_training_range (World example_trained ∅)
              (Fin 2) example_training_max) as (_ & _ & Hscalar).
  apply Hscalar. cbn. apply bool_decide_eq_true_2. lra.
Defined.

(* ===================================================================== *)
(** ** What emulate_p1d_Mpc returns *)
(* ===================================================================== *)

Lemma F64_mul_comm (a b : f64) : (a * b)%f64 = (b * a)%f64.
Proof.
  destruct a as [x| | |], b as [y| | |]; cbn; try done.
  f_equal. lra.
Qed.

Lemma np_outer_lookup (v : GP.scalar_or_array) (i j : nat) (x y : f64) :
  GP.flat v !! i = Some x → GP.flat v !! j = Some y →
  ∃ row, GP.np_outer v v !! i = Some row ∧ row !! j = Some (x * y)%f64.
Proof.
  intros Hx Hy. unfold GP.np_outer. rewrite list_lookup_fmap, Hx. cbn.
  eexists. split; [done|]. by rewrite list_lookup_fmap, Hy.
Qed.

Lemma check_k_bins_frame `{Libraries} `{GP.Interpolation}
    (k_Mpc : GP.scalar_or_array) (w : world) :
  (GP.check_k_bins k_Mpc w).1.2 = w.
Proof.
  unfold GP.check_k_bins, GP.try_except, GP.print_warning, bind_first, mbind,
    mret, GP.Run_ret, GP.Run_bind, GP.run, get_self, lift, print, emit.
  cbn -[py_max GP.py_max_of GP.above].
  repeat (case_match; simplify_eq/=; try done).
Qed.

(** X26.  What [emulate_p1d_Mpc] of the Gaussian-process emulator
    returns.  Whatever it returns or raises, the object and the files are
    as before.  When it returns, it returns the power alone without
    [return_covar], and with [return_covar] the power and a covariance
    that is the outer product of one array of errors with itself: a
    square, symmetric matrix (errors fully correlated). *)
Theorem emulate_returns_outer_product `{Libraries} `{GP.Interpolation}
    (m : model) (k_Mpc : GP.scalar_or_array) (return_covar : bool)
    (w w' : world) (t : list event) (r : GP.outcome GP.emulated) :
  GP.emulate_p1d_Mpc m k_Mpc return_covar w = (t, w', r) →
  w' = w ∧
  ∀ res, r = GP.Returns res →
    if return_covar
    then ∃ P error, res = GP.SpectrumCovar P (GP.np_outer error error) ∧
           ∀ i j x y, GP.flat error !! i = Some x →
             GP.flat error !! j = Some y →
             ∃ row_i row_j,
               GP.np_outer error error !! i = Some row_i ∧
               GP.np_outer error error !! j = Some row_j ∧
               row_i !! j = Some (x * y)%f64 ∧ row_j !! i = Some (x * y)%f64
    else ∃ P, res = GP.Spectrum P.
Proof.
  intros Hrun.
  assert (∀ error i j x y, GP.flat error !! i = Some x →
            GP.flat error !! j = Some y →
            ∃ row_i row_j,
              GP.np_outer error error !! i = Some row_i ∧
              GP.np_outer error error !! j = Some row_j ∧
              row_i !! j = Some (x * y)%f64 ∧ row_j !! i = Some (x * y)%f64)
    as Hsym.
  { intros error i j x y Hx Hy.
    destruct (np_outer_lookup error i j x y Hx Hy) as (ri & Hri & Hij).
    destruct (np_outer_lookup error j i y x Hy Hx) as (rj & Hrj & Hji).
    exists ri, rj. rewrite (F64_mul_comm y x) in Hji. done. }
  unfold GP.emulate_p1d_Mpc, bind_first, mbind, GP.Run_bind in Hrun.
  pose proof (check_k_bins_frame k_Mpc w) as Hcheck.
  destruct (GP.check_k_bins k_Mpc w) as [[t1 w1] [[]|r1]]; cbn in Hcheck;
    subst w1; [|by injection Hrun as <- <- <-].
  unfold GP.run at 1 in Hrun.
  pose proof (predict_frame m w) as Hpredict.
  destruct (predict m w) as [[t2 w2] [[[pred err]|]|ex]]; cbn in Hpredict;
    subst w2; cbn -[GP.np_outer] in Hrun;
    [|by injection Hrun as <- <- <-..].
  unfold GP.run, GP.raise, mret, GP.Run_ret, get_self, lift in Hrun.
  cbn -[GP.np_outer] in Hrun.
  repeat (case_match; simplify_eq/=; try done);
    (split; [done|]); intros res [= <-]; eauto.
Qed.

Lemma example_emulate_run :
  ∃ t res,
    GP.emulate_p1d_Mpc (example_model 2 3) (GP.Array1 [Fin 1]) true
                       (World example_trained ∅)
    = (t, World example_trained ∅, GP.Returns res).
Proof.
  pose proof (predict_trained example_trained ∅ (example_model 2 3)
                [(Fin 1, Fin 3); (Fin 2, Fin 4)] [Fin (1 / 2); Fin (1 / 2)]
                (Fin 4) eq_refl eq_refl (example_model_has_keys 2 3)
                ltac:(cbn; lia) (example_GPy_predict _ _) eq_refl)
    as Hpredict.
  pose proof (check_k_bins_array [Fin 1] (Fin 1) (Fin 2)
                (World example_trained ∅) eq_refl example_training_max)
    as Hcheck.
  assert (F64.gtb (Fin 1) (Fin 2) = false) as Hgtb.
  { cbn. apply bool_decide_eq_false_2. lra. }
  rewrite Hgtb in Hcheck.
  unfold GP.emulate_p1d_Mpc, bind_first, mbind, GP.Run_bind.
  rewrite Hcheck. unfold GP.run at 1. rewrite Hpredict.
  by eexists _, _.
Qed.

Lemma emulate_returns_outer_product_witness :
  ∃ t res P error,
    GP.emulate_p1d_Mpc (example_model 2 3) (GP.Array1 [Fin 1]) true
                       (World example_trained ∅)
    = (t, World example_trained ∅, GP.Returns res) ∧
    res = GP.SpectrumCovar P (GP.np_outer error error).
Proof.
  destruct example_emulate_run as (t & res & Hrun).
  destruct (emulate_returns_outer_product _ _ _ _ _ _ _ Hrun) as [_ Hres].
  destruct (Hres res eq_refl) as (P & error & Hshape & _).
  by exists t, res, P, error.
Defined.
